(** * Ant colony simulation (sim.py): shallow embedding and checked properties

    Python floats are modelled by the real numbers of the Standard Library
    (exact arithmetic, [cos], [sin], [sqrt], [PI]); Python ints by [Z].
    The module-level pseudo-random generator is an explicit stream of draws
    threaded through the code by a small state monad. *)

From Stdlib Require Import Reals ZArith List Bool Lra Lia.
Import ListNotations.
Open Scope R_scope.

(** ** Simulation constants *)

Definition SCREEN_WIDTH : Z := 1280.
Definition SCREEN_HEIGHT : Z := 720.

Definition ANT_COUNT : nat := 200.
Definition ANT_SPEED : R := 3 / 2.
Definition ANT_ROTATION_SPEED : R := 2 / 10.
Definition ANT_SENSOR_ANGLE : R := PI / 4.
Definition ANT_SENSOR_DISTANCE : R := 10.
Definition WANDER_STRENGTH : R := 3 / 10.

Definition EVAPORATION_RATE : R := 998 / 1000.
Definition DIFFUSION_RATE : R := 1 / 2.
Definition DIFFUSION_INTERVAL : Z := 5.
Definition MAX_PHEROMONE : R := 1000.
Definition PHEROMONE_DEPOSIT_AMOUNT : R := 500.

Definition NEST_GRAVITY_STRENGTH : R := 1 / 10.
Definition MAX_PATIENCE : Z := 300.
Definition PANIC_DURATION : Z := 100.

(** ** Numbers *)

(** Comparisons of floats, as booleans. *)
Definition Rltb (a b : R) : bool := if Rlt_dec a b then true else false.
Definition Rgtb (a b : R) : bool := Rltb b a.

(** Python's [int(x)] on a float: truncation toward zero. *)
Definition int (r : R) : Z :=
  if Rle_dec 0 r then Int_part r else (- Int_part (- r))%Z.

(** Python's [a % b] on floats, for a positive [b]: [a - b * floor (a / b)]. *)
Definition float_mod (a b : R) : R := a - b * IZR (Int_part (a / b)).

(** [math.atan2 y x]: the angle of the point [(x, y)], in (-PI, PI]. *)
Definition atan2 (y x : R) : R :=
  if Rlt_dec 0 x then atan (y / x)
  else if Rlt_dec x 0 then
         (if Rle_dec 0 y then atan (y / x) + PI else atan (y / x) - PI)
  else if Rlt_dec 0 y then PI / 2
  else if Rlt_dec y 0 then - (PI / 2)
  else 0.

(** Two-component numpy arrays. *)
Definition vec : Type := (R * R)%type.
Definition vadd (u v : vec) : vec := (fst u + fst v, snd u + snd v).
Definition vsub (u v : vec) : vec := (fst u - fst v, snd u - snd v).
Definition vscale (k : R) (v : vec) : vec := (k * fst v, k * snd v).
(** [np.linalg.norm] *)
Definition norm (v : vec) : R := sqrt (fst v * fst v + snd v * snd v).
(** [np.array([math.cos(a), math.sin(a)])] *)
Definition direction (a : R) : vec := (cos a, sin a).

(** ** The random source

    [random.random()] returns the next draw of the generator, a float in
    [0, 1); [random.uniform(a, b)] is [a + (b - a) * random.random()]. *)

Definition rng : Type := nat -> R.
Definition Rand (A : Type) : Type := rng -> A * rng.

Definition ret {A} (x : A) : Rand A := fun s => (x, s).
Definition bind {A B} (c : Rand A) (k : A -> Rand B) : Rand B :=
  fun s => let (x, s') := c s in k x s'.

Notation "x <- c ;; k" := (bind c (fun x => k))
  (at level 61, c at next level, right associativity).

Definition random : Rand R := fun s => (s 0%nat, fun n => s (S n)).
Definition uniform (a b : R) : Rand R :=
  u <- random ;; ret (a + (b - a) * u).

(** A generator is well formed when every draw lies in [0, 1). *)
Definition rng_ok (s : rng) : Prop := forall n, 0 <= s n < 1.

(** ** Pheromone grids

    A grid is the numpy array of shape (SCREEN_HEIGHT, SCREEN_WIDTH), indexed
    [grid[y, x]]; its cells are the indices [0 <= y < SCREEN_HEIGHT],
    [0 <= x < SCREEN_WIDTH].  Every access of the program is guarded by that
    test, so no access wraps around or fails. *)

Definition grid : Type := Z -> Z -> R.

Definition in_grid (x y : Z) : bool :=
  ((0 <=? x)%Z && (x <? SCREEN_WIDTH)%Z) && ((0 <=? y)%Z && (y <? SCREEN_HEIGHT)%Z).

(** [grid[y, x] = v] *)
Definition grid_set (g : grid) (y x : Z) (v : R) : grid :=
  fun y' x' => if ((y' =? y)%Z && (x' =? x)%Z)%bool then v else g y' x'.

(** [np.zeros((SCREEN_HEIGHT, SCREEN_WIDTH))] *)
Definition zeros : grid := fun _ _ => 0.

(** The nested helper of [Ant.update] (lines 89-93). *)
Definition get_pheromone_value (pos : vec) (g : grid) : R :=
  let x := int (fst pos) in
  let y := int (snd pos) in
  if in_grid x y then g y x else 0.

(** The deposit of [Ant.interact_with_objects] (lines 182-184 and 193-195):
    [grid[y, x] = min(MAX_PHEROMONE, grid[y, x] + amount)] under the guard. *)
Definition deposit (pos : vec) (g : grid) (amount : R) : grid :=
  let x := int (fst pos) in
  let y := int (snd pos) in
  if in_grid x y then grid_set g y x (Rmin MAX_PHEROMONE (g y x + amount)) else g.

(** ** class Food *)

Module Food.
Record t : Type := mk { pos : vec; amount : Z }.
End Food.

(** The mutable objects every ant receives: both grids and the food list. *)
Record World : Type := mkWorld {
  home_pheromones : grid;
  food_pheromones : grid;
  foods : list Food.t
}.

(** ** class Ant *)

Module Ant.

Inductive task : Type := SEARCHING | CARRYING_FOOD.

Record t : Type := mk {
  pos : vec;
  angle : R;
  speed : R;
  state : task;
  patience : Z;
  panic_timer : Z
}.

Definition set_pos (a : t) (p : vec) : t :=
  mk p (angle a) (speed a) (state a) (patience a) (panic_timer a).
Definition set_angle (a : t) (x : R) : t :=
  mk (pos a) x (speed a) (state a) (patience a) (panic_timer a).
Definition set_state (a : t) (s : task) : t :=
  mk (pos a) (angle a) (speed a) s (patience a) (panic_timer a).
Definition set_patience (a : t) (p : Z) : t :=
  mk (pos a) (angle a) (speed a) (state a) p (panic_timer a).
Definition set_panic_timer (a : t) (p : Z) : t :=
  mk (pos a) (angle a) (speed a) (state a) (patience a) p.

(** [Ant.__init__] *)
Definition init (x y : R) : Rand t :=
  a <- uniform 0 (2 * PI) ;;
  ret (mk (x, y) a ANT_SPEED SEARCHING MAX_PATIENCE 0).

(** *** handle_boundaries *)

Definition inside (p : vec) : bool :=
  (Rltb 20 (fst p) && Rltb (fst p) (IZR SCREEN_WIDTH - 20))
  && (Rltb 20 (snd p) && Rltb (snd p) (IZR SCREEN_HEIGHT - 20)).

(** [np.clip(pos, 20, [SCREEN_WIDTH - 20, SCREEN_HEIGHT - 20])] *)
Definition clip (p : vec) : vec :=
  (Rmin (Rmax (fst p) 20) (IZR SCREEN_WIDTH - 20),
   Rmin (Rmax (snd p) 20) (IZR SCREEN_HEIGHT - 20)).

Definition handle_boundaries (self : t) : Rand t :=
  if negb (inside (pos self)) then
    j <- uniform (- (1 / 2)) (1 / 2) ;;
    ret (set_angle (set_pos self (clip (pos self))) (angle self + (PI + j)))
  else ret self.

(** [self.pos += self.speed * np.array([cos(angle), sin(angle)])] *)
Definition move (self : t) : t :=
  set_pos self (vadd (pos self) (vscale (speed self) (direction (angle self)))).

(** *** Sensing and steering *)

(** [self.pos + ANT_SENSOR_DISTANCE * np.array([cos(a), sin(a)])] *)
Definition sensor_pos (self : t) (a : R) : vec :=
  vadd (pos self) (vscale ANT_SENSOR_DISTANCE (direction a)).

(** [angle + random.uniform(-1, 1) * strength] *)
Definition wander (a strength : R) : Rand R :=
  r <- uniform (-1) 1 ;; ret (a + r * strength).

(** The if/elif chain of lines 111-118. *)
Definition steer_searching (a smell_ahead smell_left smell_right : R) : Rand R :=
  if Rgtb smell_ahead smell_left && Rgtb smell_ahead smell_right then
    wander a WANDER_STRENGTH
  else if Rgtb smell_left smell_right then ret (a - ANT_ROTATION_SPEED)
  else if Rgtb smell_right smell_left then ret (a + ANT_ROTATION_SPEED)
  else wander a WANDER_STRENGTH.

(** [abs(((a - angle_to_colony + pi) % (2 * pi)) - pi)] *)
Definition angle_diff_abs (a angle_to_colony : R) : R :=
  Rabs (float_mod (a - angle_to_colony + PI) (2 * PI) - PI).

(** The if/elif chain of lines 146-154. *)
Definition steer_carrying (a angle_to_colony ca cl cr : R) : Rand R :=
  if Rgtb ca cl && Rgtb ca cr then wander a WANDER_STRENGTH
  else if Rgtb cl cr then ret (a - ANT_ROTATION_SPEED)
  else if Rgtb cr cl then ret (a + ANT_ROTATION_SPEED)
  else
    let angle_diff := float_mod (angle_to_colony - a + PI) (2 * PI) - PI in
    ret (a + angle_diff * ANT_ROTATION_SPEED).

(** Lines 96-154: the decision of the normal branch.  Returns the ant
    after the decision and the flag [on_trail]. *)
Definition decide (self : t) (w : World) (colony_pos : vec) : Rand (t * bool) :=
  let sensor_ahead_pos := sensor_pos self (angle self) in
  match state self with
  | SEARCHING =>
      let smell_ahead := get_pheromone_value sensor_ahead_pos (food_pheromones w) in
      let on_trail := Rgtb smell_ahead 10 in
      let self1 := if on_trail then set_patience self (patience self - 1) else self in
      let sensor_left_pos := sensor_pos self (angle self - ANT_SENSOR_ANGLE) in
      let sensor_right_pos := sensor_pos self (angle self + ANT_SENSOR_ANGLE) in
      let smell_left := get_pheromone_value sensor_left_pos (food_pheromones w) in
      let smell_right := get_pheromone_value sensor_right_pos (food_pheromones w) in
      a' <- steer_searching (angle self) smell_ahead smell_left smell_right ;;
      ret (set_angle self1 a', on_trail)
  | CARRYING_FOOD =>
      let smell_ahead := get_pheromone_value sensor_ahead_pos (home_pheromones w) in
      let on_trail := Rgtb smell_ahead 10 in
      let self1 := if on_trail then set_patience self (patience self - 1) else self in
      let home_smell_left :=
        get_pheromone_value (sensor_pos self (angle self - ANT_SENSOR_ANGLE))
                            (home_pheromones w) in
      let home_smell_right :=
        get_pheromone_value (sensor_pos self (angle self + ANT_SENSOR_ANGLE))
                            (home_pheromones w) in
      let direction_to_colony := vsub colony_pos (pos self) in
      let angle_to_colony := atan2 (snd direction_to_colony) (fst direction_to_colony) in
      let angle_ahead_diff := angle_diff_abs (angle self) angle_to_colony in
      let angle_left_diff := angle_diff_abs (angle self - ANT_SENSOR_ANGLE) angle_to_colony in
      let angle_right_diff := angle_diff_abs (angle self + ANT_SENSOR_ANGLE) angle_to_colony in
      let confidence_ahead :=
        smell_ahead + (PI - angle_ahead_diff) * NEST_GRAVITY_STRENGTH * 100 in
      let confidence_left :=
        home_smell_left + (PI - angle_left_diff) * NEST_GRAVITY_STRENGTH * 100 in
      let confidence_right :=
        home_smell_right + (PI - angle_right_diff) * NEST_GRAVITY_STRENGTH * 100 in
      a' <- steer_carrying (angle self) angle_to_colony
                           confidence_ahead confidence_left confidence_right ;;
      ret (set_angle self1 a', on_trail)
  end.

(** Lines 156-161: patience recovery and the panic trigger. *)
Definition bookkeeping (self : t) (on_trail : bool) : t :=
  let self1 :=
    if negb on_trail then set_patience self (Z.min MAX_PATIENCE (patience self + 2))
    else self in
  if (patience self1 <=? 0)%Z then
    set_patience (set_panic_timer self1 PANIC_DURATION) MAX_PATIENCE
  else self1.

(** *** interact_with_objects *)

(** The [for food in foods] loop of lines 171-178: [Some] of the food list
    after the pickup when a source matches, [None] when the loop ends
    without a match. *)
Fixpoint pick_food (p : vec) (fs : list Food.t) : option (list Food.t) :=
  match fs with
  | [] => None
  | food :: rest =>
      if Rltb (norm (vsub p (Food.pos food))) 10 && (0 <? Food.amount food)%Z then
        Some (Food.mk (Food.pos food) (Food.amount food - 1) :: rest)
      else
        match pick_food p rest with
        | Some rest' => Some (food :: rest')
        | None => None
        end
  end.

Definition interact_with_objects (self : t) (w : World) (colony_pos : vec)
  : t * World :=
  match state self with
  | SEARCHING =>
      match pick_food (pos self) (foods w) with
      | Some foods' =>
          (set_patience
             (set_angle (set_state self CARRYING_FOOD) (angle self + PI))
             MAX_PATIENCE,
           mkWorld (home_pheromones w) (food_pheromones w) foods')
      | None =>
          (self,
           mkWorld (deposit (pos self) (home_pheromones w)
                            (PHEROMONE_DEPOSIT_AMOUNT * (1 / 2)))
                   (food_pheromones w) (foods w))
      end
  | CARRYING_FOOD =>
      if Rltb (norm (vsub (pos self) colony_pos)) 20 then
        (set_patience
           (set_angle (set_state self SEARCHING) (angle self + PI))
           MAX_PATIENCE,
         w)
      else
        (self,
         mkWorld (home_pheromones w)
                 (deposit (pos self) (food_pheromones w) PHEROMONE_DEPOSIT_AMOUNT)
                 (foods w))
  end.

(** *** update *)

(** Lines 79-84: the panic branch. *)
Definition panic_update (self : t) : Rand t :=
  r <- uniform (-1) 1 ;;
  let self1 := set_angle self (angle self + r * WANDER_STRENGTH * 2) in
  let self2 := move self1 in
  let self3 := set_panic_timer self2 (panic_timer self2 - 1) in
  handle_boundaries self3.

(** Lines 86-165: the normal branch up to the interaction. *)
Definition advance (self : t) (w : World) (colony_pos : vec) : Rand t :=
  d <- decide self w colony_pos ;;
  let self1 := bookkeeping (fst d) (snd d) in
  handle_boundaries (move self1).

Definition normal_update (self : t) (w : World) (colony_pos : vec)
  : Rand (t * World) :=
  self1 <- advance self w colony_pos ;;
  ret (interact_with_objects self1 w colony_pos).

Definition update (self : t) (w : World) (colony_pos : vec) : Rand (t * World) :=
  if (0 <? panic_timer self)%Z then
    self1 <- panic_update self ;; ret (self1, w)
  else normal_update self w colony_pos.

End Ant.

(** ** class Simulation *)

(** [grid *= EVAPORATION_RATE] *)
Definition evaporate (g : grid) : grid := fun y x => g y x * EVAPORATION_RATE.

(** Lines 269-270: the evaporation step, on both grids. *)
Definition evaporation (w : World) : World :=
  mkWorld (evaporate (home_pheromones w)) (evaporate (food_pheromones w)) (foods w).

Module Simulation.

Record t : Type := mk {
  world : World;
  colony_pos : vec;
  ants : list Ant.t;
  frame_count : Z
}.

(** [[Ant(colony_pos[0], colony_pos[1]) for _ in range(n)]] *)
Fixpoint make_ants (n : nat) (colony : vec) : Rand (list Ant.t) :=
  match n with
  | O => ret []
  | S n' =>
      a <- Ant.init (fst colony) (snd colony) ;;
      rest <- make_ants n' colony ;;
      ret (a :: rest)
  end.

(** [Simulation.__init__], without the window. *)
Definition init : Rand t :=
  let colony := (IZR SCREEN_WIDTH / 2, IZR SCREEN_HEIGHT / 2) in
  ants0 <- make_ants ANT_COUNT colony ;;
  ret (mk (mkWorld zeros zeros
             [ Food.mk (100, 100) 1000;
               Food.mk (IZR SCREEN_WIDTH - 100, IZR SCREEN_HEIGHT - 100) 1000;
               Food.mk (IZR SCREEN_WIDTH - 200, 150) 1000;
               Food.mk (120, IZR SCREEN_HEIGHT - 80) 1000 ])
          colony ants0 0).

(** The [for ant in self.ants] loop: every ant sees the grids and the
    food as the ants before it left them. *)
Fixpoint update_ants (l : list Ant.t) (w : World) (colony : vec)
  : Rand (list Ant.t * World) :=
  match l with
  | [] => ret ([], w)
  | ant :: rest =>
      r <- Ant.update ant w colony ;;
      rs <- update_ants rest (snd r) colony ;;
      ret (fst r :: fst rs, snd rs)
  end.

(** The handler of a MOUSEBUTTONDOWN event at pixel [(x, y)]. *)
Definition add_food (sim : t) (click : Z * Z) : t :=
  let w := world sim in
  mk (mkWorld (home_pheromones w) (food_pheromones w)
        (foods w ++ [Food.mk (IZR (fst click), IZR (snd click)) 1000]))
     (colony_pos sim) (ants sim) (frame_count sim).

Section Diffusion.

(** [scipy.ndimage.gaussian_filter], a library function. *)
Variable gaussian_filter : grid -> R -> grid.

Definition update (sim : t) : Rand t :=
  r <- update_ants (ants sim) (world sim) (colony_pos sim) ;;
  let w := evaporation (snd r) in
  let home := home_pheromones w in
  let food := food_pheromones w in
  let diffuse := (frame_count sim mod DIFFUSION_INTERVAL =? 0)%Z in
  let home' := if diffuse then gaussian_filter home DIFFUSION_RATE else home in
  let food' := if diffuse then gaussian_filter food DIFFUSION_RATE else food in
  ret (mk (mkWorld home' food' (foods w)) (colony_pos sim) (fst r)
          (frame_count sim + 1)).

(** One iteration of the loop of [start]: the clicks of the frame, then
    [update]. *)
Definition frame (clicks : list (Z * Z)) (sim : t) : Rand t :=
  update (fold_left add_food clicks sim).

End Diffusion.

End Simulation.

(** A filter at hand that averages: the separable five-tap Gaussian kernel
    (radius 2, the radius scipy takes for sigma = 1/2) with reflected
    borders. *)
Module Blur.

Definition reflect (n i : Z) : Z :=
  if (i <? 0)%Z then (- i - 1)%Z
  else if (n <=? i)%Z then (2 * n - 1 - i)%Z
  else i.

Definition weight (sigma : R) (k : Z) : R :=
  exp (- (IZR k * IZR k) / (2 * sigma * sigma)).

Definition total (sigma : R) : R :=
  weight sigma (-2) + weight sigma (-1) + weight sigma 0
  + weight sigma 1 + weight sigma 2.

Definition tap (sigma : R) (row : Z -> R) (n i k : Z) : R :=
  weight sigma k / total sigma * row (reflect n (i + k)%Z).

Definition blur1 (sigma : R) (row : Z -> R) (n i : Z) : R :=
  tap sigma row n i (-2) + tap sigma row n i (-1) + tap sigma row n i 0
  + tap sigma row n i 1 + tap sigma row n i 2.

Definition gaussian_filter (g : grid) (sigma : R) : grid :=
  let rows : grid := fun y x => blur1 sigma (fun y' => g y' x) SCREEN_HEIGHT y in
  fun y x => blur1 sigma (fun x' => rows y x') SCREEN_WIDTH x.

End Blur.

(** ** Drawing *)

Module Render.

(** [Food.draw]: the circle drawn for a source, its centre and radius;
    nothing is drawn for an empty source. *)
Definition food_circle (food : Food.t) : option (vec * R) :=
  if (0 <? Food.amount food)%Z then
    Some (Food.pos food, Rmin (10 + IZR (Food.amount food) / 20) 30)
  else None.

(** [np.clip(v, 0, 255)] stored into a uint8 array: one colour channel of
    one pixel of [draw_pheromones]. *)
Definition channel (v : R) : Z := int (Rmin (Rmax v 0) 255).

End Render.

(** ** The loop of [Simulation.start] *)

Module MainLoop.

Inductive event : Type :=
| QUIT
| MOUSEBUTTONDOWN (pos : Z * Z)
| OTHER.

(** The body of [for event in pygame.event.get()], on the simulation and
    the flag [running]. *)
Definition handle_event (st : Simulation.t * bool) (e : event)
  : Simulation.t * bool :=
  match e with
  | QUIT => (fst st, false)
  | MOUSEBUTTONDOWN pos => (Simulation.add_food (fst st) pos, snd st)
  | OTHER => st
  end.

(** [start], run on the event batches that [pygame.event.get()] returns
    frame after frame: the simulation when the loop ends or the batches run
    out, and the flag [running] at that point. *)
Fixpoint start (gaussian_filter : grid -> R -> grid)
         (batches : list (list event)) (sim : Simulation.t)
  : Rand (Simulation.t * bool) :=
  match batches with
  | [] => ret (sim, true)
  | events :: rest =>
      let st := fold_left handle_event events (sim, true) in
      sim' <- Simulation.update gaussian_filter (fst st) ;;
      if snd st then start gaussian_filter rest sim' else ret (sim', false)
  end.

(** The clicks of a batch, in order. *)
Fixpoint clicks_of (events : list event) : list (Z * Z) :=
  match events with
  | [] => []
  | MOUSEBUTTONDOWN pos :: rest => pos :: clicks_of rest
  | _ :: rest => clicks_of rest
  end.

Definition is_quit (e : event) : bool :=
  match e with QUIT => true | _ => false end.

End MainLoop.

(** * Vocabulary of the properties *)

(** The generator after one draw. *)
Definition tail (s : rng) : rng := fun n => s (S n).

(** The closed play rectangle, 20 off every edge, and its margin. *)
Definition in_play (p : vec) : Prop :=
  20 <= fst p <= IZR SCREEN_WIDTH - 20 /\ 20 <= snd p <= IZR SCREEN_HEIGHT - 20.

Definition on_margin (p : vec) : Prop :=
  fst p = 20 \/ fst p = IZR SCREEN_WIDTH - 20 \/
  snd p = 20 \/ snd p = IZR SCREEN_HEIGHT - 20.

(** The grid an ant smells: food scent while searching, home scent while
    carrying. *)
Definition scent_grid (self : Ant.t) (w : World) : grid :=
  match Ant.state self with
  | Ant.SEARCHING => food_pheromones w
  | Ant.CARRYING_FOOD => home_pheromones w
  end.

Definition smell_ahead (self : Ant.t) (w : World) : R :=
  get_pheromone_value (Ant.sensor_pos self (Ant.angle self)) (scent_grid self w).

(** [smell_ahead > 10] *)
Definition on_trail (self : Ant.t) (w : World) : bool := Rgtb (smell_ahead self w) 10.

(** The patience an ant holds when line 159 tests it. *)
Definition patience_tested (self : Ant.t) (w : World) : Z :=
  if on_trail self w then (Ant.patience self - 1)%Z
  else Z.min MAX_PATIENCE (Ant.patience self + 2).

(** The range of the patience counter. *)
Definition patience_ok (a : Ant.t) : Prop :=
  (0 <= Ant.patience a <= MAX_PATIENCE)%Z.

(** The states of the loop of [start]: the state built by [__init__], and
    the state after one more frame, whatever the clicks and the draws. *)
Inductive reachable (gaussian_filter : grid -> R -> grid) : Simulation.t -> Prop :=
| reach_init : forall s : rng, reachable gaussian_filter (fst (Simulation.init s))
| reach_frame : forall (sim : Simulation.t) (clicks : list (Z * Z)) (s : rng),
    reachable gaussian_filter sim ->
    reachable gaussian_filter (fst (Simulation.frame gaussian_filter clicks sim s)).

(** Between two ticks the patience is in fact positive. *)
Definition patience_pos (a : Ant.t) : Prop :=
  (1 <= Ant.patience a <= MAX_PATIENCE)%Z.

Definition smell_left (self : Ant.t) (w : World) : R :=
  get_pheromone_value (Ant.sensor_pos self (Ant.angle self - ANT_SENSOR_ANGLE))
                      (scent_grid self w).

Definition smell_right (self : Ant.t) (w : World) : R :=
  get_pheromone_value (Ant.sensor_pos self (Ant.angle self + ANT_SENSOR_ANGLE))
                      (scent_grid self w).



(** The points of the grid: the rectangle the cells cover. *)
Definition on_grid (p : vec) : Prop :=
  0 <= fst p < IZR SCREEN_WIDTH /\ 0 <= snd p < IZR SCREEN_HEIGHT.

(** The test of line 172. *)
Definition can_pick (p : vec) (food : Food.t) : bool :=
  Rltb (norm (vsub p (Food.pos food))) 10 && (0 <? Food.amount food)%Z.

(** [food.amount -= 1] *)
Definition take_one (food : Food.t) : Food.t :=
  Food.mk (Food.pos food) (Food.amount food - 1).

Definition amounts_ok (fs : list Food.t) : Prop :=
  Forall (fun food => (0 <= Food.amount food)%Z) fs.

(** Away from the margin by 2 a step of length ANT_SPEED stays inside. *)
Definition interior (p : vec) : Prop :=
  22 <= fst p <= IZR SCREEN_WIDTH - 22 /\ 22 <= snd p <= IZR SCREEN_HEIGHT - 22.

(** Every cell of the grid lies between two bounds. *)
Definition grid_within (lo hi : R) (g : grid) : Prop :=
  forall y x, in_grid x y = true -> lo <= g y x <= hi.

Definition grid_ok (g : grid) : Prop := grid_within 0 MAX_PHEROMONE g.

Definition world_ok (w : World) : Prop :=
  grid_ok (home_pheromones w) /\ grid_ok (food_pheromones w).

(** What is used of the library filter: each cell of the result is a
    weighted average of cells of the argument (non-negative weights that sum
    to 1, borders reflected into the array), so it stays between any two
    bounds of the cells. *)
Definition averaging (filter : grid -> R -> grid) : Prop :=
  forall g sigma lo hi, grid_within lo hi g -> grid_within lo hi (filter g sigma).

(** [suffix s s']: the generator [s'] is [s] after some draws. *)
Definition suffix (s s' : rng) : Prop :=
  exists k : nat, forall n, s' n = s (k + n)%nat.

(** The ant and the world after [n] of the ant's updates.  Between two
    updates of the ant the rest of the frame (the other ants, the clicks,
    evaporation and diffusion) changes the world: [env k] is that change
    after tick [k]; the identity when the ant is alone and nothing else
    runs. *)
Fixpoint run (env : nat -> World -> World) (colony : vec) (n : nat)
         (start : Ant.t * World) : Rand (Ant.t * World) :=
  match n with
  | O => ret start
  | S n' =>
      st <- run env colony n' start ;;
      r <- Ant.update (fst st) (snd st) colony ;;
      ret (fst r, env n' (snd r))
  end.

(** The most one update turns the stored heading. *)
Definition MAX_TURN : R := PI * ANT_ROTATION_SPEED + (PI + 1 / 2) + PI.

(** A lone searching ant on empty grids with no food, every draw 3/4: each
    tick the tie among the three zero samples adds the wander
    (2 * 3/4 - 1) * 0.3 = 0.15 to the heading, and a bounce adds more. *)
Definition lonely (self : Ant.t) (w : World) (s : rng) : Prop :=
  Ant.state self = Ant.SEARCHING /\ Ant.panic_timer self = 0%Z /\
  patience_pos self /\ food_pheromones w = zeros /\ foods w = [] /\
  (forall k, s k = 3 / 4).

(** A searching ant of the play rectangle on a uniform food scent of 50,
    with no food around. *)
Definition scented (a : Ant.t) (w : World) : Prop :=
  in_play (Ant.pos a) /\ Ant.state a = Ant.SEARCHING /\
  food_pheromones w = (fun _ _ => 50) /\ foods w = [].

(** The ant, the world it meets and the generator at the start of tick
    [k] of a run. *)
Definition ant_at (env : nat -> World -> World) (colony : vec)
           (start : Ant.t * World) (s : rng) (k : nat) : Ant.t :=
  fst (fst (run env colony k start s)).

Definition world_at (env : nat -> World -> World) (colony : vec)
           (start : Ant.t * World) (s : rng) (k : nat) : World :=
  snd (fst (run env colony k start s)).

Definition rng_at (env : nat -> World -> World) (colony : vec)
           (start : Ant.t * World) (s : rng) (k : nat) : rng :=
  snd (run env colony k start s).

(** What every ant of the simulation satisfies between two frames. *)
Definition ant_ok (a : Ant.t) : Prop :=
  Ant.speed a = ANT_SPEED /\ in_play (Ant.pos a) /\
  (0 <= Ant.panic_timer a <= PANIC_DURATION)%Z /\
  ((0 < Ant.panic_timer a)%Z -> Ant.patience a = MAX_PATIENCE).

(** The sum of the amounts of the registered sources. *)
Definition total_food (fs : list Food.t) : Z :=
  fold_right (fun food acc => (Food.amount food + acc)%Z) 0%Z fs.

(** An ant that was searching before its update and carries after it. *)
Definition picked_up (before after : Ant.t) : bool :=
  match Ant.state before, Ant.state after with
  | Ant.SEARCHING, Ant.CARRYING_FOOD => true
  | _, _ => false
  end.

(** The number of ants of a frame that picked up food. *)
Fixpoint pickups (before after : list Ant.t) : Z :=
  match before, after with
  | b :: bs, a :: afters => ((if picked_up b a then 1 else 0) + pickups bs afters)%Z
  | _, _ => 0%Z
  end.

(** The wrapped difference of lines 135-153: [(x + pi) % (2 * pi) - pi]. *)
Definition wrap (x : R) : R := float_mod (x + PI) (2 * PI) - PI.

(** Lines 132-133: the bearing from the ant to the colony. *)
Definition angle_to_colony (self : Ant.t) (colony : vec) : R :=
  atan2 (snd (vsub colony (Ant.pos self))) (fst (vsub colony (Ant.pos self))).

(** The home scent at the sensor of heading [a]. *)
Definition home_smell (self : Ant.t) (w : World) (a : R) : R :=
  get_pheromone_value (Ant.sensor_pos self a) (home_pheromones w).

(** Lines 142-144: the confidence of the candidate heading [a]. *)
Definition confidence (self : Ant.t) (w : World) (colony : vec) (a : R) : R :=
  home_smell self w a
  + (PI - Ant.angle_diff_abs a (angle_to_colony self colony))
    * NEST_GRAVITY_STRENGTH * 100.

(** The bounds and the founding positions of the registered sources. *)
Definition sources_ok (fs : list Food.t) : Prop :=
  Forall (fun food => (0 <= Food.amount food <= 1000)%Z) fs /\
  firstn 4 (map Food.pos fs)
  = [ (100, 100);
      (IZR SCREEN_WIDTH - 100, IZR SCREEN_HEIGHT - 100);
      (IZR SCREEN_WIDTH - 200, 150);
      (120, IZR SCREEN_HEIGHT - 80) ].

(** A batch without a QUIT event. *)
Definition no_quit (events : list MainLoop.event) : Prop :=
  existsb MainLoop.is_quit events = false.

(** [draws k s s']: the generator [s'] is [s] after exactly [k] draws. *)
Definition draws (k : nat) (s s' : rng) : Prop := forall n, s' n = s (k + n)%nat.

(** * Properties *)

(** ** Comparisons, truncation and the random source *)

Lemma Rltb_true (a b : R) : Rltb a b = true <-> a < b.
Proof. unfold Rltb; destruct (Rlt_dec a b); split; intros; easy. Qed.

Lemma Rltb_false (a b : R) : Rltb a b = false <-> b <= a.
Proof.
  unfold Rltb; destruct (Rlt_dec a b); split; intros; try easy; lra.
Qed.

Lemma Rgtb_true (a b : R) : Rgtb a b = true <-> a > b.
Proof. unfold Rgtb; rewrite Rltb_true; lra. Qed.

Lemma Rgtb_false (a b : R) : Rgtb a b = false <-> a <= b.
Proof. unfold Rgtb; rewrite Rltb_false; lra. Qed.

Lemma Int_part_bounds (r : R) : IZR (Int_part r) <= r < IZR (Int_part r) + 1.
Proof.
  destruct (base_Int_part r) as [H1 H2]; lra.
Qed.

Lemma int_nonneg (r : R) : 0 <= r -> int r = Int_part r.
Proof. intros H; unfold int; destruct (Rle_dec 0 r); easy. Qed.

Lemma int_neg (r : R) : r < 0 -> int r = (- Int_part (- r))%Z.
Proof. intros H; unfold int; destruct (Rle_dec 0 r); [lra | easy]. Qed.

(** Truncation keeps a float between two integers between them. *)
Lemma int_between (r : R) (lo hi : Z) :
  (0 <= lo)%Z -> IZR lo <= r <= IZR hi -> (lo <= int r <= hi)%Z.
Proof.
  intros Hlo [H1 H2].
  assert (0 <= r) by (apply IZR_le in Hlo; lra).
  rewrite int_nonneg by assumption.
  destruct (Int_part_bounds r) as [B1 B2].
  split.
  - apply Z.lt_succ_r, lt_IZR. rewrite succ_IZR. lra.
  - apply le_IZR. lra.
Qed.

Lemma int_IZR (z : Z) : int (IZR z) = z.
Proof.
  unfold int. destruct (Rle_dec 0 (IZR z)).
  - symmetry; apply Int_part_spec; lra.
  - rewrite <- opp_IZR.
    replace (Int_part (IZR (- z))) with (- z)%Z; [lia|].
    apply Int_part_spec; lra.
Qed.

Lemma bind_eq {A B} (c : Rand A) (k : A -> Rand B) (s : rng) :
  bind c k s = k (fst (c s)) (snd (c s)).
Proof. unfold bind; destruct (c s); reflexivity. Qed.

Lemma uniform_eq (a b : R) (s : rng) :
  uniform a b s = (a + (b - a) * s 0%nat, tail s).
Proof. reflexivity. Qed.

Lemma rng_ok_tail (s : rng) : rng_ok s -> rng_ok (tail s).
Proof. intros H n; apply H. Qed.

Lemma uniform_range (a b : R) (s : rng) :
  rng_ok s -> a <= b -> a <= fst (uniform a b s) <= b.
Proof.
  intros H Hab; rewrite uniform_eq; simpl.
  specialize (H 0%nat); nra.
Qed.

Ltac consts :=
  unfold SCREEN_WIDTH, SCREEN_HEIGHT, ANT_SPEED, ANT_ROTATION_SPEED,
    ANT_SENSOR_DISTANCE, WANDER_STRENGTH, EVAPORATION_RATE, DIFFUSION_RATE,
    MAX_PHEROMONE, PHEROMONE_DEPOSIT_AMOUNT, NEST_GRAVITY_STRENGTH,
    MAX_PATIENCE, PANIC_DURATION in *.

(** ** The play rectangle and the boundary handler *)

Lemma inside_true (p : vec) :
  Ant.inside p = true <->
  (20 < fst p < IZR SCREEN_WIDTH - 20 /\ 20 < snd p < IZR SCREEN_HEIGHT - 20).
Proof.
  unfold Ant.inside. rewrite !andb_true_iff, !Rltb_true. tauto.
Qed.

Lemma clip_in_play (p : vec) : in_play (Ant.clip p).
Proof.
  unfold in_play, Ant.clip; simpl; consts.
  unfold Rmin, Rmax.
  repeat match goal with |- context [Rle_dec ?a ?b] => destruct (Rle_dec a b) end;
    lra.
Qed.

(** What [handle_boundaries] returns, in both cases. *)
Lemma handle_boundaries_eq (self : Ant.t) (s : rng) :
  Ant.handle_boundaries self s =
  if Ant.inside (Ant.pos self) then (self, s)
  else (Ant.set_angle (Ant.set_pos self (Ant.clip (Ant.pos self)))
          (Ant.angle self + (PI + (- (1 / 2) + (1 / 2 - - (1 / 2)) * s 0%nat))),
        tail s).
Proof.
  unfold Ant.handle_boundaries. destruct (Ant.inside (Ant.pos self)); reflexivity.
Qed.

Lemma handle_boundaries_in_play (self : Ant.t) (s : rng) :
  in_play (Ant.pos (fst (Ant.handle_boundaries self s))).
Proof.
  rewrite handle_boundaries_eq.
  destruct (Ant.inside (Ant.pos self)) eqn:E; simpl.
  - apply inside_true in E. unfold in_play. lra.
  - apply clip_in_play.
Qed.

Lemma handle_boundaries_frame (self : Ant.t) (s : rng) :
  let self' := fst (Ant.handle_boundaries self s) in
  Ant.state self' = Ant.state self /\ Ant.patience self' = Ant.patience self /\
  Ant.panic_timer self' = Ant.panic_timer self /\ Ant.speed self' = Ant.speed self.
Proof.
  simpl. rewrite handle_boundaries_eq.
  destruct (Ant.inside (Ant.pos self)); simpl; auto.
Qed.

Lemma interact_frame (self : Ant.t) (w : World) (colony : vec) :
  let self' := fst (Ant.interact_with_objects self w colony) in
  Ant.pos self' = Ant.pos self /\ Ant.panic_timer self' = Ant.panic_timer self /\
  Ant.speed self' = Ant.speed self /\
  (Ant.patience self' = Ant.patience self \/ Ant.patience self' = MAX_PATIENCE).
Proof.
  simpl. unfold Ant.interact_with_objects.
  destruct (Ant.state self).
  - destruct (Ant.pick_food (Ant.pos self) (foods w)); simpl; auto.
  - destruct (Rltb _ 20); simpl; auto.
Qed.

(** The two branches of [update], unfolded. *)
Lemma update_panic (self : Ant.t) (w : World) (colony : vec) (s : rng) :
  (0 < Ant.panic_timer self)%Z ->
  Ant.update self w colony s =
  (fst (Ant.panic_update self s), w, snd (Ant.panic_update self s)).
Proof.
  intros H. unfold Ant.update.
  apply Z.ltb_lt in H. rewrite H. rewrite bind_eq. reflexivity.
Qed.

Lemma update_normal (self : Ant.t) (w : World) (colony : vec) (s : rng) :
  (Ant.panic_timer self <= 0)%Z ->
  Ant.update self w colony s =
  (Ant.interact_with_objects (fst (Ant.advance self w colony s)) w colony,
   snd (Ant.advance self w colony s)).
Proof.
  intros H. unfold Ant.update.
  apply Z.ltb_ge in H. rewrite H. unfold Ant.normal_update.
  rewrite bind_eq. reflexivity.
Qed.

Lemma panic_update_eq (self : Ant.t) (s : rng) :
  Ant.panic_update self s =
  Ant.handle_boundaries
    (Ant.set_panic_timer
       (Ant.move (Ant.set_angle self
          (Ant.angle self + (-1 + (1 - -1) * s 0%nat) * WANDER_STRENGTH * 2)))
       (Ant.panic_timer self - 1))
    (tail s).
Proof. reflexivity. Qed.

Lemma advance_eq (self : Ant.t) (w : World) (colony : vec) (s : rng) :
  Ant.advance self w colony s =
  Ant.handle_boundaries
    (Ant.move (Ant.bookkeeping (fst (fst (Ant.decide self w colony s)))
                               (snd (fst (Ant.decide self w colony s)))))
    (snd (Ant.decide self w colony s)).
Proof. unfold Ant.advance. rewrite bind_eq. reflexivity. Qed.

Lemma update_in_play (self : Ant.t) (w : World) (colony : vec) (s : rng) :
  in_play (Ant.pos (fst (fst (Ant.update self w colony s)))).
Proof.
  destruct (Z_lt_le_dec 0 (Ant.panic_timer self)) as [Hp | Hp].
  - rewrite update_panic by assumption. simpl.
    rewrite panic_update_eq. apply handle_boundaries_in_play.
  - rewrite update_normal by assumption. simpl.
    destruct (interact_frame (fst (Ant.advance self w colony s)) w colony)
      as [E _]. rewrite E.
    rewrite advance_eq. apply handle_boundaries_in_play.
Qed.



(** ** Evaporation *)

Lemma evaporation_iter_foods (w : World) (t : nat) :
  foods (Nat.iter t evaporation w) = foods w.
Proof. induction t; simpl; auto. Qed.

(** C9: With no deposit in between, [t] consecutive evaporation steps multiply
    the original value of every cell of the home grid and of the food grid
    by EVAPORATION_RATE ^ t (exactly, over the reals). *)
Theorem evaporation_iter (w : World) (t : nat) (y x : Z) :
  home_pheromones (Nat.iter t evaporation w) y x
  = home_pheromones w y x * EVAPORATION_RATE ^ t
  /\
  food_pheromones (Nat.iter t evaporation w) y x
  = food_pheromones w y x * EVAPORATION_RATE ^ t.
Proof.
  induction t as [| t [IHh IHf]]; simpl.
  - split; ring.
  - unfold evaporate. rewrite IHh, IHf. split; ring.
Qed.

(** ** Patience and panic *)

Lemma decide_frame (self : Ant.t) (w : World) (colony : vec) (s : rng) :
  let d := fst (Ant.decide self w colony s) in
  snd d = on_trail self w /\
  Ant.patience (fst d) =
    (if on_trail self w then Ant.patience self - 1 else Ant.patience self)%Z /\
  Ant.pos (fst d) = Ant.pos self /\ Ant.state (fst d) = Ant.state self /\
  Ant.panic_timer (fst d) = Ant.panic_timer self /\
  Ant.speed (fst d) = Ant.speed self.
Proof.
  simpl. unfold Ant.decide, on_trail, smell_ahead, scent_grid.
  destruct (Ant.state self) eqn:E; rewrite bind_eq; simpl;
    match goal with |- context [Rgtb ?a 10] => destruct (Rgtb a 10) end;
    simpl; auto 10.
Qed.

Lemma bookkeeping_frame (self : Ant.t) (b : bool) :
  let self' := Ant.bookkeeping self b in
  Ant.pos self' = Ant.pos self /\ Ant.angle self' = Ant.angle self /\
  Ant.state self' = Ant.state self /\ Ant.speed self' = Ant.speed self.
Proof.
  simpl. unfold Ant.bookkeeping.
  destruct b; simpl; destruct (_ <=? 0)%Z; simpl; auto.
Qed.

Lemma bookkeeping_decide (self : Ant.t) (w : World) (colony : vec) (s : rng) :
  let d := fst (Ant.decide self w colony s) in
  let self' := Ant.bookkeeping (fst d) (snd d) in
  (if (patience_tested self w <=? 0)%Z
   then Ant.patience self' = MAX_PATIENCE /\ Ant.panic_timer self' = PANIC_DURATION
   else Ant.patience self' = patience_tested self w /\
        Ant.panic_timer self' = Ant.panic_timer self).
Proof.
  simpl.
  destruct (decide_frame self w colony s) as (E1 & E2 & _ & _ & E5 & _).
  unfold Ant.bookkeeping, patience_tested. rewrite E1.
  destruct (on_trail self w); simpl; rewrite E2;
    match goal with |- context [(?a <=? 0)%Z] => destruct (a <=? 0)%Z end;
    simpl; auto.
Qed.

(** Patience and panic timer after one update, by branch. *)
Lemma update_patience (self : Ant.t) (w : World) (colony : vec) (s : rng) :
  let self' := fst (fst (Ant.update self w colony s)) in
  if (0 <? Ant.panic_timer self)%Z then
    Ant.patience self' = Ant.patience self /\
    Ant.panic_timer self' = (Ant.panic_timer self - 1)%Z
  else if (patience_tested self w <=? 0)%Z then
    Ant.patience self' = MAX_PATIENCE /\ Ant.panic_timer self' = PANIC_DURATION
  else
    (Ant.patience self' = patience_tested self w \/ Ant.patience self' = MAX_PATIENCE) /\
    Ant.panic_timer self' = Ant.panic_timer self.
Proof.
  simpl. destruct (0 <? Ant.panic_timer self)%Z eqn:Hp.
  - apply Z.ltb_lt in Hp. rewrite update_panic by assumption. simpl.
    rewrite panic_update_eq.
    destruct (handle_boundaries_frame
                (Ant.set_panic_timer
                   (Ant.move (Ant.set_angle self
                      (Ant.angle self + (-1 + (1 - -1) * s 0%nat) * WANDER_STRENGTH * 2)))
                   (Ant.panic_timer self - 1)) (tail s)) as (_ & E2 & E3 & _).
    rewrite E2, E3. simpl. auto.
  - apply Z.ltb_ge in Hp. rewrite update_normal by assumption. simpl.
    destruct (interact_frame (fst (Ant.advance self w colony s)) w colony)
      as (_ & I2 & _ & I4).
    rewrite I2. rewrite advance_eq in *.
    set (b := Ant.bookkeeping _ _) in *.
    destruct (handle_boundaries_frame (Ant.move b) (snd (Ant.decide self w colony s)))
      as (_ & E2 & E3 & _).
    rewrite E3. rewrite E2 in I4. simpl in *.
    pose proof (bookkeeping_decide self w colony s) as B. simpl in B. fold b in B.
    destruct (patience_tested self w <=? 0)%Z; destruct B as [B1 B2];
      rewrite B1 in I4; rewrite B2.
    + split; [destruct I4; assumption | reflexivity].
    + split; [assumption | reflexivity].
Qed.

Lemma update_patience_ok (self : Ant.t) (w : World) (colony : vec) (s : rng) :
  patience_ok self -> patience_ok (fst (fst (Ant.update self w colony s))).
Proof.
  unfold patience_ok. intros H.
  pose proof (update_patience self w colony s) as U. simpl in U.
  unfold patience_tested in U. consts.
  destruct (0 <? Ant.panic_timer self)%Z.
  - destruct U as [U _]. rewrite U. assumption.
  - destruct (on_trail self w).
    + destruct (Ant.patience self - 1 <=? 0)%Z eqn:E.
      * destruct U as [U _]. rewrite U. lia.
      * apply Z.leb_gt in E. destruct U as [[U | U] _]; rewrite U; lia.
    + destruct (Z.min 300 (Ant.patience self + 2) <=? 0)%Z eqn:E.
      * destruct U as [U _]. rewrite U. lia.
      * destruct U as [[U | U] _]; rewrite U; lia.
Qed.

(** ** Simulation states that can occur *)

Lemma make_ants_Forall (P : Ant.t -> Prop) (colony : vec) :
  (forall s, P (fst (Ant.init (fst colony) (snd colony) s))) ->
  forall n s, Forall P (fst (Simulation.make_ants n colony s)).
Proof.
  intros H n. induction n as [| n IH]; intros s; simpl.
  - constructor.
  - rewrite !bind_eq. simpl. constructor; [apply H | apply IH].
Qed.

Lemma update_ants_Forall (P : Ant.t -> Prop) :
  (forall a w c s, P a -> P (fst (fst (Ant.update a w c s)))) ->
  forall l w c s, Forall P l -> Forall P (fst (fst (Simulation.update_ants l w c s))).
Proof.
  intros H l. induction l as [| a l IH]; intros w c s HF; simpl.
  - constructor.
  - inversion HF; subst. rewrite !bind_eq. simpl.
    constructor; [apply H; assumption | apply IH; assumption].
Qed.

Lemma update_ants_world (Q : World -> Prop) :
  (forall a w c s, Q w -> Q (snd (fst (Ant.update a w c s)))) ->
  forall l w c s, Q w -> Q (snd (fst (Simulation.update_ants l w c s))).
Proof.
  intros H l. induction l as [| a l IH]; intros w c s HQ; simpl.
  - assumption.
  - rewrite !bind_eq. simpl. apply IH, H, HQ.
Qed.

Lemma fold_add_food_ants (clicks : list (Z * Z)) (sim : Simulation.t) :
  Simulation.ants (fold_left Simulation.add_food clicks sim) = Simulation.ants sim.
Proof.
  revert sim. induction clicks as [| c l IH]; intros sim; simpl; [reflexivity|].
  rewrite IH. reflexivity.
Qed.

(** An invariant of single ants holds of every ant of every reachable
    state. *)
Lemma reachable_ants (gf : grid -> R -> grid) (P : Ant.t -> Prop) :
  (forall x y s, P (fst (Ant.init x y s))) ->
  (forall a w c s, P a -> P (fst (fst (Ant.update a w c s)))) ->
  forall sim, reachable gf sim -> Forall P (Simulation.ants sim).
Proof.
  intros Hi Hu sim Hr. induction Hr as [s | sim clicks s Hr IH].
  - unfold Simulation.init. rewrite bind_eq. unfold ret.
    cbn [fst snd Simulation.ants].
    apply make_ants_Forall. intros s'. apply Hi.
  - unfold Simulation.frame, Simulation.update. rewrite bind_eq. simpl.
    apply update_ants_Forall; [exact Hu|].
    rewrite fold_add_food_ants. exact IH.
Qed.

Lemma update_patience_pos (self : Ant.t) (w : World) (colony : vec) (s : rng) :
  patience_pos self -> patience_pos (fst (fst (Ant.update self w colony s))).
Proof.
  unfold patience_pos. intros H.
  pose proof (update_patience self w colony s) as U. simpl in U.
  unfold patience_tested in U. consts.
  destruct (0 <? Ant.panic_timer self)%Z.
  - destruct U as [U _]. rewrite U. assumption.
  - destruct (on_trail self w).
    + destruct (Ant.patience self - 1 <=? 0)%Z eqn:E.
      * destruct U as [U _]. rewrite U. lia.
      * apply Z.leb_gt in E. destruct U as [[U | U] _]; rewrite U; lia.
    + destruct (Z.min 300 (Ant.patience self + 2) <=? 0)%Z eqn:E.
      * destruct U as [U _]. rewrite U. lia.
      * destruct U as [[U | U] _]; rewrite U; lia.
Qed.

(** C2: The patience of every ant of every reachable simulation state is within
    [0, MAX_PATIENCE], also where line 159 tests it in the middle of a tick;
    one update keeps any patience of that range in the range; and in the tick
    in which the tested patience is <= 0 the update leaves the patience at
    MAX_PATIENCE and the panic timer at exactly PANIC_DURATION. *)
Theorem patience_within_bounds :
  (forall (gf : grid -> R -> grid) (sim : Simulation.t),
      reachable gf sim ->
      Forall (fun a => patience_ok a /\
                       forall w, (0 <= patience_tested a w <= MAX_PATIENCE)%Z)
             (Simulation.ants sim))
  /\
  (forall (self : Ant.t) (w : World) (colony : vec) (s : rng),
      patience_ok self -> patience_ok (fst (fst (Ant.update self w colony s))))
  /\
  (forall (self : Ant.t) (w : World) (colony : vec) (s : rng),
      (Ant.panic_timer self <= 0)%Z ->
      (patience_tested self w <= 0)%Z ->
      Ant.patience (fst (fst (Ant.update self w colony s))) = MAX_PATIENCE /\
      Ant.panic_timer (fst (fst (Ant.update self w colony s))) = PANIC_DURATION).
Proof.
  split; [| split].
  - intros gf sim Hr.
    assert (F : Forall patience_pos (Simulation.ants sim)).
    { apply (reachable_ants gf); [| apply update_patience_pos | exact Hr].
      intros x y s. unfold patience_pos. simpl. consts. lia. }
    eapply Forall_impl; [| exact F].
    unfold patience_pos, patience_ok, patience_tested. consts.
    intros a Ha. split; [lia|]. intros w.
    destruct (on_trail a w); lia.
  - exact update_patience_ok.
  - intros self w colony s Hp Ht.
    pose proof (update_patience self w colony s) as U. simpl in U.
    apply Z.ltb_ge in Hp. apply Z.leb_le in Ht. rewrite Hp, Ht in U. exact U.
Qed.

(** ** Sampling a uniform scent *)

Lemma int_lt (r : R) (n : Z) : 0 <= r < IZR n -> (0 <= int r < n)%Z.
Proof.
  intros [H1 H2]. rewrite int_nonneg by assumption.
  destruct (Int_part_bounds r) as [B1 B2].
  split.
  - apply Z.lt_succ_r, lt_IZR. rewrite succ_IZR. lra.
  - apply lt_IZR. lra.
Qed.

Lemma in_grid_true (x y : Z) :
  in_grid x y = true <-> ((0 <= x < SCREEN_WIDTH)%Z /\ (0 <= y < SCREEN_HEIGHT)%Z).
Proof.
  unfold in_grid. rewrite !andb_true_iff, !Z.leb_le, !Z.ltb_lt. tauto.
Qed.

Lemma sample_const (p : vec) (c : R) :
  0 <= fst p < IZR SCREEN_WIDTH -> 0 <= snd p < IZR SCREEN_HEIGHT ->
  get_pheromone_value p (fun _ _ => c) = c.
Proof.
  intros Hx Hy. unfold get_pheromone_value.
  apply int_lt in Hx. apply int_lt in Hy.
  replace (in_grid (int (fst p)) (int (snd p))) with true; [reflexivity|].
  symmetry. apply in_grid_true. split; assumption.
Qed.

(** The sensors of an ant of the play rectangle stay on the grid. *)
Lemma sensor_on_grid (self : Ant.t) (a : R) :
  in_play (Ant.pos self) ->
  0 <= fst (Ant.sensor_pos self a) < IZR SCREEN_WIDTH /\
  0 <= snd (Ant.sensor_pos self a) < IZR SCREEN_HEIGHT.
Proof.
  unfold in_play, Ant.sensor_pos, vadd, vscale, direction. simpl. consts.
  intros [Hx Hy].
  pose proof (COS_bound a). pose proof (SIN_bound a).
  split; lra.
Qed.

Lemma on_trail_const (self : Ant.t) (w : World) (c : R) :
  in_play (Ant.pos self) -> scent_grid self w = (fun _ _ => c) -> c > 10 ->
  on_trail self w = true.
Proof.
  intros Hp Hg Hc. unfold on_trail, smell_ahead. rewrite Hg.
  destruct (sensor_on_grid self (Ant.angle self) Hp) as [Hx Hy].
  rewrite sample_const by assumption.
  apply Rgtb_true. assumption.
Qed.

Lemma in_play_example : in_play (100, 100).
Proof. unfold in_play; simpl; consts; lra. Qed.

(** An ant with one unit of patience left on a trail of scent 50. *)
Lemma patience_within_bounds_witness :
  let self := Ant.mk (100, 100) 0 ANT_SPEED Ant.SEARCHING 1 0 in
  let w := mkWorld zeros (fun _ _ => 50) [] in
  let s : rng := fun _ => 1 / 2 in
  Ant.patience (fst (fst (Ant.update self w (640, 360) s))) = MAX_PATIENCE /\
  Ant.panic_timer (fst (fst (Ant.update self w (640, 360) s))) = PANIC_DURATION.
Proof.
  intros self w s.
  apply (proj2 (proj2 patience_within_bounds) self w (640, 360) s).
  - simpl. lia.
  - unfold patience_tested.
    rewrite (on_trail_const self w 50); [simpl; lia | apply in_play_example
                                        | reflexivity | lra].
Defined.

(** ** Steering while searching *)

Lemma wander_eq (a k : R) (s : rng) :
  Ant.wander a k s = (a + fst (uniform (-1) 1 s) * k, tail s).
Proof. reflexivity. Qed.

Lemma decide_searching_angle (self : Ant.t) (w : World) (colony : vec) (s : rng) :
  Ant.state self = Ant.SEARCHING ->
  Ant.angle (fst (fst (Ant.decide self w colony s))) =
    fst (Ant.steer_searching (Ant.angle self) (smell_ahead self w)
           (smell_left self w) (smell_right self w) s) /\
  snd (Ant.decide self w colony s) =
    snd (Ant.steer_searching (Ant.angle self) (smell_ahead self w)
           (smell_left self w) (smell_right self w) s).
Proof.
  intros E. unfold Ant.decide, smell_ahead, smell_left, smell_right, scent_grid.
  rewrite E. rewrite bind_eq. simpl. split; reflexivity.
Qed.

Lemma steer_searching_cases (a ahead left right : R) (s : rng) :
  (ahead > left -> ahead > right ->
   Ant.steer_searching a ahead left right s = Ant.wander a WANDER_STRENGTH s) /\
  (left > ahead -> left > right ->
   Ant.steer_searching a ahead left right s = (a - ANT_ROTATION_SPEED, s)) /\
  (right > ahead -> right > left ->
   Ant.steer_searching a ahead left right s = (a + ANT_ROTATION_SPEED, s)) /\
  (ahead = left -> left = right ->
   Ant.steer_searching a ahead left right s = Ant.wander a WANDER_STRENGTH s).
Proof.
  unfold Ant.steer_searching.
  repeat split; intros H1 H2.
  - apply Rgtb_true in H1, H2. rewrite H1, H2. reflexivity.
  - assert (E1 : Rgtb ahead left = false) by (apply Rgtb_false; lra).
    apply Rgtb_true in H2. rewrite E1, H2. reflexivity.
  - assert (E1 : Rgtb ahead right = false) by (apply Rgtb_false; lra).
    assert (E2 : Rgtb left right = false) by (apply Rgtb_false; lra).
    apply Rgtb_true in H2. rewrite E1, andb_false_r, E2, H2. reflexivity.
  - assert (E1 : Rgtb ahead left = false) by (apply Rgtb_false; lra).
    assert (E2 : Rgtb left right = false) by (apply Rgtb_false; lra).
    assert (E3 : Rgtb right left = false) by (apply Rgtb_false; lra).
    rewrite E1, E2, E3. simpl. reflexivity.
Qed.

Lemma PI_gt_2 : 2 < PI.
Proof. pose proof PI2_1. lra. Qed.

(** C6: A searching ant in the normal branch, with its ahead, left and right
    samples of the food scent: when ahead is strictly the largest the heading
    gets a random wander [uniform(-1, 1) * WANDER_STRENGTH]; when left is
    strictly the largest the heading turns by the rotation step toward the
    left sensor; when right is strictly the largest it turns by the step
    toward the right sensor; when the three samples are equal (all zero
    included) it gets the same random wander as when ahead wins.  The wander
    is small: at most WANDER_STRENGTH either way, for a well-formed
    generator. *)
Theorem searching_decision (self : Ant.t) (w : World) (colony : vec) (s : rng) :
  Ant.state self = Ant.SEARCHING ->
  let ahead := smell_ahead self w in
  let left := smell_left self w in
  let right := smell_right self w in
  let d := Ant.decide self w colony s in
  let wandered := Ant.angle self + fst (uniform (-1) 1 s) * WANDER_STRENGTH in
  (ahead > left -> ahead > right ->
   Ant.angle (fst (fst d)) = wandered /\ snd d = tail s) /\
  (left > ahead -> left > right ->
   Ant.angle (fst (fst d)) = Ant.angle self - ANT_ROTATION_SPEED /\ snd d = s /\
   Ant.angle self - ANT_SENSOR_ANGLE < Ant.angle (fst (fst d)) < Ant.angle self) /\
  (right > ahead -> right > left ->
   Ant.angle (fst (fst d)) = Ant.angle self + ANT_ROTATION_SPEED /\ snd d = s /\
   Ant.angle self < Ant.angle (fst (fst d)) < Ant.angle self + ANT_SENSOR_ANGLE) /\
  (ahead = left -> left = right ->
   Ant.angle (fst (fst d)) = wandered /\ snd d = tail s) /\
  (rng_ok s -> Rabs (wandered - Ant.angle self) <= WANDER_STRENGTH).
Proof.
  intros E ahead left right d wandered.
  destruct (decide_searching_angle self w colony s E) as [Ea Es].
  fold ahead left right d in Ea, Es.
  destruct (steer_searching_cases (Ant.angle self) ahead left right s)
    as (C1 & C2 & C3 & C4).
  pose proof PI_gt_2 as HPI.
  repeat split; try intros H1 H2.
  - rewrite Ea, C1 by assumption. reflexivity.
  - rewrite Es, C1 by assumption. reflexivity.
  - rewrite Ea, C2 by assumption. reflexivity.
  - rewrite Es, C2 by assumption. reflexivity.
  - rewrite Ea, C2 by assumption. simpl.
    unfold ANT_SENSOR_ANGLE, ANT_ROTATION_SPEED. lra.
  - rewrite Ea, C2 by assumption. simpl.
    unfold ANT_ROTATION_SPEED. lra.
  - rewrite Ea, C3 by assumption. reflexivity.
  - rewrite Es, C3 by assumption. reflexivity.
  - rewrite Ea, C3 by assumption. simpl.
    unfold ANT_ROTATION_SPEED. lra.
  - rewrite Ea, C3 by assumption. simpl.
    unfold ANT_SENSOR_ANGLE, ANT_ROTATION_SPEED. lra.
  - rewrite Ea, C4 by assumption. reflexivity.
  - rewrite Es, C4 by assumption. reflexivity.
  - intros Hs. subst wandered.
    pose proof (uniform_range (-1) 1 s Hs ltac:(lra)) as U.
    unfold WANDER_STRENGTH. apply Rabs_le. lra.
Qed.

Lemma sample_zeros (p : vec) : get_pheromone_value p zeros = 0.
Proof.
  unfold get_pheromone_value, zeros. destruct (in_grid _ _); reflexivity.
Qed.

(** On an empty food grid the three samples tie at zero and the ant
    wanders. *)
Lemma searching_decision_witness :
  let self := Ant.mk (100, 100) 0 ANT_SPEED Ant.SEARCHING MAX_PATIENCE 0 in
  let w := mkWorld zeros zeros [] in
  let s : rng := fun _ => 3 / 4 in
  let d := Ant.decide self w (640, 360) s in
  Ant.angle (fst (fst d)) = 0 + fst (uniform (-1) 1 s) * WANDER_STRENGTH /\
  snd d = tail s.
Proof.
  intros self w s d.
  destruct (searching_decision self w (640, 360) s eq_refl) as (_ & _ & _ & T & _).
  apply T.
  - unfold smell_ahead, smell_left. simpl. rewrite !sample_zeros. reflexivity.
  - unfold smell_left, smell_right. simpl. rewrite !sample_zeros. reflexivity.
Defined.

(** ** Sampling and depositing by point *)

Lemma Int_part_lt (r : R) (n : Z) : (Int_part r < n)%Z <-> r < IZR n.
Proof.
  destruct (Int_part_bounds r) as [B1 B2]. split; intros H.
  - apply Z.le_succ_l, IZR_le in H. rewrite succ_IZR in H. lra.
  - apply lt_IZR. lra.
Qed.

Lemma Int_part_ge (r : R) (n : Z) : (n <= Int_part r)%Z <-> IZR n <= r.
Proof.
  destruct (Int_part_bounds r) as [B1 B2]. split; intros H.
  - apply IZR_le in H. lra.
  - apply Z.lt_succ_r, lt_IZR. rewrite succ_IZR. lra.
Qed.

Lemma in_grid_floor (p : vec) :
  in_grid (Int_part (fst p)) (Int_part (snd p)) = true <-> on_grid p.
Proof.
  rewrite in_grid_true. unfold on_grid.
  rewrite !Int_part_lt, !Int_part_ge. tauto.
Qed.




Lemma int_minus_half : int (- (1 / 2)) = 0%Z.
Proof.
  rewrite int_neg by lra.
  replace (Int_part (- - (1 / 2))) with 0%Z; [reflexivity|].
  apply Int_part_spec. lra.
Qed.





(** A searching ant built at (9.5, 100) and heading PI has its ahead sensor
    at (-0.5, 100), outside the grid, and smells cell [100, 0] there. *)
Lemma sensor_outside_grid_reads_cell (w : World) :
  let self := Ant.mk (19 / 2, 100) PI ANT_SPEED Ant.SEARCHING MAX_PATIENCE 0 in
  Ant.sensor_pos self (Ant.angle self) = (- (1 / 2), 100) /\
  smell_ahead self w = food_pheromones w 100%Z 0%Z.
Proof.
  intros self.
  assert (E : Ant.sensor_pos self (Ant.angle self) = (- (1 / 2), 100)).
  { unfold Ant.sensor_pos, vadd, vscale, direction, self. simpl.
    rewrite cos_PI, sin_PI. unfold ANT_SENSOR_DISTANCE. f_equal; lra. }
  split; [exact E|].
  unfold smell_ahead. rewrite E. unfold get_pheromone_value, scent_grid. simpl.
  rewrite int_minus_half, (int_IZR 100). reflexivity.
Qed.

(** ** Food pickup *)

(** The loop picks from the first source that passes the test, and from
    that one only. *)
Lemma pick_food_first (p : vec) (pre : list Food.t) (f : Food.t) (post : list Food.t) :
  Forall (fun g => can_pick p g = false) pre -> can_pick p f = true ->
  Ant.pick_food p (pre ++ f :: post) = Some (pre ++ take_one f :: post).
Proof.
  intros Hpre Hf. induction Hpre as [| g pre Hg Hpre IH]; simpl.
  - unfold can_pick in Hf. rewrite Hf. reflexivity.
  - unfold can_pick in Hg. rewrite Hg, IH. reflexivity.
Qed.

Lemma pick_food_none (p : vec) (fs : list Food.t) :
  Ant.pick_food p fs = None <-> Forall (fun g => can_pick p g = false) fs.
Proof.
  induction fs as [| g fs IH]; simpl.
  - split; [constructor | reflexivity].
  - fold (can_pick p g). destruct (can_pick p g) eqn:E.
    + split; [discriminate|]. intros H. inversion H; subst. congruence.
    + destruct (Ant.pick_food p fs).
      * split; [discriminate|]. intros H. inversion H; subst.
        apply IH in H3. discriminate.
      * split; [| reflexivity]. intros _. constructor; [exact E | apply IH; reflexivity].
Qed.

Lemma pick_food_amounts (p : vec) (fs fs' : list Food.t) :
  Ant.pick_food p fs = Some fs' -> amounts_ok fs -> amounts_ok fs'.
Proof.
  revert fs'. induction fs as [| g fs IH]; intros fs' H Hok; simpl in H.
  - discriminate.
  - inversion Hok; subst.
    destruct (Rltb _ 10 && (0 <? Food.amount g)%Z) eqn:E.
    + inversion H; subst. constructor; [| assumption].
      apply andb_true_iff in E. destruct E as [_ E]. apply Z.ltb_lt in E.
      simpl. lia.
    + destruct (Ant.pick_food p fs) as [rest |]; [| discriminate].
      inversion H; subst. constructor; [assumption|]. apply IH; auto.
Qed.

(** The interaction never drives an amount below zero. *)
Lemma interact_amounts (self : Ant.t) (w : World) (colony : vec) :
  amounts_ok (foods w) ->
  amounts_ok (foods (snd (Ant.interact_with_objects self w colony))).
Proof.
  intros H. unfold Ant.interact_with_objects.
  destruct (Ant.state self).
  - destruct (Ant.pick_food (Ant.pos self) (foods w)) eqn:E; simpl; [| assumption].
    eapply pick_food_amounts; eassumption.
  - destruct (Rltb _ 20); simpl; assumption.
Qed.

Lemma update_amounts (self : Ant.t) (w : World) (colony : vec) (s : rng) :
  amounts_ok (foods w) -> amounts_ok (foods (snd (fst (Ant.update self w colony s)))).
Proof.
  intros H. destruct (Z_lt_le_dec 0 (Ant.panic_timer self)) as [Hp | Hp].
  - rewrite update_panic by assumption. exact H.
  - rewrite update_normal by assumption. simpl. apply interact_amounts, H.
Qed.

Lemma advance_frame (self : Ant.t) (w : World) (colony : vec) (s : rng) :
  Ant.state (fst (Ant.advance self w colony s)) = Ant.state self /\
  Ant.speed (fst (Ant.advance self w colony s)) = Ant.speed self.
Proof.
  rewrite advance_eq.
  set (d := Ant.decide self w colony s).
  destruct (handle_boundaries_frame (Ant.move (Ant.bookkeeping (fst (fst d)) (snd (fst d))))
              (snd d)) as (E1 & _ & _ & E4).
  rewrite E1, E4. simpl.
  destruct (bookkeeping_frame (fst (fst d)) (snd (fst d))) as (_ & _ & B3 & B4).
  rewrite B3, B4.
  destruct (decide_frame self w colony s) as (_ & _ & _ & D4 & _ & D6).
  split; assumption.
Qed.

(** What the interaction does on a pickup. *)
Lemma interact_pickup (self : Ant.t) (w : World) (colony : vec)
      (pre : list Food.t) (f : Food.t) (post : list Food.t) :
  Ant.state self = Ant.SEARCHING ->
  foods w = pre ++ f :: post ->
  Forall (fun g => can_pick (Ant.pos self) g = false) pre ->
  can_pick (Ant.pos self) f = true ->
  Ant.interact_with_objects self w colony =
  (Ant.mk (Ant.pos self) (Ant.angle self + PI) (Ant.speed self) Ant.CARRYING_FOOD
          MAX_PATIENCE (Ant.panic_timer self),
   mkWorld (home_pheromones w) (food_pheromones w) (pre ++ take_one f :: post)).
Proof.
  intros Es Ef Hpre Hf. unfold Ant.interact_with_objects.
  rewrite Es, Ef, (pick_food_first _ _ _ _ Hpre Hf). reflexivity.
Qed.

(** An invariant of the world holds of the world of every reachable state
    when the ants, the clicks and the forgetting step keep it. *)
Lemma reachable_world (gf : grid -> R -> grid) (Q : World -> Prop) :
  (forall fs, amounts_ok fs -> Q (mkWorld zeros zeros fs)) ->
  (forall a w c s, Q w -> Q (snd (fst (Ant.update a w c s)))) ->
  (forall w x y, Q w ->
     Q (mkWorld (home_pheromones w) (food_pheromones w)
                (foods w ++ [Food.mk (x, y) 1000]))) ->
  (forall w (b : bool), Q w ->
     Q (mkWorld
          (if b then gf (home_pheromones (evaporation w)) DIFFUSION_RATE
           else home_pheromones (evaporation w))
          (if b then gf (food_pheromones (evaporation w)) DIFFUSION_RATE
           else food_pheromones (evaporation w))
          (foods (evaporation w)))) ->
  forall sim, reachable gf sim -> Q (Simulation.world sim).
Proof.
  intros Hi Hu Hc He sim Hr. induction Hr as [s | sim clicks s Hr IH].
  - unfold Simulation.init. rewrite bind_eq. unfold ret.
    cbn [fst snd Simulation.world]. apply Hi.
    repeat constructor; simpl; lia.
  - unfold Simulation.frame, Simulation.update. rewrite bind_eq. unfold ret.
    cbn [fst snd Simulation.world]. apply He.
    apply update_ants_world; [exact Hu|].
    clear Hr. revert sim IH.
    induction clicks as [| c l IHl]; intros sim IH; simpl; [exact IH|].
    apply IHl. simpl. apply Hc, IH.
Qed.

Lemma reachable_amounts (gf : grid -> R -> grid) (sim : Simulation.t) :
  reachable gf sim -> amounts_ok (foods (Simulation.world sim)).
Proof.
  apply (reachable_world gf (fun w => amounts_ok (foods w))).
  - intros fs H; exact H.
  - intros a w c s; apply update_amounts.
  - intros w x y H. simpl. apply Forall_app. split; [exact H|].
    constructor; [simpl; lia | constructor].
  - intros w b H. simpl. exact H.
Qed.

(** C3: A searching ant that is not in panic when the tick starts and that,
    after its move and the boundary handling of the tick, is within the
    pickup radius of a source with amount > 0: the first such source in
    registration order loses exactly 1 and stays non-negative, every other
    source is left as it was (the scan stops at the first match), the ant
    becomes CARRYING_FOOD, its heading is the heading after the move plus
    exactly PI, its patience is MAX_PATIENCE, and neither grid receives a
    deposit in that tick.  No update and no reachable state has a negative
    amount. *)
Theorem pickup_by_searching_ant :
  (forall (self : Ant.t) (w : World) (colony : vec) (s : rng)
          (pre : list Food.t) (f : Food.t) (post : list Food.t),
      Ant.state self = Ant.SEARCHING ->
      (Ant.panic_timer self <= 0)%Z ->
      let moved := fst (Ant.advance self w colony s) in
      foods w = pre ++ f :: post ->
      Forall (fun g => can_pick (Ant.pos moved) g = false) pre ->
      can_pick (Ant.pos moved) f = true ->
      fst (Ant.update self w colony s) =
        (Ant.mk (Ant.pos moved) (Ant.angle moved + PI) (Ant.speed moved)
                Ant.CARRYING_FOOD MAX_PATIENCE (Ant.panic_timer moved),
         mkWorld (home_pheromones w) (food_pheromones w)
                 (pre ++ Food.mk (Food.pos f) (Food.amount f - 1) :: post))
      /\ (0 <= Food.amount f - 1)%Z)
  /\
  (forall (self : Ant.t) (w : World) (colony : vec) (s : rng),
      amounts_ok (foods w) ->
      amounts_ok (foods (snd (fst (Ant.update self w colony s)))))
  /\
  (forall (gf : grid -> R -> grid) (sim : Simulation.t),
      reachable gf sim -> amounts_ok (foods (Simulation.world sim))).
Proof.
  split; [| split].
  - intros self w colony s pre f post Es Hp moved Ef Hpre Hf.
    rewrite update_normal by assumption. simpl. fold moved. split.
    + apply interact_pickup; try assumption.
      unfold moved. destruct (advance_frame self w colony s) as [E _].
      rewrite E. exact Es.
    + unfold can_pick in Hf. apply andb_true_iff in Hf.
      destruct Hf as [_ Hf]. apply Z.ltb_lt in Hf. lia.
  - exact update_amounts.
  - exact reachable_amounts.
Qed.

(** ** Positions after one move *)

Lemma norm_step (p : vec) (k a : R) :
  norm (vsub (vadd p (vscale k (direction a))) p) = Rabs k.
Proof.
  unfold norm, vsub, vadd, vscale, direction. simpl.
  replace ((fst p + k * cos a - fst p) * (fst p + k * cos a - fst p)
           + (snd p + k * sin a - snd p) * (snd p + k * sin a - snd p))
    with (Rsqr k * (Rsqr (sin a) + Rsqr (cos a))) by (unfold Rsqr; ring).
  rewrite sin2_cos2, Rmult_1_r. apply sqrt_Rsqr_abs.
Qed.

Lemma step_inside (p : vec) (a : R) :
  interior p -> Ant.inside (vadd p (vscale ANT_SPEED (direction a))) = true.
Proof.
  unfold interior. intros [Hx Hy]. apply inside_true.
  unfold vadd, vscale, direction. simpl. consts.
  pose proof (COS_bound a). pose proof (SIN_bound a). lra.
Qed.

Lemma advance_pos (self : Ant.t) (w : World) (colony : vec) (s : rng) :
  interior (Ant.pos self) -> Ant.speed self = ANT_SPEED ->
  exists a, Ant.pos (fst (Ant.advance self w colony s))
            = vadd (Ant.pos self) (vscale ANT_SPEED (direction a)).
Proof.
  intros Hi Hs. rewrite advance_eq.
  set (d := Ant.decide self w colony s).
  set (b := Ant.bookkeeping (fst (fst d)) (snd (fst d))).
  destruct (bookkeeping_frame (fst (fst d)) (snd (fst d))) as (B1 & _ & _ & B4).
  destruct (decide_frame self w colony s) as (_ & _ & D3 & _ & _ & D6).
  fold d in D3, D6. fold b in B1, B4.
  exists (Ant.angle b).
  rewrite handle_boundaries_eq.
  assert (E : Ant.pos (Ant.move b)
              = vadd (Ant.pos self) (vscale ANT_SPEED (direction (Ant.angle b)))).
  { unfold Ant.move. simpl. rewrite B1, B4, D3, D6, Hs. reflexivity. }
  rewrite E, step_inside by assumption. simpl. exact E.
Qed.

Lemma panic_update_pos (self : Ant.t) (s : rng) :
  interior (Ant.pos self) -> Ant.speed self = ANT_SPEED ->
  exists a, Ant.pos (fst (Ant.panic_update self s))
            = vadd (Ant.pos self) (vscale ANT_SPEED (direction a)).
Proof.
  intros Hi Hs. rewrite panic_update_eq, handle_boundaries_eq.
  set (a := Ant.angle self + (-1 + (1 - -1) * s 0%nat) * WANDER_STRENGTH * 2).
  exists a. simpl. rewrite Hs, step_inside by assumption. simpl.
  rewrite Hs. reflexivity.
Qed.

Lemma interior_example : interior (100, 100).
Proof. unfold interior; simpl; consts; lra. Qed.

Lemma near_after_step (p : vec) (a r : R) :
  ANT_SPEED < r -> Rltb (norm (vsub (vadd p (vscale ANT_SPEED (direction a))) p)) r = true.
Proof.
  intros H. apply Rltb_true. rewrite norm_step.
  unfold ANT_SPEED in *. rewrite Rabs_pos_eq; lra.
Qed.

(** An ant standing on a full source picks from it. *)
Lemma pickup_by_searching_ant_witness :
  let self := Ant.mk (100, 100) 0 ANT_SPEED Ant.SEARCHING MAX_PATIENCE 0 in
  let f := Food.mk (100, 100) 1000 in
  let w := mkWorld zeros zeros [f] in
  let s : rng := fun _ => 1 / 2 in
  let moved := fst (Ant.advance self w (640, 360) s) in
  fst (Ant.update self w (640, 360) s) =
    (Ant.mk (Ant.pos moved) (Ant.angle moved + PI) (Ant.speed moved)
            Ant.CARRYING_FOOD MAX_PATIENCE (Ant.panic_timer moved),
     mkWorld zeros zeros [Food.mk (100, 100) 999])
  /\ (0 <= 1000 - 1)%Z.
Proof.
  intros self f w s moved.
  apply (proj1 pickup_by_searching_ant self w (640, 360) s [] f []).
  - reflexivity.
  - simpl. lia.
  - reflexivity.
  - constructor.
  - destruct (advance_pos self w (640, 360) s interior_example eq_refl) as [a E].
    unfold can_pick. rewrite E. simpl Food.pos. simpl Ant.pos.
    rewrite near_after_step by (unfold ANT_SPEED; lra). reflexivity.
Defined.

(** A searching ant in panic steps onto a full source and leaves it as it
    is: no pickup, no transition. *)
Lemma panicking_searcher_passes_food :
  let self := Ant.mk (100, 100) 0 ANT_SPEED Ant.SEARCHING MAX_PATIENCE 5 in
  let f := Food.mk (100, 100) 1000 in
  let w := mkWorld zeros zeros [f] in
  let s : rng := fun _ => 1 / 2 in
  let r := fst (Ant.update self w (640, 360) s) in
  Ant.state self = Ant.SEARCHING /\
  can_pick (Ant.pos (fst r)) f = true /\
  Ant.state (fst r) = Ant.SEARCHING /\
  Ant.angle (fst r) = Ant.angle self /\
  foods (snd r) = [f].
Proof.
  intros self f w s r.
  assert (Hp : (0 < Ant.panic_timer self)%Z) by (simpl; lia).
  unfold r. rewrite update_panic by assumption. simpl fst. simpl snd.
  split; [reflexivity|]. split; [| split; [| split]].
  - destruct (panic_update_pos self s interior_example eq_refl) as [a E].
    unfold can_pick. rewrite E. simpl Food.pos. simpl Ant.pos.
    rewrite near_after_step by (unfold ANT_SPEED; lra). reflexivity.
  - rewrite panic_update_eq.
    match goal with |- Ant.state (fst (Ant.handle_boundaries ?x ?y)) = _ =>
      destruct (handle_boundaries_frame x y) as (E & _) end.
    rewrite E. reflexivity.
  - rewrite panic_update_eq, handle_boundaries_eq.
    unfold self, Ant.move. simpl.
    rewrite (step_inside (100, 100)) by apply interior_example.
    unfold s. simpl. unfold WANDER_STRENGTH. lra.
  - reflexivity.
Qed.

(** ** Arrival at the colony *)

Lemma interact_arrival (self : Ant.t) (w : World) (colony : vec) :
  Ant.state self = Ant.CARRYING_FOOD ->
  norm (vsub (Ant.pos self) colony) < 20 ->
  Ant.interact_with_objects self w colony =
  (Ant.mk (Ant.pos self) (Ant.angle self + PI) (Ant.speed self) Ant.SEARCHING
          MAX_PATIENCE (Ant.panic_timer self), w).
Proof.
  intros Es Hn. unfold Ant.interact_with_objects.
  apply Rltb_true in Hn. rewrite Es, Hn. reflexivity.
Qed.

(** C7: A carrying ant that is not in panic when the tick starts and that, after
    its move and the boundary handling of the tick, is within the capture
    radius of the colony: it becomes SEARCHING, its heading is the heading
    after the move plus PI, its patience is MAX_PATIENCE, and the tick
    leaves the world as it was: no deposit into either grid and no change
    of a food amount. *)
Theorem arrival_of_carrying_ant (self : Ant.t) (w : World) (colony : vec) (s : rng) :
  Ant.state self = Ant.CARRYING_FOOD ->
  (Ant.panic_timer self <= 0)%Z ->
  let moved := fst (Ant.advance self w colony s) in
  norm (vsub (Ant.pos moved) colony) < 20 ->
  fst (Ant.update self w colony s) =
    (Ant.mk (Ant.pos moved) (Ant.angle moved + PI) (Ant.speed moved)
            Ant.SEARCHING MAX_PATIENCE (Ant.panic_timer moved),
     w).
Proof.
  intros Es Hp moved Hn.
  rewrite update_normal by assumption. simpl. fold moved.
  apply interact_arrival; [| exact Hn].
  unfold moved. destruct (advance_frame self w colony s) as [E _].
  rewrite E. exact Es.
Qed.

Lemma interior_colony : interior (640, 360).
Proof. unfold interior; simpl; consts; lra. Qed.

(** A carrying ant one step from the colony centre arrives. *)
Lemma arrival_of_carrying_ant_witness :
  let self := Ant.mk (640, 360) 0 ANT_SPEED Ant.CARRYING_FOOD 200 0 in
  let w := mkWorld zeros zeros [Food.mk (100, 100) 1000] in
  let s : rng := fun _ => 1 / 2 in
  let moved := fst (Ant.advance self w (640, 360) s) in
  fst (Ant.update self w (640, 360) s) =
    (Ant.mk (Ant.pos moved) (Ant.angle moved + PI) (Ant.speed moved)
            Ant.SEARCHING MAX_PATIENCE (Ant.panic_timer moved),
     w).
Proof.
  intros self w s moved.
  apply (arrival_of_carrying_ant self w (640, 360) s).
  - reflexivity.
  - simpl. lia.
  - destruct (advance_pos self w (640, 360) s interior_colony eq_refl) as [a E].
    rewrite E. simpl Ant.pos.
    apply Rltb_true, near_after_step. unfold ANT_SPEED. lra.
Defined.

(** A carrying ant in panic steps within the capture radius and stays
    CARRYING_FOOD, its patience not reset. *)
Lemma panicking_carrier_passes_colony :
  let self := Ant.mk (640, 360) 0 ANT_SPEED Ant.CARRYING_FOOD 200 5 in
  let w := mkWorld zeros zeros [Food.mk (100, 100) 1000] in
  let s : rng := fun _ => 1 / 2 in
  let r := fst (Ant.update self w (640, 360) s) in
  Ant.state self = Ant.CARRYING_FOOD /\
  norm (vsub (Ant.pos (fst r)) (640, 360)) < 20 /\
  Ant.state (fst r) = Ant.CARRYING_FOOD /\
  Ant.patience (fst r) = 200%Z /\
  Ant.angle (fst r) = Ant.angle self.
Proof.
  intros self w s r.
  assert (Hp : (0 < Ant.panic_timer self)%Z) by (simpl; lia).
  unfold r. rewrite update_panic by assumption. simpl fst.
  split; [reflexivity|]. split; [| split; [| split]].
  - destruct (panic_update_pos self s interior_colony eq_refl) as [a E].
    rewrite E. simpl Ant.pos.
    apply Rltb_true, near_after_step. unfold ANT_SPEED. lra.
  - rewrite panic_update_eq.
    match goal with |- Ant.state (fst (Ant.handle_boundaries ?x ?y)) = _ =>
      destruct (handle_boundaries_frame x y) as (E & _) end.
    rewrite E. reflexivity.
  - rewrite panic_update_eq.
    match goal with |- Ant.patience (fst (Ant.handle_boundaries ?x ?y)) = _ =>
      destruct (handle_boundaries_frame x y) as (_ & E & _) end.
    rewrite E. reflexivity.
  - rewrite panic_update_eq, handle_boundaries_eq.
    unfold self, Ant.move. simpl.
    rewrite (step_inside (640, 360)) by apply interior_colony.
    unfold s. simpl. unfold WANDER_STRENGTH. lra.
Qed.

(** ** Bounds of the pheromone grids *)

Lemma zeros_ok : grid_ok zeros.
Proof. intros y x _. unfold zeros, MAX_PHEROMONE. lra. Qed.

Lemma deposit_ok (p : vec) (g : grid) (amount : R) :
  0 <= amount -> grid_ok g -> grid_ok (deposit p g amount).
Proof.
  intros Ha Hg. unfold deposit.
  destruct (in_grid (int (fst p)) (int (snd p))) eqn:E; [| exact Hg].
  intros y x Hin. unfold grid_set.
  destruct ((y =? int (snd p))%Z && (x =? int (fst p))%Z); [| apply Hg, Hin].
  specialize (Hg _ _ E). unfold MAX_PHEROMONE in *.
  unfold Rmin. destruct (Rle_dec 1000 (g (int (snd p)) (int (fst p)) + amount)); lra.
Qed.

(** A deposit saturates at the cap. *)
Lemma deposit_saturates (p : vec) (g : grid) (amount : R) :
  in_grid (int (fst p)) (int (snd p)) = true ->
  deposit p g amount (int (snd p)) (int (fst p))
  = Rmin MAX_PHEROMONE (g (int (snd p)) (int (fst p)) + amount).
Proof.
  intros E. unfold deposit. rewrite E. unfold grid_set.
  rewrite !Z.eqb_refl. reflexivity.
Qed.

Lemma evaporate_ok (g : grid) : grid_ok g -> grid_ok (evaporate g).
Proof.
  intros Hg y x Hin. specialize (Hg y x Hin).
  unfold evaporate, EVAPORATION_RATE, MAX_PHEROMONE in *. lra.
Qed.

Lemma interact_world_ok (self : Ant.t) (w : World) (colony : vec) :
  world_ok w -> world_ok (snd (Ant.interact_with_objects self w colony)).
Proof.
  intros [Hh Hf]. unfold Ant.interact_with_objects.
  destruct (Ant.state self).
  - destruct (Ant.pick_food (Ant.pos self) (foods w)); simpl.
    + split; assumption.
    + split; [| assumption]. simpl.
      apply deposit_ok; [unfold PHEROMONE_DEPOSIT_AMOUNT; lra | assumption].
  - destruct (Rltb _ 20); simpl.
    + split; assumption.
    + split; [assumption |]. simpl.
      apply deposit_ok; [unfold PHEROMONE_DEPOSIT_AMOUNT; lra | assumption].
Qed.

Lemma update_world_ok (self : Ant.t) (w : World) (colony : vec) (s : rng) :
  world_ok w -> world_ok (snd (fst (Ant.update self w colony s))).
Proof.
  intros H. destruct (Z_lt_le_dec 0 (Ant.panic_timer self)) as [Hp | Hp].
  - rewrite update_panic by assumption. exact H.
  - rewrite update_normal by assumption. simpl. apply interact_world_ok, H.
Qed.

Section GridBounds.

Variable gaussian_filter : grid -> R -> grid.
Hypothesis gaussian_filter_averaging : averaging gaussian_filter.

Lemma forgetting_ok (w : World) (b : bool) :
  world_ok w ->
  world_ok
    (mkWorld
       (if b then gaussian_filter (home_pheromones (evaporation w)) DIFFUSION_RATE
        else home_pheromones (evaporation w))
       (if b then gaussian_filter (food_pheromones (evaporation w)) DIFFUSION_RATE
        else food_pheromones (evaporation w))
       (foods (evaporation w))).
Proof.
  intros [Hh Hf]. apply evaporate_ok in Hh, Hf.
  unfold world_ok. simpl.
  destruct b; split; try assumption; apply gaussian_filter_averaging; assumption.
Qed.

(** C4: With a diffusion filter that averages, every cell of the home grid and
    of the food grid of every reachable simulation state lies within
    [0, MAX_PHEROMONE]: a deposit writes min(MAX_PHEROMONE, old + amount),
    and the update of an ant, the evaporation and the diffusion each keep
    all cells within the bounds. *)
Theorem pheromone_within_bounds :
  (forall sim : Simulation.t, reachable gaussian_filter sim ->
     forall y x, in_grid x y = true ->
       0 <= home_pheromones (Simulation.world sim) y x <= MAX_PHEROMONE /\
       0 <= food_pheromones (Simulation.world sim) y x <= MAX_PHEROMONE)
  /\
  (forall (p : vec) (g : grid) (amount : R),
     in_grid (int (fst p)) (int (snd p)) = true ->
     deposit p g amount (int (snd p)) (int (fst p))
     = Rmin MAX_PHEROMONE (g (int (snd p)) (int (fst p)) + amount))
  /\
  (forall (self : Ant.t) (w : World) (colony : vec) (s : rng),
     world_ok w -> world_ok (snd (fst (Ant.update self w colony s))))
  /\
  (forall g, grid_ok g -> grid_ok (evaporate g))
  /\
  (forall g, grid_ok g -> grid_ok (gaussian_filter g DIFFUSION_RATE)).
Proof.
  split; [| split; [| split; [| split]]].
  - intros sim Hr.
    assert (H : world_ok (Simulation.world sim)).
    { apply (reachable_world gaussian_filter world_ok); try assumption.
      - intros fs _. split; apply zeros_ok.
      - apply update_world_ok.
      - intros w x y H. exact H.
      - apply forgetting_ok. }
    destruct H as [Hh Hf]. intros y x Hin. split; [apply Hh | apply Hf]; exact Hin.
  - exact deposit_saturates.
  - exact update_world_ok.
  - exact evaporate_ok.
  - intros g Hg. apply gaussian_filter_averaging, Hg.
Qed.

End GridBounds.

(** ** The five-tap filter averages *)

Lemma convex5 (c1 c2 c3 c4 c5 v1 v2 v3 v4 v5 lo hi : R) :
  0 <= c1 -> 0 <= c2 -> 0 <= c3 -> 0 <= c4 -> 0 <= c5 ->
  c1 + c2 + c3 + c4 + c5 = 1 ->
  lo <= v1 <= hi -> lo <= v2 <= hi -> lo <= v3 <= hi -> lo <= v4 <= hi ->
  lo <= v5 <= hi ->
  lo <= c1 * v1 + c2 * v2 + c3 * v3 + c4 * v4 + c5 * v5 <= hi.
Proof.
  intros C1 C2 C3 C4 C5 Hs V1 V2 V3 V4 V5.
  assert (0 <= c1 * (v1 - lo)) by (apply Rmult_le_pos; lra).
  assert (0 <= c1 * (hi - v1)) by (apply Rmult_le_pos; lra).
  assert (0 <= c2 * (v2 - lo)) by (apply Rmult_le_pos; lra).
  assert (0 <= c2 * (hi - v2)) by (apply Rmult_le_pos; lra).
  assert (0 <= c3 * (v3 - lo)) by (apply Rmult_le_pos; lra).
  assert (0 <= c3 * (hi - v3)) by (apply Rmult_le_pos; lra).
  assert (0 <= c4 * (v4 - lo)) by (apply Rmult_le_pos; lra).
  assert (0 <= c4 * (hi - v4)) by (apply Rmult_le_pos; lra).
  assert (0 <= c5 * (v5 - lo)) by (apply Rmult_le_pos; lra).
  assert (0 <= c5 * (hi - v5)) by (apply Rmult_le_pos; lra).
  assert (E : (c1 + c2 + c3 + c4 + c5) * lo = lo) by (rewrite Hs; ring).
  assert (F : (c1 + c2 + c3 + c4 + c5) * hi = hi) by (rewrite Hs; ring).
  split; lra.
Qed.

Lemma weight_pos (sigma : R) (k : Z) : 0 < Blur.weight sigma k.
Proof. apply exp_pos. Qed.

Lemma total_pos (sigma : R) : 0 < Blur.total sigma.
Proof.
  unfold Blur.total.
  pose proof (weight_pos sigma (-2)). pose proof (weight_pos sigma (-1)).
  pose proof (weight_pos sigma 0). pose proof (weight_pos sigma 1).
  pose proof (weight_pos sigma 2). lra.
Qed.

Lemma reflect_range (n i k : Z) :
  (2 <= n)%Z -> (0 <= i < n)%Z -> (-2 <= k <= 2)%Z ->
  (0 <= Blur.reflect n (i + k) < n)%Z.
Proof.
  intros Hn Hi Hk. unfold Blur.reflect.
  destruct (i + k <? 0)%Z eqn:E1.
  - apply Z.ltb_lt in E1. lia.
  - apply Z.ltb_ge in E1. destruct (n <=? i + k)%Z eqn:E2.
    + apply Z.leb_le in E2. lia.
    + apply Z.leb_gt in E2. lia.
Qed.

Lemma blur1_within (sigma : R) (row : Z -> R) (n i : Z) (lo hi : R) :
  (2 <= n)%Z -> (0 <= i < n)%Z ->
  (forall j, (0 <= j < n)%Z -> lo <= row j <= hi) ->
  lo <= Blur.blur1 sigma row n i <= hi.
Proof.
  intros Hn Hi Hrow. unfold Blur.blur1, Blur.tap.
  pose proof (total_pos sigma) as T.
  assert (C : forall k, 0 <= Blur.weight sigma k / Blur.total sigma).
  { intros k. apply Rlt_le, Rdiv_lt_0_compat; [apply weight_pos | exact T]. }
  apply convex5; try apply C.
  - unfold Blur.total in *. field. lra.
  - apply Hrow, reflect_range; lia.
  - apply Hrow, reflect_range; lia.
  - apply Hrow, reflect_range; lia.
  - apply Hrow, reflect_range; lia.
  - apply Hrow, reflect_range; lia.
Qed.

Lemma blur_averaging : averaging Blur.gaussian_filter.
Proof.
  intros g sigma lo hi Hg y x Hin.
  apply in_grid_true in Hin. destruct Hin as [Hx Hy].
  unfold Blur.gaussian_filter.
  apply blur1_within; [unfold SCREEN_WIDTH; lia | exact Hx |].
  intros x' Hx'.
  apply blur1_within; [unfold SCREEN_HEIGHT; lia | exact Hy |].
  intros y' Hy'. apply Hg, in_grid_true. split; assumption.
Qed.

(** The grids after the first frame, with the five-tap filter. *)
Lemma pheromone_within_bounds_witness :
  let s : rng := fun _ => 1 / 2 in
  let sim := fst (Simulation.frame Blur.gaussian_filter []
                    (fst (Simulation.init s)) s) in
  0 <= home_pheromones (Simulation.world sim) 360%Z 640%Z <= MAX_PHEROMONE /\
  0 <= food_pheromones (Simulation.world sim) 360%Z 640%Z <= MAX_PHEROMONE.
Proof.
  intros s sim.
  apply (proj1 (pheromone_within_bounds Blur.gaussian_filter blur_averaging) sim).
  - apply reach_frame, reach_init.
  - reflexivity.
Defined.

(** ** The draws an update consumes *)

Lemma suffix_refl (s : rng) : suffix s s.
Proof. exists 0%nat. reflexivity. Qed.

Lemma suffix_tail (s : rng) : suffix s (tail s).
Proof. exists 1%nat. reflexivity. Qed.

Lemma suffix_trans (s1 s2 s3 : rng) : suffix s1 s2 -> suffix s2 s3 -> suffix s1 s3.
Proof.
  intros [k1 H1] [k2 H2]. exists (k1 + k2)%nat. intros n.
  rewrite H2, H1. f_equal. lia.
Qed.

Lemma suffix_pointwise (P : R -> Prop) (s s' : rng) :
  suffix s s' -> (forall n, P (s n)) -> forall n, P (s' n).
Proof. intros [k H] HP n. rewrite H. apply HP. Qed.

Lemma suffix_ok (s s' : rng) : suffix s s' -> rng_ok s -> rng_ok s'.
Proof. intros H Hs. exact (suffix_pointwise (fun x => 0 <= x < 1) s s' H Hs). Qed.

Lemma handle_boundaries_suffix (self : Ant.t) (s : rng) :
  suffix s (snd (Ant.handle_boundaries self s)).
Proof.
  rewrite handle_boundaries_eq. destruct (Ant.inside (Ant.pos self)); simpl.
  - apply suffix_refl.
  - apply suffix_tail.
Qed.

Lemma steer_searching_suffix (a x y z : R) (s : rng) :
  suffix s (snd (Ant.steer_searching a x y z s)).
Proof.
  unfold Ant.steer_searching.
  destruct (Rgtb x y && Rgtb x z); [apply suffix_tail|].
  destruct (Rgtb y z); [apply suffix_refl|].
  destruct (Rgtb z y); [apply suffix_refl | apply suffix_tail].
Qed.

Lemma steer_carrying_suffix (a c x y z : R) (s : rng) :
  suffix s (snd (Ant.steer_carrying a c x y z s)).
Proof.
  unfold Ant.steer_carrying.
  destruct (Rgtb x y && Rgtb x z); [apply suffix_tail|].
  destruct (Rgtb y z); [apply suffix_refl|].
  destruct (Rgtb z y); apply suffix_refl.
Qed.

Lemma decide_suffix (self : Ant.t) (w : World) (colony : vec) (s : rng) :
  suffix s (snd (Ant.decide self w colony s)).
Proof.
  unfold Ant.decide. destruct (Ant.state self); rewrite bind_eq; simpl.
  - apply steer_searching_suffix.
  - apply steer_carrying_suffix.
Qed.

Lemma update_suffix (self : Ant.t) (w : World) (colony : vec) (s : rng) :
  suffix s (snd (Ant.update self w colony s)).
Proof.
  destruct (Z_lt_le_dec 0 (Ant.panic_timer self)) as [Hp | Hp].
  - rewrite update_panic by assumption. simpl. rewrite panic_update_eq.
    eapply suffix_trans; [apply suffix_tail | apply handle_boundaries_suffix].
  - rewrite update_normal by assumption. simpl. rewrite advance_eq.
    eapply suffix_trans; [apply decide_suffix | apply handle_boundaries_suffix].
Qed.

(** ** An ant over several ticks *)

Lemma run_S (env : nat -> World -> World) (colony : vec) (n : nat)
      (start : Ant.t * World) (s : rng) :
  let st := run env colony n start s in
  let r := Ant.update (fst (fst st)) (snd (fst st)) colony (snd st) in
  run env colony (S n) start s = (fst (fst r), env n (snd (fst r)), snd r).
Proof. simpl. rewrite !bind_eq. reflexivity. Qed.

Lemma run_suffix (env : nat -> World -> World) (colony : vec) (n : nat)
      (start : Ant.t * World) (s : rng) :
  suffix s (snd (run env colony n start s)).
Proof.
  induction n as [| n IH].
  - apply suffix_refl.
  - rewrite run_S. simpl.
    eapply suffix_trans; [exact IH | apply update_suffix].
Qed.

(** ** The stored heading *)

Lemma float_mod_range (a b : R) : 0 < b -> 0 <= float_mod a b < b.
Proof.
  intros Hb. unfold float_mod.
  destruct (Int_part_bounds (a / b)) as [B1 B2].
  assert (E : a = a / b * b) by (field; lra).
  assert (L : IZR (Int_part (a / b)) * b <= a / b * b)
    by (apply Rmult_le_compat_r; lra).
  assert (U : a / b * b < (IZR (Int_part (a / b)) + 1) * b)
    by (apply Rmult_lt_compat_r; lra).
  lra.
Qed.

(** The wrapped difference of line 153 lies in [-PI, PI). *)
Lemma wrapped_diff_range (x : R) : - PI <= float_mod (x + PI) (2 * PI) - PI < PI.
Proof.
  pose proof PI_gt_2.
  destruct (float_mod_range (x + PI) (2 * PI)) as [H1 H2]; lra.
Qed.

Lemma wander_bound (a k : R) (s : rng) :
  rng_ok s -> 0 <= k -> Rabs (fst (Ant.wander a k s) - a) <= k.
Proof.
  intros Hs Hk. rewrite wander_eq. simpl.
  pose proof (uniform_range (-1) 1 s Hs ltac:(lra)) as U. simpl in U.
  apply Rabs_le. nra.
Qed.

Lemma steer_searching_bound (a x y z : R) (s : rng) :
  rng_ok s -> Rabs (fst (Ant.steer_searching a x y z s) - a) <= WANDER_STRENGTH.
Proof.
  intros Hs. unfold Ant.steer_searching.
  assert (W : Rabs (fst (Ant.wander a WANDER_STRENGTH s) - a) <= WANDER_STRENGTH)
    by (apply wander_bound; [assumption | unfold WANDER_STRENGTH; lra]).
  destruct (Rgtb x y && Rgtb x z); [exact W|].
  destruct (Rgtb y z);
    [simpl; unfold ANT_ROTATION_SPEED, WANDER_STRENGTH; apply Rabs_le; lra|].
  destruct (Rgtb z y);
    [simpl; unfold ANT_ROTATION_SPEED, WANDER_STRENGTH; apply Rabs_le; lra|].
  exact W.
Qed.

Lemma steer_carrying_bound (a c x y z : R) (s : rng) :
  rng_ok s -> Rabs (fst (Ant.steer_carrying a c x y z s) - a) <= PI * ANT_ROTATION_SPEED.
Proof.
  intros Hs. unfold Ant.steer_carrying. pose proof PI_gt_2.
  assert (W : Rabs (fst (Ant.wander a WANDER_STRENGTH s) - a) <= PI * ANT_ROTATION_SPEED).
  { eapply Rle_trans;
      [apply wander_bound; [assumption | unfold WANDER_STRENGTH; lra]|].
    unfold WANDER_STRENGTH, ANT_ROTATION_SPEED. lra. }
  destruct (Rgtb x y && Rgtb x z); [exact W|].
  destruct (Rgtb y z); [simpl; unfold ANT_ROTATION_SPEED; apply Rabs_le; lra|].
  destruct (Rgtb z y); [simpl; unfold ANT_ROTATION_SPEED; apply Rabs_le; lra|].
  simpl. pose proof (wrapped_diff_range (c - a)) as D.
  unfold ANT_ROTATION_SPEED. apply Rabs_le. lra.
Qed.

Lemma decide_angle_bound (self : Ant.t) (w : World) (colony : vec) (s : rng) :
  rng_ok s ->
  Rabs (Ant.angle (fst (fst (Ant.decide self w colony s))) - Ant.angle self)
  <= PI * ANT_ROTATION_SPEED.
Proof.
  intros Hs. unfold Ant.decide. pose proof PI_gt_2.
  destruct (Ant.state self); rewrite bind_eq; simpl.
  - eapply Rle_trans; [apply steer_searching_bound; assumption
                      | unfold WANDER_STRENGTH, ANT_ROTATION_SPEED; lra].
  - apply steer_carrying_bound; assumption.
Qed.

Lemma handle_boundaries_angle (self : Ant.t) (s : rng) :
  rng_ok s ->
  0 <= Ant.angle (fst (Ant.handle_boundaries self s)) - Ant.angle self <= PI + 1 / 2.
Proof.
  intros Hs. rewrite handle_boundaries_eq. pose proof PI_gt_2.
  destruct (Ant.inside (Ant.pos self)); simpl; [lra|].
  specialize (Hs 0%nat). lra.
Qed.

Lemma interact_angle (self : Ant.t) (w : World) (colony : vec) :
  0 <= Ant.angle (fst (Ant.interact_with_objects self w colony)) - Ant.angle self <= PI.
Proof.
  pose proof PI_gt_2. unfold Ant.interact_with_objects.
  destruct (Ant.state self).
  - destruct (Ant.pick_food (Ant.pos self) (foods w)); simpl; lra.
  - destruct (Rltb _ 20); simpl; lra.
Qed.

Lemma Rabs_le_inv (a b : R) : Rabs a <= b -> - b <= a <= b.
Proof. unfold Rabs. destruct (Rcase_abs a); lra. Qed.

Lemma update_angle_bound (self : Ant.t) (w : World) (colony : vec) (s : rng) :
  rng_ok s ->
  Rabs (Ant.angle (fst (fst (Ant.update self w colony s))) - Ant.angle self) <= MAX_TURN.
Proof.
  intros Hs. pose proof PI_gt_2. unfold MAX_TURN.
  destruct (Z_lt_le_dec 0 (Ant.panic_timer self)) as [Hp | Hp].
  - rewrite update_panic by assumption. simpl. rewrite panic_update_eq.
    match goal with |- context [Ant.handle_boundaries ?x ?y] =>
      pose proof (handle_boundaries_angle x y (rng_ok_tail s Hs)) as B end.
    simpl in B. specialize (Hs 0%nat).
    unfold WANDER_STRENGTH, ANT_ROTATION_SPEED in *. apply Rabs_le. lra.
  - rewrite update_normal by assumption. simpl.
    pose proof (interact_angle (fst (Ant.advance self w colony s)) w colony) as I.
    rewrite advance_eq in *.
    set (d := Ant.decide self w colony s) in *.
    set (b := Ant.bookkeeping (fst (fst d)) (snd (fst d))) in *.
    pose proof (handle_boundaries_angle (Ant.move b) (snd d)
                  (suffix_ok _ _ (decide_suffix self w colony s) Hs)) as B.
    destruct (bookkeeping_frame (fst (fst d)) (snd (fst d))) as (_ & B2 & _ & _).
    fold b in B2. simpl in B. rewrite B2 in B.
    pose proof (decide_angle_bound self w colony s Hs) as D. fold d in D.
    apply Rabs_le_inv in D. unfold ANT_ROTATION_SPEED in *. apply Rabs_le. lra.
Qed.

Lemma run_angle_bound (env : nat -> World -> World) (colony : vec) (n : nat)
      (start : Ant.t * World) (s : rng) :
  rng_ok s ->
  Rabs (Ant.angle (fst (fst (run env colony n start s))) - Ant.angle (fst start))
  <= INR n * MAX_TURN.
Proof.
  intros Hs. induction n as [| n IH].
  - simpl. rewrite Rminus_diag, Rabs_R0. lra.
  - rewrite run_S. cbn [fst snd]. rewrite S_INR.
    set (st := run env colony n start s) in *.
    pose proof (update_angle_bound (fst (fst st)) (snd (fst st)) colony (snd st)
                  (suffix_ok _ _ (run_suffix env colony n start s) Hs)) as U.
    apply Rabs_le_inv in U, IH. apply Rabs_le. lra.
Qed.

(** C5: The stored heading is not wrapped into a range: every update adds its
    increments to the stored value.  What bounds it is the turn per tick:
    with a well-formed generator one update changes the stored heading by at
    most MAX_TURN = 0.2 PI + (PI + 0.5) + PI in absolute value, so after [n]
    updates it is within n * MAX_TURN of the heading at the start; the only
    wrapped angles are the differences of the CARRYING_FOOD decision, which
    lie in [-PI, PI). *)
Theorem heading_turn_per_tick :
  (forall (self : Ant.t) (w : World) (colony : vec) (s : rng),
      rng_ok s ->
      Rabs (Ant.angle (fst (fst (Ant.update self w colony s))) - Ant.angle self)
      <= MAX_TURN)
  /\
  (forall (env : nat -> World -> World) (colony : vec) (n : nat)
          (start : Ant.t * World) (s : rng),
      rng_ok s ->
      Rabs (Ant.angle (fst (fst (run env colony n start s))) - Ant.angle (fst start))
      <= INR n * MAX_TURN)
  /\
  (forall x : R, - PI <= float_mod (x + PI) (2 * PI) - PI < PI).
Proof.
  split; [exact update_angle_bound | split; [exact run_angle_bound |]].
  exact wrapped_diff_range.
Qed.

Lemma rng_ok_const (c : R) : 0 <= c < 1 -> rng_ok (fun _ => c).
Proof. intros H n. exact H. Qed.

(** One update of an ant at the colony, the draws all 1/2. *)
Lemma heading_turn_per_tick_witness :
  let self := Ant.mk (640, 360) 0 ANT_SPEED Ant.SEARCHING MAX_PATIENCE 0 in
  let w := mkWorld zeros zeros [] in
  let s : rng := fun _ => 1 / 2 in
  Rabs (Ant.angle (fst (fst (Ant.update self w (640, 360) s))) - Ant.angle self)
  <= MAX_TURN.
Proof.
  intros self w s.
  apply (proj1 heading_turn_per_tick self w (640, 360) s).
  apply rng_ok_const. lra.
Defined.

(** *** A heading that grows without bound *)

Lemma lonely_step (self : Ant.t) (w : World) (colony : vec) (s : rng) :
  lonely self w s ->
  let r := Ant.update self w colony s in
  lonely (fst (fst r)) (snd (fst r)) (snd r) /\
  Ant.angle self + 3 / 20 <= Ant.angle (fst (fst r)).
Proof.
  intros (Hst & Hpt & Hpa & Hfg & Hfs & Hs) r.
  assert (Hok : rng_ok s) by (intros k; rewrite Hs; lra).
  assert (Hsm : forall a, get_pheromone_value (Ant.sensor_pos self a) (scent_grid self w) = 0).
  { intros a. unfold scent_grid. rewrite Hst, Hfg. apply sample_zeros. }
  assert (Hot : on_trail self w = false).
  { unfold on_trail, smell_ahead. rewrite Hsm. apply Rgtb_false. lra. }
  assert (Hsuf : suffix s (snd r)) by apply update_suffix.
  pose proof (update_patience self w colony s) as U. simpl in U. fold r in U.
  pose proof (update_patience_pos self w colony s Hpa) as Upos. fold r in Upos.
  rewrite Hpt in U. simpl in U.
  unfold patience_tested in U. rewrite Hot in U.
  assert (T : (Z.min MAX_PATIENCE (Ant.patience self + 2) <=? 0)%Z = false).
  { apply Z.leb_gt. unfold patience_pos in Hpa. consts. lia. }
  rewrite T in U. destruct U as [_ Upt].
  assert (Hn : (Ant.panic_timer self <= 0)%Z) by lia.
  unfold r in *. rewrite update_normal in * by assumption. cbn [fst snd] in *.
  set (m := fst (Ant.advance self w colony s)) in *.
  assert (Hm : Ant.state m = Ant.SEARCHING).
  { unfold m. destruct (advance_frame self w colony s) as [E _]. congruence. }
  assert (Hi : Ant.interact_with_objects m w colony =
               (m, mkWorld (deposit (Ant.pos m) (home_pheromones w)
                              (PHEROMONE_DEPOSIT_AMOUNT * (1 / 2)))
                           (food_pheromones w) (foods w))).
  { unfold Ant.interact_with_objects. rewrite Hm, Hfs. reflexivity. }
  rewrite Hi in *. cbn [fst snd] in *.
  split.
  - unfold lonely. simpl. repeat split; try assumption; try apply Upos.
    intros k. exact (suffix_pointwise (fun x => x = 3 / 4) _ _ Hsuf Hs k).
  - unfold m. rewrite advance_eq.
    set (d := Ant.decide self w colony s).
    set (b := Ant.bookkeeping (fst (fst d)) (snd (fst d))).
    pose proof (handle_boundaries_angle (Ant.move b) (snd d)
                  (suffix_ok _ _ (decide_suffix self w colony s) Hok)) as B.
    destruct (bookkeeping_frame (fst (fst d)) (snd (fst d))) as (_ & B2 & _ & _).
    fold b in B2. simpl in B. rewrite B2 in B.
    destruct (decide_searching_angle self w colony s Hst) as [Ea _]. fold d in Ea.
    unfold smell_ahead, smell_left, smell_right in Ea. rewrite !Hsm in Ea.
    destruct (steer_searching_cases (Ant.angle self) 0 0 0 s) as (_ & _ & _ & C4).
    rewrite C4 in Ea by reflexivity. rewrite wander_eq in Ea. simpl in Ea.
    rewrite Hs in Ea. unfold WANDER_STRENGTH in Ea. lra.
Qed.

Lemma lonely_run (colony : vec) (start : Ant.t * World) (s : rng) (n : nat) :
  lonely (fst start) (snd start) s ->
  let st := run (fun _ w => w) colony n start s in
  lonely (fst (fst st)) (snd (fst st)) (snd st) /\
  Ant.angle (fst start) + INR n * (3 / 20) <= Ant.angle (fst (fst st)).
Proof.
  intros H. induction n as [| n [IH1 IH2]].
  - simpl. split; [exact H | lra].
  - rewrite run_S. cbn [fst snd]. rewrite S_INR.
    set (st := run (fun _ w => w) colony n start s) in *.
    destruct (lonely_step (fst (fst st)) (snd (fst st)) colony (snd st) IH1)
      as [L1 L2].
    split; [exact L1 | lra].
Qed.

(** The heading of that ant exceeds every bound: no range holds it. *)
Lemma heading_drifts_without_bound :
  ~ exists B : R, forall n : nat,
      Rabs (Ant.angle (fst (fst
              (run (fun _ w => w) (640, 360) n
                   (Ant.mk (640, 360) 0 ANT_SPEED Ant.SEARCHING MAX_PATIENCE 0,
                    mkWorld zeros zeros [])
                   (fun _ => 3 / 4))))) <= B.
Proof.
  intros [B HB].
  destruct (INR_unbounded (B * (20 / 3))) as [n Hn].
  specialize (HB n).
  set (start := (Ant.mk (640, 360) 0 ANT_SPEED Ant.SEARCHING MAX_PATIENCE 0,
                 mkWorld zeros zeros [])) in *.
  assert (L : lonely (fst start) (snd start) (fun _ => 3 / 4)).
  { unfold lonely, start, patience_pos. simpl. consts.
    repeat split; try reflexivity; lia. }
  destruct (lonely_run (640, 360) start (fun _ => 3 / 4) n L) as [_ A].
  simpl in A. apply Rabs_le_inv in HB. lra.
Qed.

(** ** Fatigue on a trail *)

Lemma interact_quiet (m : Ant.t) (w : World) (colony : vec) :
  Ant.state (fst (Ant.interact_with_objects m w colony)) = Ant.state m ->
  fst (Ant.interact_with_objects m w colony) = m.
Proof.
  unfold Ant.interact_with_objects.
  destruct (Ant.state m) eqn:E.
  - destruct (Ant.pick_food (Ant.pos m) (foods w)); simpl;
      [discriminate | reflexivity].
  - destruct (Rltb _ 20); simpl; [discriminate | reflexivity].
Qed.

Lemma advance_patience (self : Ant.t) (w : World) (colony : vec) (s : rng) :
  let m := fst (Ant.advance self w colony s) in
  if (patience_tested self w <=? 0)%Z
  then Ant.patience m = MAX_PATIENCE /\ Ant.panic_timer m = PANIC_DURATION
  else Ant.patience m = patience_tested self w /\
       Ant.panic_timer m = Ant.panic_timer self.
Proof.
  simpl. rewrite advance_eq.
  set (d := Ant.decide self w colony s).
  destruct (handle_boundaries_frame
              (Ant.move (Ant.bookkeeping (fst (fst d)) (snd (fst d)))) (snd d))
    as (_ & E2 & E3 & _).
  rewrite E2, E3. simpl.
  exact (bookkeeping_decide self w colony s).
Qed.

(** A tick on the trail without pickup or arrival costs one unit of
    patience; the tick that uses up the last unit starts the panic. *)
Lemma trail_step (self : Ant.t) (w : World) (colony : vec) (s : rng) :
  Ant.panic_timer self = 0%Z -> on_trail self w = true ->
  let self' := fst (fst (Ant.update self w colony s)) in
  ((1 < Ant.patience self)%Z -> Ant.state self' = Ant.state self ->
   Ant.patience self' = (Ant.patience self - 1)%Z /\ Ant.panic_timer self' = 0%Z) /\
  ((Ant.patience self <= 1)%Z ->
   Ant.patience self' = MAX_PATIENCE /\ Ant.panic_timer self' = PANIC_DURATION).
Proof.
  intros Hpt Hot self'. split.
  - intros Hp Hq. unfold self' in *.
    rewrite update_normal in * by lia. cbn [fst snd] in *.
    set (m := fst (Ant.advance self w colony s)) in *.
    assert (Hm : Ant.state m = Ant.state self)
      by (unfold m; apply advance_frame).
    rewrite <- Hm in Hq. apply interact_quiet in Hq. rewrite Hq.
    pose proof (advance_patience self w colony s) as A. simpl in A. fold m in A.
    unfold patience_tested in A. rewrite Hot in A.
    replace (Ant.patience self - 1 <=? 0)%Z with false in A
      by (symmetry; apply Z.leb_gt; lia).
    rewrite Hpt in A. exact A.
  - intros Hp.
    pose proof (update_patience self w colony s) as U. simpl in U.
    rewrite Hpt in U. simpl in U. unfold patience_tested in U. rewrite Hot in U.
    replace (Ant.patience self - 1 <=? 0)%Z with true in U
      by (symmetry; apply Z.leb_le; lia).
    exact U.
Qed.

(** A tick in panic: the panic branch alone. *)
Lemma panic_step (self : Ant.t) (w : World) (colony : vec) (s : rng) :
  (0 < Ant.panic_timer self)%Z ->
  Ant.update self w colony s
  = (fst (Ant.panic_update self s), w, snd (Ant.panic_update self s)) /\
  let self' := fst (Ant.panic_update self s) in
  Ant.panic_timer self' = (Ant.panic_timer self - 1)%Z /\
  Ant.patience self' = Ant.patience self /\
  Ant.state self' = Ant.state self.
Proof.
  intros Hp. split; [apply update_panic, Hp|]. simpl.
  rewrite panic_update_eq.
  match goal with |- context [Ant.handle_boundaries ?x ?y] =>
    destruct (handle_boundaries_frame x y) as (E1 & E2 & E3 & _) end.
  rewrite E1, E2, E3. simpl. auto.
Qed.

Section Fatigue.

Variable env : nat -> World -> World.
Variable colony : vec.
Variable start : Ant.t * World.
Variable s : rng.

Lemma ant_at_S (k : nat) :
  ant_at env colony start s (S k) = fst (fst (Ant.update (ant_at env colony start s k) (world_at env colony start s k) colony (rng_at env colony start s k))).
Proof. unfold ant_at, world_at, rng_at. rewrite run_S. reflexivity. Qed.

Lemma world_at_S (k : nat) :
  world_at env colony start s (S k)
  = env k (snd (fst (Ant.update (ant_at env colony start s k) (world_at env colony start s k) colony (rng_at env colony start s k)))).
Proof. unfold ant_at, world_at, rng_at. rewrite run_S. reflexivity. Qed.

(** The ant starts from a full reset, out of panic. *)
Hypothesis start_full : Ant.patience (fst start) = MAX_PATIENCE.
Hypothesis start_calm : Ant.panic_timer (fst start) = 0%Z.
(** On each of the next MAX_PATIENCE ticks it smells a trail ahead ... *)
Hypothesis on_trail_each_tick :
  forall k, (Z.of_nat k < MAX_PATIENCE)%Z -> on_trail (ant_at env colony start s k) (world_at env colony start s k) = true.
(** ... and neither picks up food nor arrives at the colony, which would
    reset its patience again. *)
Hypothesis no_reset :
  forall k, (Z.of_nat k < MAX_PATIENCE)%Z ->
            Ant.state (ant_at env colony start s (S k)) = Ant.state (ant_at env colony start s k).

Lemma patience_countdown (k : nat) :
  (Z.of_nat k < MAX_PATIENCE)%Z ->
  Ant.panic_timer (ant_at env colony start s k) = 0%Z /\
  Ant.patience (ant_at env colony start s k) = (MAX_PATIENCE - Z.of_nat k)%Z.
Proof.
  induction k as [| k IH]; intros Hk.
  - unfold ant_at. simpl. rewrite start_full, start_calm. split; [reflexivity | lia].
  - destruct IH as [I1 I2]; [lia|].
    pose proof (no_reset k ltac:(lia)) as Q.
    rewrite ant_at_S in *.
    destruct (trail_step (ant_at env colony start s k) (world_at env colony start s k) colony (rng_at env colony start s k) I1
                (on_trail_each_tick k ltac:(lia))) as [T _].
    destruct T as [T1 T2]; [lia | exact Q |].
    rewrite T1, T2, I2. split; [reflexivity | lia].
Qed.

Lemma panic_starts :
  Ant.panic_timer (ant_at env colony start s (Z.to_nat MAX_PATIENCE)) = PANIC_DURATION /\
  Ant.patience (ant_at env colony start s (Z.to_nat MAX_PATIENCE)) = MAX_PATIENCE.
Proof.
  change (Z.to_nat MAX_PATIENCE) with (S 299).
  destruct (patience_countdown 299) as [I1 I2]; [unfold MAX_PATIENCE; lia|].
  rewrite ant_at_S.
  destruct (trail_step (ant_at env colony start s 299) (world_at env colony start s 299) colony (rng_at env colony start s 299) I1
              (on_trail_each_tick 299 ltac:(unfold MAX_PATIENCE; lia))) as [_ T].
  destruct T as [T1 T2]; [rewrite I2; unfold MAX_PATIENCE; lia|].
  split; assumption.
Qed.

Lemma panic_countdown (j : nat) :
  (Z.of_nat j <= PANIC_DURATION)%Z ->
  Ant.panic_timer (ant_at env colony start s (Z.to_nat MAX_PATIENCE + j)) = (PANIC_DURATION - Z.of_nat j)%Z /\
  Ant.patience (ant_at env colony start s (Z.to_nat MAX_PATIENCE + j)) = MAX_PATIENCE.
Proof.
  induction j as [| j IH]; intros Hj.
  - rewrite Nat.add_0_r. destruct panic_starts as [P1 P2].
    rewrite P1, P2. split; [lia | reflexivity].
  - destruct IH as [I1 I2]; [lia|].
    rewrite Nat.add_succ_r, ant_at_S.
    set (k := (Z.to_nat MAX_PATIENCE + j)%nat) in *.
    destruct (panic_step (ant_at env colony start s k) (world_at env colony start s k) colony (rng_at env colony start s k)) as [E (F1 & F2 & _)];
      [lia|].
    rewrite E. cbn [fst]. rewrite F1, F2, I1, I2. split; [lia | reflexivity].
Qed.

End Fatigue.

(** Lines 80-83, spelled out: the new heading, the step along it, and the
    clip and the turn when the step leaves the play rectangle. *)
Lemma panic_update_motion (self : Ant.t) (s : rng) :
  let a' := Ant.angle self + fst (uniform (-1) 1 s) * WANDER_STRENGTH * 2 in
  let q := (fst (Ant.pos self) + Ant.speed self * cos a',
            snd (Ant.pos self) + Ant.speed self * sin a') in
  let self' := fst (Ant.panic_update self s) in
  (Ant.inside q = true -> Ant.pos self' = q /\ Ant.angle self' = a') /\
  (Ant.inside q = false ->
   Ant.pos self'
   = (Rmin (Rmax (fst q) 20) (IZR SCREEN_WIDTH - 20),
      Rmin (Rmax (snd q) 20) (IZR SCREEN_HEIGHT - 20)) /\
   Ant.angle self'
   = a' + (PI + fst (uniform (- (1 / 2)) (1 / 2) (snd (uniform (-1) 1 s))))).
Proof.
  intros a' q self'. unfold self'.
  rewrite panic_update_eq, handle_boundaries_eq.
  change (Ant.pos
            (Ant.set_panic_timer
               (Ant.move
                  (Ant.set_angle self
                     (Ant.angle self + (-1 + (1 - -1) * s 0%nat) * WANDER_STRENGTH * 2)))
               (Ant.panic_timer self - 1))) with q.
  split; intros H; rewrite H; simpl; split; reflexivity.
Qed.

(** C8: An ant that starts from a full patience reset out of panic, smells a
    trail ahead on each of the next MAX_PATIENCE ticks and meets no further
    reset (no pickup, no arrival): its patience counts down by one per tick
    with the panic timer at 0, and the tick number MAX_PATIENCE sets the
    panic timer to PANIC_DURATION.  Each of the next PANIC_DURATION ticks
    runs the panic branch alone: the heading is perturbed by
    [uniform(-1, 1) * WANDER_STRENGTH * 2], the ant moves by its speed along
    the new heading, to pos + speed * (cos, sin), the panic timer is
    decremented and the boundaries are handled (a step that leaves the play
    rectangle is clipped into it and turns the heading by PI plus the
    jitter); the world, the task state and the patience are left as they
    were (no sensing, no interaction, no deposit).  After exactly
    PANIC_DURATION such ticks the timer is 0 and the next update runs the
    normal branch. *)
Theorem panic_after_max_patience
        (env : nat -> World -> World) (colony : vec)
        (start : Ant.t * World) (s : rng) :
  Ant.patience (fst start) = MAX_PATIENCE ->
  Ant.panic_timer (fst start) = 0%Z ->
  (forall k, (Z.of_nat k < MAX_PATIENCE)%Z ->
     on_trail (ant_at env colony start s k) (world_at env colony start s k) = true) ->
  (forall k, (Z.of_nat k < MAX_PATIENCE)%Z ->
     Ant.state (ant_at env colony start s (S k))
     = Ant.state (ant_at env colony start s k)) ->
  let ant := ant_at env colony start s in
  let world := world_at env colony start s in
  let gen := rng_at env colony start s in
  let N := Z.to_nat MAX_PATIENCE in
  let D := Z.to_nat PANIC_DURATION in
  (forall k, (k < N)%nat ->
     Ant.panic_timer (ant k) = 0%Z /\
     Ant.patience (ant k) = (MAX_PATIENCE - Z.of_nat k)%Z)
  /\
  (Ant.panic_timer (ant N) = PANIC_DURATION /\ Ant.patience (ant N) = MAX_PATIENCE)
  /\
  (forall j, (j < D)%nat ->
     let k := (N + j)%nat in
     Ant.panic_timer (ant k) = (PANIC_DURATION - Z.of_nat j)%Z /\
     (0 < Ant.panic_timer (ant k))%Z /\
     Ant.update (ant k) (world k) colony (gen k)
     = (fst (Ant.panic_update (ant k) (gen k)), world k,
        snd (Ant.panic_update (ant k) (gen k))) /\
     Ant.panic_update (ant k) (gen k)
     = Ant.handle_boundaries
         (Ant.set_panic_timer
            (Ant.move
               (Ant.set_angle (ant k)
                  (Ant.angle (ant k)
                   + fst (uniform (-1) 1 (gen k)) * WANDER_STRENGTH * 2)))
            (Ant.panic_timer (ant k) - 1))
         (snd (uniform (-1) 1 (gen k))) /\
     Ant.panic_timer (ant (S k)) = (Ant.panic_timer (ant k) - 1)%Z /\
     Ant.patience (ant (S k)) = Ant.patience (ant k) /\
     Ant.state (ant (S k)) = Ant.state (ant k) /\
     (let a' := Ant.angle (ant k)
                + fst (uniform (-1) 1 (gen k)) * WANDER_STRENGTH * 2 in
      let q := (fst (Ant.pos (ant k)) + Ant.speed (ant k) * cos a',
                snd (Ant.pos (ant k)) + Ant.speed (ant k) * sin a') in
      (Ant.inside q = true ->
       Ant.pos (ant (S k)) = q /\ Ant.angle (ant (S k)) = a') /\
      (Ant.inside q = false ->
       Ant.pos (ant (S k))
       = (Rmin (Rmax (fst q) 20) (IZR SCREEN_WIDTH - 20),
          Rmin (Rmax (snd q) 20) (IZR SCREEN_HEIGHT - 20)) /\
       Ant.angle (ant (S k))
       = a' + (PI + fst (uniform (- (1 / 2)) (1 / 2)
                           (snd (uniform (-1) 1 (gen k))))))) /\
     world (S k) = env k (world k))
  /\
  (Ant.panic_timer (ant (N + D)%nat) = 0%Z /\
   forall w' s', Ant.update (ant (N + D)%nat) w' colony s'
                 = Ant.normal_update (ant (N + D)%nat) w' colony s').
Proof.
  intros Hfull Hcalm Htrail Hquiet ant world gen N D.
  assert (HN : N = 300%nat) by reflexivity.
  assert (HD : Z.of_nat D = PANIC_DURATION) by reflexivity.
  assert (HM : MAX_PATIENCE = 300%Z) by reflexivity.
  assert (HP : PANIC_DURATION = 100%Z) by reflexivity.
  split; [| split; [| split]].
  - intros k Hk. apply patience_countdown; try assumption. lia.
  - apply panic_starts; assumption.
  - intros j Hj k.
    destruct (panic_countdown env colony start s Hfull Hcalm Htrail Hquiet j)
      as [P1 P2]; [lia|].
    fold N in P1, P2. fold k in P1, P2. fold ant in P1, P2.
    assert (Hpos : (0 < Ant.panic_timer (ant k))%Z) by (rewrite P1; lia).
    destruct (panic_step (ant k) (world k) colony (gen k) Hpos) as [E (F1 & F2 & F3)].
    assert (ES : ant (S k) = fst (Ant.panic_update (ant k) (gen k))).
    { unfold ant at 1. rewrite ant_at_S. fold ant world gen. rewrite E. reflexivity. }
    assert (EW : world (S k) = env k (world k)).
    { unfold world at 1. rewrite world_at_S. fold ant world gen. rewrite E.
      reflexivity. }
    split; [exact P1|]. split; [exact Hpos|]. split; [exact E|].
    split; [reflexivity|].
    rewrite ES.
    split; [exact F1|]. split; [exact F2|]. split; [exact F3|].
    split; [exact (panic_update_motion (ant k) (gen k)) | exact EW].
  - destruct (panic_countdown env colony start s Hfull Hcalm Htrail Hquiet D)
      as [P1 _]; [lia|].
    fold N in P1. fold ant in P1.
    assert (Z0 : Ant.panic_timer (ant (N + D)%nat) = 0%Z) by (rewrite P1; lia).
    split; [exact Z0|].
    intros w' s'. unfold Ant.update. rewrite Z0. reflexivity.
Qed.

(** *** A lone ant on a uniform food scent of 50 *)

Lemma interact_no_food (m : Ant.t) (w : World) (colony : vec) :
  Ant.state m = Ant.SEARCHING -> foods w = [] ->
  Ant.interact_with_objects m w colony =
  (m, mkWorld (deposit (Ant.pos m) (home_pheromones w)
                 (PHEROMONE_DEPOSIT_AMOUNT * (1 / 2)))
              (food_pheromones w) (foods w)).
Proof.
  intros Hm Hfs. unfold Ant.interact_with_objects. rewrite Hm, Hfs. reflexivity.
Qed.

Lemma scented_step (a : Ant.t) (w : World) (colony : vec) (s : rng) :
  scented a w ->
  scented (fst (fst (Ant.update a w colony s))) (snd (fst (Ant.update a w colony s))).
Proof.
  intros (Hp & Hst & Hfg & Hfs). unfold scented.
  split; [apply update_in_play|].
  destruct (Z_lt_le_dec 0 (Ant.panic_timer a)) as [Hpt | Hpt].
  - destruct (panic_step a w colony s Hpt) as [E (_ & _ & F3)].
    rewrite E. cbn [fst snd]. rewrite F3. auto.
  - rewrite update_normal by assumption. cbn [fst snd].
    assert (Hm : Ant.state (fst (Ant.advance a w colony s)) = Ant.SEARCHING).
    { destruct (advance_frame a w colony s) as [E _]. congruence. }
    rewrite (interact_no_food _ w colony Hm Hfs). simpl. auto.
Qed.

Lemma scented_run (colony : vec) (start : Ant.t * World) (s : rng) (k : nat) :
  scented (fst start) (snd start) ->
  scented (ant_at (fun _ w => w) colony start s k)
          (world_at (fun _ w => w) colony start s k).
Proof.
  intros H. induction k as [| k IH].
  - exact H.
  - rewrite ant_at_S, world_at_S. apply scented_step, IH.
Qed.

Lemma in_play_colony : in_play (640, 360).
Proof. unfold in_play; simpl; consts; lra. Qed.

(** That ant panics after 300 ticks and is out of panic 100 ticks later. *)
Lemma panic_after_max_patience_witness :
  let env : nat -> World -> World := fun _ w => w in
  let start := (Ant.mk (640, 360) 0 ANT_SPEED Ant.SEARCHING MAX_PATIENCE 0,
                mkWorld zeros (fun _ _ => 50) []) in
  let s : rng := fun _ => 1 / 2 in
  let ant := ant_at env (640, 360) start s in
  (Ant.panic_timer (ant 300%nat) = PANIC_DURATION /\
   Ant.patience (ant 300%nat) = MAX_PATIENCE) /\
  Ant.panic_timer (ant 400%nat) = 0%Z.
Proof.
  intros env start s ant.
  assert (H0 : scented (fst start) (snd start)).
  { unfold scented, start. simpl. repeat split; try reflexivity; apply in_play_colony. }
  assert (Hsc := fun k => scented_run (640, 360) start s k H0).
  assert (Htrail : forall k, (Z.of_nat k < MAX_PATIENCE)%Z ->
            on_trail (ant_at env (640, 360) start s k)
                     (world_at env (640, 360) start s k) = true).
  { intros k _. destruct (Hsc k) as (Hp & Hst & Hfg & _).
    apply (on_trail_const _ _ 50); [exact Hp | | lra].
    unfold scent_grid, env. rewrite Hst. exact Hfg. }
  assert (Hquiet : forall k, (Z.of_nat k < MAX_PATIENCE)%Z ->
            Ant.state (ant_at env (640, 360) start s (S k))
            = Ant.state (ant_at env (640, 360) start s k)).
  { intros k _. destruct (Hsc k) as (_ & Hst & _).
    destruct (Hsc (S k)) as (_ & Hst' & _). unfold env. congruence. }
  pose proof (panic_after_max_patience env (640, 360) start s
                eq_refl eq_refl Htrail Hquiet) as T.
  cbv zeta in T. destruct T as (_ & T2 & _ & T4 & _).
  split; [exact T2 | exact T4].
Defined.

(** * Further properties of the code *)

(** ** Invariants of the ants of the simulation *)

Lemma update_speed (self : Ant.t) (w : World) (colony : vec) (s : rng) :
  Ant.speed (fst (fst (Ant.update self w colony s))) = Ant.speed self.
Proof.
  destruct (Z_lt_le_dec 0 (Ant.panic_timer self)) as [Hp | Hp].
  - rewrite update_panic by assumption. simpl. rewrite panic_update_eq.
    match goal with |- context [Ant.handle_boundaries ?x ?y] =>
      destruct (handle_boundaries_frame x y) as (_ & _ & _ & E) end.
    rewrite E. reflexivity.
  - rewrite update_normal by assumption. simpl.
    destruct (interact_frame (fst (Ant.advance self w colony s)) w colony)
      as (_ & _ & E & _).
    rewrite E. apply advance_frame.
Qed.

Lemma update_ant_ok (self : Ant.t) (w : World) (colony : vec) (s : rng) :
  ant_ok self -> ant_ok (fst (fst (Ant.update self w colony s))).
Proof.
  intros (Hs & _ & Ht & Hfull). unfold ant_ok.
  split; [rewrite update_speed; exact Hs|].
  split; [apply update_in_play|].
  pose proof (update_patience self w colony s) as U. simpl in U.
  assert (HP : PANIC_DURATION = 100%Z) by reflexivity.
  destruct (0 <? Ant.panic_timer self)%Z eqn:E.
  - apply Z.ltb_lt in E. destruct U as [U1 U2]. rewrite U1, U2.
    split; [lia | intros _; apply Hfull, E].
  - apply Z.ltb_ge in E.
    destruct (patience_tested self w <=? 0)%Z.
    + destruct U as [U1 U2]. rewrite U1, U2. split; [lia | reflexivity].
    + destruct U as [_ U2]. rewrite U2. split; [lia | intros F; lia].
Qed.

Lemma reachable_ants_at_colony (gf : grid -> R -> grid) (P : Ant.t -> Prop) :
  (forall s, P (fst (Ant.init (IZR SCREEN_WIDTH / 2) (IZR SCREEN_HEIGHT / 2) s))) ->
  (forall a w c s, P a -> P (fst (fst (Ant.update a w c s)))) ->
  forall sim, reachable gf sim -> Forall P (Simulation.ants sim).
Proof.
  intros Hi Hu sim Hr. induction Hr as [s | sim clicks s Hr IH].
  - unfold Simulation.init. rewrite bind_eq. unfold ret.
    cbn [fst snd Simulation.ants].
    apply make_ants_Forall. intros s'. apply Hi.
  - unfold Simulation.frame, Simulation.update. rewrite bind_eq. unfold ret.
    cbn [fst snd Simulation.ants].
    apply update_ants_Forall; [exact Hu|].
    rewrite fold_add_food_ants. exact IH.
Qed.

Lemma make_ants_length (n : nat) (colony : vec) (s : rng) :
  length (fst (Simulation.make_ants n colony s)) = n.
Proof.
  revert s. induction n as [| n IH]; intros s; simpl; [reflexivity|].
  rewrite !bind_eq. simpl. rewrite IH. reflexivity.
Qed.

Lemma update_ants_length (l : list Ant.t) (w : World) (c : vec) (s : rng) :
  length (fst (fst (Simulation.update_ants l w c s))) = length l.
Proof.
  revert w s. induction l as [| a l IH]; intros w s; simpl; [reflexivity|].
  rewrite !bind_eq. simpl. rewrite IH. reflexivity.
Qed.

Lemma fold_add_food_frame (clicks : list (Z * Z)) (sim : Simulation.t) :
  Simulation.colony_pos (fold_left Simulation.add_food clicks sim)
  = Simulation.colony_pos sim /\
  Simulation.frame_count (fold_left Simulation.add_food clicks sim)
  = Simulation.frame_count sim.
Proof.
  revert sim. induction clicks as [| c l IH]; intros sim; simpl; [auto|].
  destruct (IH (Simulation.add_food sim c)) as [E1 E2]. rewrite E1, E2. auto.
Qed.

(** X1: In every state of the simulation every ant moves at ANT_SPEED, stands in
    the play rectangle, has its panic timer within [0, PANIC_DURATION] and,
    while the timer runs, a full patience. *)
Theorem simulation_ants_ok (gf : grid -> R -> grid) (sim : Simulation.t) :
  reachable gf sim -> Forall ant_ok (Simulation.ants sim).
Proof.
  apply reachable_ants_at_colony.
  - intros s. unfold ant_ok, in_play. simpl. consts.
    repeat split; try lra; try lia.
  - apply update_ant_ok.
Qed.

Lemma simulation_ants_ok_witness :
  Forall ant_ok
    (Simulation.ants
       (fst (Simulation.frame Blur.gaussian_filter [(5, 5)%Z]
               (fst (Simulation.init (fun _ => 1 / 2))) (fun _ => 1 / 2)))).
Proof.
  apply (simulation_ants_ok Blur.gaussian_filter).
  apply reach_frame, reach_init.
Defined.

(** X2: The simulation never creates or removes an ant and never moves the
    colony; its frame counter is never negative. *)
Theorem simulation_shape (gf : grid -> R -> grid) (sim : Simulation.t) :
  reachable gf sim ->
  length (Simulation.ants sim) = ANT_COUNT /\
  Simulation.colony_pos sim = (640, 360) /\
  (0 <= Simulation.frame_count sim)%Z.
Proof.
  intros Hr. induction Hr as [s | sim clicks s Hr (I1 & I2 & I3)].
  - unfold Simulation.init. rewrite bind_eq. unfold ret.
    cbn [fst snd Simulation.ants Simulation.colony_pos Simulation.frame_count].
    rewrite make_ants_length. split; [reflexivity|]. split; [| lia].
    unfold SCREEN_WIDTH, SCREEN_HEIGHT. f_equal; lra.
  - unfold Simulation.frame, Simulation.update. rewrite bind_eq. unfold ret.
    cbn [fst snd Simulation.ants Simulation.colony_pos Simulation.frame_count].
    rewrite update_ants_length, fold_add_food_ants.
    destruct (fold_add_food_frame clicks sim) as [E1 E2]. rewrite E1, E2.
    split; [exact I1|]. split; [exact I2 | lia].
Qed.

Lemma simulation_shape_witness :
  let sim := fst (Simulation.frame Blur.gaussian_filter [(5, 5)%Z]
                    (fst (Simulation.init (fun _ => 1 / 2))) (fun _ => 1 / 2)) in
  length (Simulation.ants sim) = ANT_COUNT /\
  Simulation.colony_pos sim = (640, 360) /\
  (0 <= Simulation.frame_count sim)%Z.
Proof.
  intros sim. apply (simulation_shape Blur.gaussian_filter).
  apply reach_frame, reach_init.
Defined.

(** ** Sensors and deposits of an ant of the play rectangle *)

Lemma on_grid_cell (p : vec) (g : grid) :
  on_grid p ->
  in_grid (Int_part (fst p)) (Int_part (snd p)) = true /\
  int (fst p) = Int_part (fst p) /\ int (snd p) = Int_part (snd p) /\
  get_pheromone_value p g = g (Int_part (snd p)) (Int_part (fst p)).
Proof.
  intros H. pose proof (proj2 (in_grid_floor p) H) as E.
  destruct H as [[Hx _] [Hy _]].
  split; [exact E|]. split; [apply int_nonneg, Hx|]. split; [apply int_nonneg, Hy|].
  unfold get_pheromone_value. rewrite !int_nonneg by assumption. rewrite E.
  reflexivity.
Qed.

Lemma in_play_on_grid (p : vec) : in_play p -> on_grid p.
Proof. unfold in_play, on_grid. consts. intros [Hx Hy]. lra. Qed.

(** X3: Each sensor of an ant of the play rectangle is at distance
    ANT_SENSOR_DISTANCE from the ant and on the grid, so a sample there is
    the cell at the floored coordinates: the 0 of line 93 is never
    returned. *)
Theorem sensors_read_cells (self : Ant.t) (a : R) (g : grid) :
  in_play (Ant.pos self) ->
  let p := Ant.sensor_pos self a in
  norm (vsub p (Ant.pos self)) = ANT_SENSOR_DISTANCE /\
  in_grid (Int_part (fst p)) (Int_part (snd p)) = true /\
  get_pheromone_value p g = g (Int_part (snd p)) (Int_part (fst p)).
Proof.
  intros Hp p. split.
  - unfold p, Ant.sensor_pos. rewrite norm_step.
    unfold ANT_SENSOR_DISTANCE. apply Rabs_pos_eq. lra.
  - destruct (sensor_on_grid self a Hp) as [Hx Hy].
    destruct (on_grid_cell p g (conj Hx Hy)) as (E1 & _ & _ & E4).
    split; assumption.
Qed.

Lemma sensors_read_cells_witness :
  let self := Ant.mk (100, 100) 0 ANT_SPEED Ant.SEARCHING MAX_PATIENCE 0 in
  let p := Ant.sensor_pos self (0 - ANT_SENSOR_ANGLE) in
  norm (vsub p (Ant.pos self)) = ANT_SENSOR_DISTANCE /\
  in_grid (Int_part (fst p)) (Int_part (snd p)) = true /\
  get_pheromone_value p zeros = zeros (Int_part (snd p)) (Int_part (fst p)).
Proof.
  intros self p.
  apply (sensors_read_cells self (0 - ANT_SENSOR_ANGLE) zeros).
  apply in_play_example.
Defined.

Lemma advance_in_play (self : Ant.t) (w : World) (colony : vec) (s : rng) :
  in_play (Ant.pos (fst (Ant.advance self w colony s))).
Proof. rewrite advance_eq. apply handle_boundaries_in_play. Qed.

Lemma deposit_in_play (p : vec) (g : grid) (amount : R) :
  in_play p ->
  in_grid (int (fst p)) (int (snd p)) = true /\
  deposit p g amount
  = grid_set g (int (snd p)) (int (fst p))
      (Rmin MAX_PHEROMONE (g (int (snd p)) (int (fst p)) + amount)).
Proof.
  intros H. apply in_play_on_grid in H.
  destruct (on_grid_cell p g H) as (E & Ex & Ey & _).
  rewrite <- Ex, <- Ey in E. split; [exact E|].
  unfold deposit. rewrite E. reflexivity.
Qed.

(** X4: A searching ant out of panic that finds no source to pick from leaves a
    breadcrumb: the cell of the home grid under its new position gets
    min(MAX_PHEROMONE, old + 250); the position is always on the grid, so
    the deposit is never skipped.  The ant itself, the food grid and the
    sources are as the move left them. *)
Theorem breadcrumb_deposit (self : Ant.t) (w : World) (colony : vec) (s : rng) :
  Ant.state self = Ant.SEARCHING ->
  (Ant.panic_timer self <= 0)%Z ->
  let moved := fst (Ant.advance self w colony s) in
  let x := int (fst (Ant.pos moved)) in
  let y := int (snd (Ant.pos moved)) in
  Forall (fun f => can_pick (Ant.pos moved) f = false) (foods w) ->
  in_grid x y = true /\
  fst (Ant.update self w colony s) =
    (moved,
     mkWorld (grid_set (home_pheromones w) y x
                (Rmin MAX_PHEROMONE (home_pheromones w y x + 250)))
             (food_pheromones w) (foods w)).
Proof.
  intros Es Hp moved x y Hno.
  destruct (deposit_in_play (Ant.pos moved) (home_pheromones w)
              (PHEROMONE_DEPOSIT_AMOUNT * (1 / 2)) (advance_in_play self w colony s))
    as [Hin Hd].
  split; [exact Hin|].
  rewrite update_normal by assumption. cbn [fst]. fold moved.
  unfold Ant.interact_with_objects.
  assert (Em : Ant.state moved = Ant.SEARCHING).
  { unfold moved. destruct (advance_frame self w colony s) as [E _]. congruence. }
  rewrite Em. apply pick_food_none in Hno. rewrite Hno, Hd.
  fold x y. replace (PHEROMONE_DEPOSIT_AMOUNT * (1 / 2)) with 250
    by (unfold PHEROMONE_DEPOSIT_AMOUNT; lra).
  reflexivity.
Qed.

Lemma breadcrumb_deposit_witness :
  let self := Ant.mk (100, 100) 0 ANT_SPEED Ant.SEARCHING MAX_PATIENCE 0 in
  let w := mkWorld zeros zeros [] in
  let s : rng := fun _ => 1 / 2 in
  let moved := fst (Ant.advance self w (640, 360) s) in
  let x := int (fst (Ant.pos moved)) in
  let y := int (snd (Ant.pos moved)) in
  in_grid x y = true /\
  fst (Ant.update self w (640, 360) s) =
    (moved,
     mkWorld (grid_set zeros y x (Rmin MAX_PHEROMONE (zeros y x + 250)))
             zeros []).
Proof.
  intros self w s moved x y.
  apply (breadcrumb_deposit self w (640, 360) s).
  - reflexivity.
  - simpl. lia.
  - constructor.
Defined.

(** X5: A carrying ant out of panic that ends its move outside the capture
    radius of the colony marks the trail: the cell of the food grid under
    its new position gets min(MAX_PHEROMONE, old + 500), never skipped;
    the ant, the home grid and the sources are as the move left them. *)
Theorem trail_deposit (self : Ant.t) (w : World) (colony : vec) (s : rng) :
  Ant.state self = Ant.CARRYING_FOOD ->
  (Ant.panic_timer self <= 0)%Z ->
  let moved := fst (Ant.advance self w colony s) in
  let x := int (fst (Ant.pos moved)) in
  let y := int (snd (Ant.pos moved)) in
  20 <= norm (vsub (Ant.pos moved) colony) ->
  in_grid x y = true /\
  fst (Ant.update self w colony s) =
    (moved,
     mkWorld (home_pheromones w)
             (grid_set (food_pheromones w) y x
                (Rmin MAX_PHEROMONE (food_pheromones w y x + 500)))
             (foods w)).
Proof.
  intros Es Hp moved x y Hfar.
  destruct (deposit_in_play (Ant.pos moved) (food_pheromones w)
              PHEROMONE_DEPOSIT_AMOUNT (advance_in_play self w colony s))
    as [Hin Hd].
  split; [exact Hin|].
  rewrite update_normal by assumption. cbn [fst]. fold moved.
  unfold Ant.interact_with_objects.
  assert (Em : Ant.state moved = Ant.CARRYING_FOOD).
  { unfold moved. destruct (advance_frame self w colony s) as [E _]. congruence. }
  rewrite Em. apply Rltb_false in Hfar. rewrite Hfar, Hd. reflexivity.
Qed.

Lemma norm_ge_fst (v : vec) : Rabs (fst v) <= norm v.
Proof.
  unfold norm. rewrite <- sqrt_Rsqr_abs. apply sqrt_le_1_alt.
  unfold Rsqr. nra.
Qed.

Lemma trail_deposit_witness :
  let self := Ant.mk (640, 360) 0 ANT_SPEED Ant.CARRYING_FOOD MAX_PATIENCE 0 in
  let w := mkWorld zeros zeros [] in
  let s : rng := fun _ => 1 / 2 in
  let moved := fst (Ant.advance self w (100, 360) s) in
  let x := int (fst (Ant.pos moved)) in
  let y := int (snd (Ant.pos moved)) in
  in_grid x y = true /\
  fst (Ant.update self w (100, 360) s) =
    (moved,
     mkWorld zeros
             (grid_set zeros y x (Rmin MAX_PHEROMONE (zeros y x + 500)))
             []).
Proof.
  intros self w s moved x y.
  apply (trail_deposit self w (100, 360) s).
  - reflexivity.
  - simpl. lia.
  - destruct (advance_pos self w (100, 360) s interior_colony eq_refl) as [a E].
    cbv zeta. rewrite E.
    eapply Rle_trans; [| apply norm_ge_fst].
    unfold vsub, vadd, vscale, direction, ANT_SPEED. simpl.
    pose proof (COS_bound a). rewrite Rabs_pos_eq; lra.
Defined.

(** ** What one update leaves alone *)

Lemma deposit_other_cell (p : vec) (g : grid) (amount : R) (y x : Z) :
  (y, x) <> (int (snd p), int (fst p)) -> deposit p g amount y x = g y x.
Proof.
  intros H. unfold deposit. destruct (in_grid _ _); [| reflexivity].
  unfold grid_set.
  destruct (y =? int (snd p))%Z eqn:Ey; destruct (x =? int (fst p))%Z eqn:Ex;
    simpl; try reflexivity.
  apply Z.eqb_eq in Ey, Ex. subst. contradiction.
Qed.

Lemma deposit_raises (p : vec) (g : grid) (amount : R) (y x : Z) :
  0 <= amount -> grid_ok g -> g y x <= deposit p g amount y x.
Proof.
  intros Ha Hg. unfold deposit.
  destruct (in_grid (int (fst p)) (int (snd p))) eqn:E; [| lra].
  unfold grid_set.
  destruct (y =? int (snd p))%Z eqn:Ey; destruct (x =? int (fst p))%Z eqn:Ex;
    simpl; try lra.
  apply Z.eqb_eq in Ey, Ex. subst.
  specialize (Hg _ _ E). unfold Rmin.
  destruct (Rle_dec MAX_PHEROMONE (g (int (snd p)) (int (fst p)) + amount)); lra.
Qed.

Lemma interact_grid_frame (m : Ant.t) (w : World) (colony : vec) :
  let w' := snd (Ant.interact_with_objects m w colony) in
  (Ant.state m = Ant.SEARCHING -> food_pheromones w' = food_pheromones w) /\
  (Ant.state m = Ant.CARRYING_FOOD -> home_pheromones w' = home_pheromones w) /\
  (forall y x, (y, x) <> (int (snd (Ant.pos m)), int (fst (Ant.pos m))) ->
     home_pheromones w' y x = home_pheromones w y x /\
     food_pheromones w' y x = food_pheromones w y x) /\
  (world_ok w -> forall y x,
     home_pheromones w y x <= home_pheromones w' y x /\
     food_pheromones w y x <= food_pheromones w' y x).
Proof.
  simpl. unfold Ant.interact_with_objects.
  assert (A1 : 0 <= PHEROMONE_DEPOSIT_AMOUNT * (1 / 2))
    by (unfold PHEROMONE_DEPOSIT_AMOUNT; lra).
  assert (A2 : 0 <= PHEROMONE_DEPOSIT_AMOUNT)
    by (unfold PHEROMONE_DEPOSIT_AMOUNT; lra).
  destruct (Ant.state m) eqn:E.
  - destruct (Ant.pick_food (Ant.pos m) (foods w)); simpl.
    + repeat split; intros; try reflexivity; try discriminate; lra.
    + split; [reflexivity|]. split; [discriminate|]. split.
      * intros y x H. split; [apply deposit_other_cell, H | reflexivity].
      * intros [Hh _] y x. split; [apply deposit_raises; assumption | lra].
  - destruct (Rltb _ 20); simpl.
    + repeat split; intros; try reflexivity; try discriminate; lra.
    + split; [discriminate|]. split; [reflexivity|]. split.
      * intros y x H. split; [reflexivity | apply deposit_other_cell, H].
      * intros [_ Hf] y x. split; [lra | apply deposit_raises; assumption].
Qed.

(** X6: One update writes at most one cell, the cell under the new position of
    the ant, and never lowers a cell of grids within their bounds; an ant
    that starts the tick searching leaves the food grid as it is, one that
    starts it carrying leaves the home grid as it is, and an ant in panic
    leaves the whole world as it is. *)
Theorem update_grid_frame (self : Ant.t) (w : World) (colony : vec) (s : rng) :
  let self' := fst (fst (Ant.update self w colony s)) in
  let w' := snd (fst (Ant.update self w colony s)) in
  (Ant.state self = Ant.SEARCHING -> food_pheromones w' = food_pheromones w) /\
  (Ant.state self = Ant.CARRYING_FOOD -> home_pheromones w' = home_pheromones w) /\
  ((0 < Ant.panic_timer self)%Z -> w' = w) /\
  (forall y x, (y, x) <> (int (snd (Ant.pos self')), int (fst (Ant.pos self'))) ->
     home_pheromones w' y x = home_pheromones w y x /\
     food_pheromones w' y x = food_pheromones w y x) /\
  (world_ok w -> forall y x,
     home_pheromones w y x <= home_pheromones w' y x /\
     food_pheromones w y x <= food_pheromones w' y x).
Proof.
  intros self' w'.
  destruct (Z_lt_le_dec 0 (Ant.panic_timer self)) as [Hp | Hp].
  - unfold self', w'. rewrite update_panic by assumption. cbn [fst snd].
    repeat split; intros; try reflexivity; lra.
  - unfold self', w'. rewrite update_normal by assumption. cbn [fst snd].
    set (m := fst (Ant.advance self w colony s)).
    assert (Em : Ant.state m = Ant.state self) by (unfold m; apply advance_frame).
    destruct (interact_frame m w colony) as (Epos & _).
    destruct (interact_grid_frame m w colony) as (F1 & F2 & F3 & F4).
    rewrite Epos. rewrite Em in F1, F2.
    split; [exact F1|]. split; [exact F2|]. split; [intros; lia|].
    split; [exact F3 | exact F4].
Qed.

Lemma world_ok_zeros (fs : list Food.t) : world_ok (mkWorld zeros zeros fs).
Proof. split; apply zeros_ok. Qed.

Lemma update_grid_frame_witness :
  let self := Ant.mk (100, 100) 0 ANT_SPEED Ant.SEARCHING MAX_PATIENCE 0 in
  let w := mkWorld zeros zeros [] in
  let s : rng := fun _ => 1 / 2 in
  let w' := snd (fst (Ant.update self w (640, 360) s)) in
  food_pheromones w' = zeros /\
  forall y x, zeros y x <= home_pheromones w' y x /\ zeros y x <= food_pheromones w' y x.
Proof.
  intros self w s w'.
  destruct (update_grid_frame self w (640, 360) s) as (F1 & _ & _ & _ & F5).
  split; [apply F1; reflexivity | apply F5, world_ok_zeros].
Defined.

(** ** The food registry *)

Lemma pick_food_registry (p : vec) (fs fs' : list Food.t) :
  Ant.pick_food p fs = Some fs' ->
  map Food.pos fs' = map Food.pos fs /\
  total_food fs' = (total_food fs - 1)%Z.
Proof.
  revert fs'. induction fs as [| g fs IH]; intros fs' H; simpl in H.
  - discriminate.
  - destruct (Rltb _ 10 && (0 <? Food.amount g)%Z).
    + inversion H; subst. simpl. split; [reflexivity | lia].
    + destruct (Ant.pick_food p fs) as [rest |]; [| discriminate].
      inversion H; subst. destruct (IH rest eq_refl) as [I1 I2].
      simpl. rewrite I1, I2. split; [reflexivity | lia].
Qed.

Lemma interact_registry (m : Ant.t) (w : World) (colony : vec) :
  let r := Ant.interact_with_objects m w colony in
  map Food.pos (foods (snd r)) = map Food.pos (foods w) /\
  total_food (foods (snd r))
  = (total_food (foods w) - (if picked_up m (fst r) then 1 else 0))%Z.
Proof.
  simpl. unfold Ant.interact_with_objects, picked_up.
  destruct (Ant.state m) eqn:E.
  - destruct (Ant.pick_food (Ant.pos m) (foods w)) eqn:P; simpl.
    + destruct (pick_food_registry _ _ _ P) as [I1 I2]. split; assumption.
    + rewrite E. split; [reflexivity | lia].
  - destruct (Rltb _ 20); simpl; split; try reflexivity; lia.
Qed.

Lemma update_registry_totals (self : Ant.t) (w : World) (colony : vec) (s : rng) :
  let self' := fst (fst (Ant.update self w colony s)) in
  let w' := snd (fst (Ant.update self w colony s)) in
  map Food.pos (foods w') = map Food.pos (foods w) /\
  total_food (foods w')
  = (total_food (foods w) - (if picked_up self self' then 1 else 0))%Z.
Proof.
  intros self' w'.
  destruct (Z_lt_le_dec 0 (Ant.panic_timer self)) as [Hp | Hp].
  - unfold self', w'. destruct (panic_step self w colony s Hp) as [E (_ & _ & F3)].
    rewrite E. cbn [fst snd]. unfold picked_up. rewrite F3.
    split; [reflexivity|]. destruct (Ant.state self); lia.
  - unfold self', w'. rewrite update_normal by assumption. cbn [fst snd].
    set (m := fst (Ant.advance self w colony s)).
    assert (Em : Ant.state m = Ant.state self) by (unfold m; apply advance_frame).
    destruct (interact_registry m w colony) as [I1 I2].
    assert (Ep : forall a, picked_up self a = picked_up m a)
      by (intros a; unfold picked_up; rewrite Em; reflexivity).
    rewrite Ep. split; [exact I1 | exact I2].
Qed.

(** X7: One update never adds, removes or moves a source, and takes one unit
    of food exactly when it turns a searching ant into a carrying one;
    otherwise every amount is as before. *)
Theorem update_food_registry (self : Ant.t) (w : World) (colony : vec) (s : rng) :
  let self' := fst (fst (Ant.update self w colony s)) in
  let w' := snd (fst (Ant.update self w colony s)) in
  map Food.pos (foods w') = map Food.pos (foods w) /\
  total_food (foods w')
  = (total_food (foods w) - (if picked_up self self' then 1 else 0))%Z /\
  (picked_up self self' = false -> foods w' = foods w).
Proof.
  intros self' w'.
  destruct (update_registry_totals self w colony s) as [T1 T2].
  split; [exact T1|]. split; [exact T2|].
  destruct (Z_lt_le_dec 0 (Ant.panic_timer self)) as [Hp | Hp].
  - unfold self', w'. rewrite update_panic by assumption. reflexivity.
  - unfold self', w'. rewrite update_normal by assumption. cbn [fst snd].
    set (m := fst (Ant.advance self w colony s)).
    assert (Em : Ant.state m = Ant.state self) by (unfold m; apply advance_frame).
    unfold picked_up. rewrite <- Em. unfold Ant.interact_with_objects.
    destruct (Ant.state m) eqn:E.
    + destruct (Ant.pick_food (Ant.pos m) (foods w)); simpl;
        [discriminate | reflexivity].
    + destruct (Rltb _ 20); reflexivity.
Qed.

Lemma update_ants_food (l : list Ant.t) (w : World) (c : vec) (s : rng) :
  let r := fst (Simulation.update_ants l w c s) in
  map Food.pos (foods (snd r)) = map Food.pos (foods w) /\
  total_food (foods (snd r)) = (total_food (foods w) - pickups l (fst r))%Z /\
  (0 <= pickups l (fst r) <= Z.of_nat (length l))%Z.
Proof.
  revert w s. induction l as [| a l IH]; intros w s; simpl.
  - split; [reflexivity|]. split; lia.
  - rewrite !bind_eq. cbn [fst snd ret].
    destruct (update_registry_totals a w c s) as (U1 & U2).
    set (u := Ant.update a w c s) in *.
    destruct (IH (snd (fst u)) (snd u)) as (I1 & I2 & I3).
    unfold ret. cbn [fst snd]. simpl pickups.
    rewrite I1, I2, U1, U2.
    split; [reflexivity|]. split; [lia|].
    destruct (picked_up a (fst (fst u))); lia.
Qed.

(** X8: Food is conserved over a frame: after [Simulation.update] the total
    amount of the sources is the total before minus the number of ants that
    picked up food in the frame; the sources keep their number, order and
    positions, and evaporation and diffusion do not touch them. *)
Theorem frame_conserves_food (gf : grid -> R -> grid) (sim : Simulation.t) (s : rng) :
  let sim' := fst (Simulation.update gf sim s) in
  map Food.pos (foods (Simulation.world sim'))
  = map Food.pos (foods (Simulation.world sim)) /\
  total_food (foods (Simulation.world sim'))
  = (total_food (foods (Simulation.world sim))
     - pickups (Simulation.ants sim) (Simulation.ants sim'))%Z /\
  (0 <= pickups (Simulation.ants sim) (Simulation.ants sim')
   <= Z.of_nat (length (Simulation.ants sim)))%Z.
Proof.
  intros sim'. unfold sim', Simulation.update. rewrite bind_eq. unfold ret.
  cbn [fst snd Simulation.world Simulation.ants foods evaporation].
  apply update_ants_food.
Qed.

(** ** Bounces and steps *)

Lemma inside_false (p : vec) :
  Ant.inside p = false ->
  fst p <= 20 \/ IZR SCREEN_WIDTH - 20 <= fst p \/
  snd p <= 20 \/ IZR SCREEN_HEIGHT - 20 <= snd p.
Proof.
  intros H.
  destruct (Rle_lt_dec (fst p) 20) as [A | A]; [auto|].
  destruct (Rle_lt_dec (IZR SCREEN_WIDTH - 20) (fst p)) as [B | B]; [auto|].
  destruct (Rle_lt_dec (snd p) 20) as [C | C]; [auto|].
  destruct (Rle_lt_dec (IZR SCREEN_HEIGHT - 20) (snd p)) as [D | D]; [auto|].
  assert (T : Ant.inside p = true) by (apply inside_true; lra).
  congruence.
Qed.

Lemma clip_on_margin (p : vec) : Ant.inside p = false -> on_margin (Ant.clip p).
Proof.
  intros H. apply inside_false in H. revert H.
  unfold on_margin, Ant.clip. simpl. consts. unfold Rmin, Rmax.
  intros H.
  repeat match goal with |- context [Rle_dec ?a ?b] => destruct (Rle_dec a b) end;
    lra.
Qed.

(** X9: The handler leaves an ant strictly inside the play rectangle untouched
    and draws nothing.  When it fires it puts the ant exactly on the margin
    of the rectangle, where the strict test fails again (a second call
    would bounce once more), and it turns the heading by PI plus a jitter
    within [-0.5, 0.5), drawing once. *)
Theorem bounce_lands_on_margin (self : Ant.t) (s : rng) :
  (Ant.inside (Ant.pos self) = true -> Ant.handle_boundaries self s = (self, s)) /\
  (Ant.inside (Ant.pos self) = false ->
   let self' := fst (Ant.handle_boundaries self s) in
   Ant.pos self' = Ant.clip (Ant.pos self) /\
   on_margin (Ant.pos self') /\ in_play (Ant.pos self') /\
   Ant.inside (Ant.pos self') = false /\
   snd (Ant.handle_boundaries self s) = tail s /\
   (rng_ok s -> PI - 1 / 2 <= Ant.angle self' - Ant.angle self < PI + 1 / 2)).
Proof.
  split; intros H; rewrite handle_boundaries_eq, H; [reflexivity|].
  cbn [fst snd Ant.pos Ant.angle Ant.set_angle Ant.set_pos].
  pose proof (clip_on_margin _ H) as M.
  split; [reflexivity|]. split; [exact M|]. split; [apply clip_in_play|].
  split.
  - destruct (Ant.inside (Ant.clip (Ant.pos self))) eqn:E; [| reflexivity].
    apply inside_true in E. unfold on_margin in M. lra.
  - split; [reflexivity|]. intros Hs. specialize (Hs 0%nat). lra.
Qed.

Lemma bounce_lands_on_margin_witness :
  let self := Ant.mk (5, 100) 0 ANT_SPEED Ant.SEARCHING MAX_PATIENCE 0 in
  let s : rng := fun _ => 1 / 2 in
  let self' := fst (Ant.handle_boundaries self s) in
  Ant.pos self' = Ant.clip (Ant.pos self) /\
  on_margin (Ant.pos self') /\ in_play (Ant.pos self') /\
  Ant.inside (Ant.pos self') = false /\
  snd (Ant.handle_boundaries self s) = tail s /\
  (rng_ok s -> PI - 1 / 2 <= Ant.angle self' - Ant.angle self < PI + 1 / 2).
Proof.
  intros self s.
  apply (proj2 (bounce_lands_on_margin self s)).
  unfold Ant.inside, self. simpl.
  replace (Rltb 20 5) with false; [reflexivity|].
  symmetry. apply Rltb_false. lra.
Defined.

Lemma handle_boundaries_pos (self : Ant.t) (s : rng) :
  Ant.pos (fst (Ant.handle_boundaries self s))
  = if Ant.inside (Ant.pos self) then Ant.pos self else Ant.clip (Ant.pos self).
Proof.
  rewrite handle_boundaries_eq. destruct (Ant.inside (Ant.pos self)); reflexivity.
Qed.

Lemma norm_mono (a1 a2 b1 b2 : R) :
  a1 * a1 <= b1 * b1 -> a2 * a2 <= b2 * b2 -> norm (a1, a2) <= norm (b1, b2).
Proof.
  intros H1 H2. unfold norm. simpl. apply sqrt_le_1_alt. lra.
Qed.

Lemma clip_component (q p hi : R) :
  20 <= p <= hi ->
  (Rmin (Rmax q 20) hi - p) * (Rmin (Rmax q 20) hi - p) <= (q - p) * (q - p).
Proof.
  intros Hp.
  assert (B : 0 <= Rmin (Rmax q 20) hi - p <= q - p \/
              q - p <= Rmin (Rmax q 20) hi - p <= 0).
  { destruct (Rle_lt_dec p q); [left | right];
      unfold Rmax; destruct (Rle_dec q 20);
      unfold Rmin; destruct (Rle_dec _ hi); lra. }
  destruct B as [B | B]; nra.
Qed.

(** Clipping toward the rectangle never takes a point further from a point
    of the rectangle. *)
Lemma clip_nonexpansive (p q : vec) :
  in_play p -> norm (vsub (Ant.clip q) p) <= norm (vsub q p).
Proof.
  intros [Hx Hy]. unfold vsub, Ant.clip. simpl.
  apply norm_mono; apply clip_component; assumption.
Qed.

Lemma step_displacement (b : Ant.t) (s : rng) :
  in_play (Ant.pos b) ->
  norm (vsub (Ant.pos (fst (Ant.handle_boundaries (Ant.move b) s))) (Ant.pos b))
  <= Rabs (Ant.speed b).
Proof.
  intros Hp. rewrite handle_boundaries_pos.
  assert (E : norm (vsub (Ant.pos (Ant.move b)) (Ant.pos b)) = Rabs (Ant.speed b))
    by (unfold Ant.move; simpl; apply norm_step).
  destruct (Ant.inside (Ant.pos (Ant.move b))); [rewrite E; lra|].
  rewrite <- E. apply clip_nonexpansive, Hp.
Qed.

(** X10: An ant of the play rectangle that moves at ANT_SPEED is, after one
    update, at most ANT_SPEED away from where it was, in the panic branch
    and in the normal branch, bounce or not. *)
Theorem update_displacement (self : Ant.t) (w : World) (colony : vec) (s : rng) :
  in_play (Ant.pos self) -> Ant.speed self = ANT_SPEED ->
  norm (vsub (Ant.pos (fst (fst (Ant.update self w colony s)))) (Ant.pos self))
  <= ANT_SPEED.
Proof.
  intros Hp Hs.
  assert (A : Rabs ANT_SPEED = ANT_SPEED)
    by (unfold ANT_SPEED; apply Rabs_pos_eq; lra).
  destruct (Z_lt_le_dec 0 (Ant.panic_timer self)) as [Ht | Ht].
  - rewrite update_panic by assumption. cbn [fst]. rewrite panic_update_eq.
    set (a := Ant.angle self + (-1 + (1 - -1) * s 0%nat) * WANDER_STRENGTH * 2).
    pose proof (step_displacement (Ant.set_angle self a) (tail s) Hp) as D.
    rewrite handle_boundaries_pos in *. simpl in *. rewrite Hs in *.
    rewrite A in D. exact D.
  - rewrite update_normal by assumption. cbn [fst].
    destruct (interact_frame (fst (Ant.advance self w colony s)) w colony) as [E _].
    rewrite E, advance_eq.
    set (d := Ant.decide self w colony s).
    set (b := Ant.bookkeeping (fst (fst d)) (snd (fst d))).
    destruct (bookkeeping_frame (fst (fst d)) (snd (fst d))) as (B1 & _ & _ & B4).
    destruct (decide_frame self w colony s) as (_ & _ & D3 & _ & _ & D6).
    fold d in D3, D6. fold b in B1, B4.
    assert (Eb : Ant.pos b = Ant.pos self) by congruence.
    assert (Es : Ant.speed b = ANT_SPEED) by congruence.
    pose proof (step_displacement b (snd d)) as D.
    rewrite Eb, Es, A in D. apply D, Hp.
Qed.

Lemma update_displacement_witness :
  let self := Ant.mk (21, 100) PI ANT_SPEED Ant.SEARCHING MAX_PATIENCE 0 in
  let w := mkWorld zeros zeros [] in
  let s : rng := fun _ => 1 / 2 in
  norm (vsub (Ant.pos (fst (fst (Ant.update self w (640, 360) s)))) (Ant.pos self))
  <= ANT_SPEED.
Proof.
  intros self w s.
  apply (update_displacement self w (640, 360) s).
  - unfold in_play, self. simpl. consts. lra.
  - reflexivity.
Defined.

(** ** When panic starts *)

(** X11: An ant out of panic with patience in [1, MAX_PATIENCE] enters panic in
    a tick exactly when it is on a trail with its last unit of patience;
    in every other tick its panic timer stays 0.  Off the trail its
    patience recovers by 2 up to the cap, or is set to the cap by a pickup
    or an arrival. *)
Theorem panic_entry (self : Ant.t) (w : World) (colony : vec) (s : rng) :
  patience_pos self -> Ant.panic_timer self = 0%Z ->
  let self' := fst (fst (Ant.update self w colony s)) in
  (Ant.panic_timer self' = PANIC_DURATION <->
   (on_trail self w = true /\ Ant.patience self = 1%Z)) /\
  (Ant.panic_timer self' = PANIC_DURATION \/ Ant.panic_timer self' = 0%Z) /\
  (on_trail self w = false ->
   (Z.min MAX_PATIENCE (Ant.patience self + 2) <= Ant.patience self' <= MAX_PATIENCE)%Z).
Proof.
  intros Hpa Hpt self'.
  pose proof (update_patience self w colony s) as U. simpl in U. fold self' in U.
  rewrite Hpt in U. simpl in U. unfold patience_tested in U.
  unfold patience_pos in Hpa.
  assert (HM : MAX_PATIENCE = 300%Z) by reflexivity.
  assert (HP : PANIC_DURATION = 100%Z) by reflexivity.
  destruct (on_trail self w).
  - destruct (Ant.patience self - 1 <=? 0)%Z eqn:E.
    + apply Z.leb_le in E. destruct U as [_ U2].
      split; [split; [intros _; split; [reflexivity | lia] | intros _; exact U2]|].
      split; [left; exact U2 | discriminate].
    + apply Z.leb_gt in E. destruct U as [_ U2].
      split; [split; [intros F; lia | intros [_ F]; lia]|].
      split; [right; exact U2 | discriminate].
  - destruct (Z.min MAX_PATIENCE (Ant.patience self + 2) <=? 0)%Z eqn:E.
    + apply Z.leb_le in E. lia.
    + destruct U as [U1 U2].
      split; [split; [intros F; lia | intros [F _]; discriminate]|].
      split; [right; exact U2|]. intros _. destruct U1 as [U1 | U1]; lia.
Qed.

Lemma panic_entry_witness :
  let self := Ant.mk (100, 100) 0 ANT_SPEED Ant.SEARCHING 1 0 in
  let w := mkWorld zeros (fun _ _ => 50) [] in
  let s : rng := fun _ => 1 / 2 in
  Ant.panic_timer (fst (fst (Ant.update self w (640, 360) s))) = PANIC_DURATION.
Proof.
  intros self w s.
  assert (Hpa : patience_pos self) by (unfold patience_pos; simpl; consts; lia).
  destruct (panic_entry self w (640, 360) s Hpa eq_refl) as [[_ T] _].
  apply T. split; [| reflexivity].
  apply (on_trail_const self w 50); [apply in_play_example | reflexivity | lra].
Defined.

(** ** Steering while carrying *)

Lemma decide_carrying_angle (self : Ant.t) (w : World) (colony : vec) (s : rng) :
  Ant.state self = Ant.CARRYING_FOOD ->
  Ant.angle (fst (fst (Ant.decide self w colony s))) =
    fst (Ant.steer_carrying (Ant.angle self) (angle_to_colony self colony)
           (confidence self w colony (Ant.angle self))
           (confidence self w colony (Ant.angle self - ANT_SENSOR_ANGLE))
           (confidence self w colony (Ant.angle self + ANT_SENSOR_ANGLE)) s) /\
  snd (Ant.decide self w colony s) =
    snd (Ant.steer_carrying (Ant.angle self) (angle_to_colony self colony)
           (confidence self w colony (Ant.angle self))
           (confidence self w colony (Ant.angle self - ANT_SENSOR_ANGLE))
           (confidence self w colony (Ant.angle self + ANT_SENSOR_ANGLE)) s).
Proof.
  intros E. unfold Ant.decide, confidence, home_smell, angle_to_colony.
  rewrite E. rewrite bind_eq. simpl. split; reflexivity.
Qed.

Lemma steer_carrying_cases (a c ca cl cr : R) (s : rng) :
  (ca > cl -> ca > cr ->
   Ant.steer_carrying a c ca cl cr s = Ant.wander a WANDER_STRENGTH s) /\
  (~ (ca > cl /\ ca > cr) -> cl > cr ->
   Ant.steer_carrying a c ca cl cr s = (a - ANT_ROTATION_SPEED, s)) /\
  (~ (ca > cl /\ ca > cr) -> cr > cl ->
   Ant.steer_carrying a c ca cl cr s = (a + ANT_ROTATION_SPEED, s)) /\
  (ca <= cl -> cl = cr ->
   Ant.steer_carrying a c ca cl cr s = (a + wrap (c - a) * ANT_ROTATION_SPEED, s)).
Proof.
  unfold Ant.steer_carrying, wrap.
  assert (F : ~ (ca > cl /\ ca > cr) -> Rgtb ca cl && Rgtb ca cr = false).
  { intros N. destruct (Rgtb ca cl) eqn:E1; destruct (Rgtb ca cr) eqn:E2;
      try reflexivity.
    apply Rgtb_true in E1, E2. tauto. }
  repeat split.
  - intros H1 H2. apply Rgtb_true in H1, H2. rewrite H1, H2. reflexivity.
  - intros N H. rewrite (F N). apply Rgtb_true in H. rewrite H. reflexivity.
  - intros N H. rewrite (F N).
    assert (E : Rgtb cl cr = false) by (apply Rgtb_false; lra).
    apply Rgtb_true in H. rewrite E, H. reflexivity.
  - intros H1 H2. rewrite F by lra.
    assert (E1 : Rgtb cl cr = false) by (apply Rgtb_false; lra).
    assert (E2 : Rgtb cr cl = false) by (apply Rgtb_false; lra).
    rewrite E1, E2. reflexivity.
Qed.

Lemma decide_carrying_turns (self : Ant.t) (w : World) (colony : vec) (s : rng) :
  Ant.state self = Ant.CARRYING_FOOD ->
  let ca := confidence self w colony (Ant.angle self) in
  let cl := confidence self w colony (Ant.angle self - ANT_SENSOR_ANGLE) in
  let cr := confidence self w colony (Ant.angle self + ANT_SENSOR_ANGLE) in
  let a' := Ant.angle (fst (fst (Ant.decide self w colony s))) in
  (~ (ca > cl /\ ca > cr) -> cl > cr -> a' = Ant.angle self - ANT_ROTATION_SPEED) /\
  (~ (ca > cl /\ ca > cr) -> cr > cl -> a' = Ant.angle self + ANT_ROTATION_SPEED) /\
  (ca <= cl -> cl = cr ->
   a' = Ant.angle self
        + wrap (angle_to_colony self colony - Ant.angle self) * ANT_ROTATION_SPEED).
Proof.
  intros E ca cl cr a'.
  destruct (decide_carrying_angle self w colony s E) as [Ea _].
  fold ca cl cr a' in Ea.
  destruct (steer_carrying_cases (Ant.angle self) (angle_to_colony self colony)
              ca cl cr s) as (_ & C2 & C3 & C4).
  repeat split; intros H1 H2; rewrite Ea.
  - rewrite C2 by assumption. reflexivity.
  - rewrite C3 by assumption. reflexivity.
  - rewrite C4 by assumption. reflexivity.
Qed.

(** X12: A carrying ant in the normal branch, with the confidences of its ahead,
    left and right headings: when ahead is strictly the highest the heading
    gets the random wander; otherwise it turns by the rotation step toward
    the left when left beats right and toward the right when right beats
    left; when left and right tie and ahead does not beat them it turns by
    the fraction ANT_ROTATION_SPEED of the wrapped bearing error toward the
    colony, without drawing.  These four cases are all there are. *)
Theorem carrying_decision (self : Ant.t) (w : World) (colony : vec) (s : rng) :
  Ant.state self = Ant.CARRYING_FOOD ->
  let ca := confidence self w colony (Ant.angle self) in
  let cl := confidence self w colony (Ant.angle self - ANT_SENSOR_ANGLE) in
  let cr := confidence self w colony (Ant.angle self + ANT_SENSOR_ANGLE) in
  let d := Ant.decide self w colony s in
  (ca > cl -> ca > cr ->
   Ant.angle (fst (fst d))
   = Ant.angle self + fst (uniform (-1) 1 s) * WANDER_STRENGTH /\ snd d = tail s) /\
  (~ (ca > cl /\ ca > cr) -> cl > cr ->
   Ant.angle (fst (fst d)) = Ant.angle self - ANT_ROTATION_SPEED /\ snd d = s) /\
  (~ (ca > cl /\ ca > cr) -> cr > cl ->
   Ant.angle (fst (fst d)) = Ant.angle self + ANT_ROTATION_SPEED /\ snd d = s) /\
  (ca <= cl -> cl = cr ->
   Ant.angle (fst (fst d))
   = Ant.angle self
     + wrap (angle_to_colony self colony - Ant.angle self) * ANT_ROTATION_SPEED /\
   snd d = s).
Proof.
  intros E ca cl cr d.
  destruct (decide_carrying_angle self w colony s E) as [Ea Es].
  fold ca cl cr d in Ea, Es.
  destruct (steer_carrying_cases (Ant.angle self) (angle_to_colony self colony)
              ca cl cr s) as (C1 & C2 & C3 & C4).
  repeat split; try intros H1 H2.
  - rewrite Ea, C1 by assumption. reflexivity.
  - rewrite Es, C1 by assumption. reflexivity.
  - rewrite Ea, C2 by assumption. reflexivity.
  - rewrite Es, C2 by assumption. reflexivity.
  - rewrite Ea, C3 by assumption. reflexivity.
  - rewrite Es, C3 by assumption. reflexivity.
  - rewrite Ea, C4 by assumption. reflexivity.
  - rewrite Es, C4 by assumption. reflexivity.
Qed.

(** *** The turn toward the colony *)

Lemma float_mod_shift (r b : R) (q : Z) :
  0 < b -> 0 <= r < b -> float_mod (r + b * IZR q) b = r.
Proof.
  intros Hb Hr. unfold float_mod.
  replace (Int_part ((r + b * IZR q) / b)) with q; [ring|].
  apply Int_part_spec.
  replace ((r + b * IZR q) / b) with (r / b + IZR q) by (field; lra).
  assert (0 <= r / b).
  { unfold Rdiv. apply Rmult_le_pos; [lra|].
    apply Rlt_le, Rinv_0_lt_compat, Hb. }
  assert (r / b < 1).
  { apply Rmult_lt_reg_r with b; [exact Hb|].
    replace (r / b * b) with r by (field; lra). lra. }
  lra.
Qed.

Lemma wrap_range (x : R) : - PI <= wrap x < PI.
Proof. apply wrapped_diff_range. Qed.

Lemma wrap_turn (c a k : R) :
  0 <= k <= 1 -> wrap (c - (a + wrap (c - a) * k)) = (1 - k) * wrap (c - a).
Proof.
  intros Hk. pose proof PI_gt_2 as HPI.
  pose proof (wrap_range (c - a)) as Hd.
  set (d := wrap (c - a)) in *.
  set (q := Int_part ((c - a + PI) / (2 * PI))).
  assert (E : c - a + PI = (d + PI) + 2 * PI * IZR q).
  { unfold d, wrap, float_mod. fold q. ring. }
  unfold wrap at 1.
  replace (c - (a + d * k) + PI) with (((1 - k) * d + PI) + 2 * PI * IZR q) by lra.
  rewrite float_mod_shift; [ring | lra |].
  split; nra.
Qed.

Lemma wrap_shift (r : R) (q : Z) :
  - PI <= r < PI -> wrap (r + 2 * PI * IZR q) = r.
Proof.
  intros Hr. pose proof PI_gt_2. unfold wrap.
  replace (r + 2 * PI * IZR q + PI) with ((r + PI) + 2 * PI * IZR q) by ring.
  rewrite float_mod_shift; lra.
Qed.

Lemma wrap_small (r : R) : - PI <= r < PI -> wrap r = r.
Proof.
  intros Hr. pose proof (wrap_shift r 0 Hr) as E.
  replace (r + 2 * PI * 0) with r in E by lra. exact E.
Qed.

Lemma angle_diff_abs_range (a c : R) : 0 <= Ant.angle_diff_abs a c <= PI.
Proof.
  unfold Ant.angle_diff_abs. pose proof (wrap_range (a - c)) as W.
  unfold wrap in W. split; [apply Rabs_pos | apply Rabs_le; lra].
Qed.

Lemma atan2_east (x : R) : 0 < x -> atan2 0 x = 0.
Proof.
  intros H. unfold atan2. destruct (Rlt_dec 0 x); [| contradiction].
  replace (0 / x) with 0 by (field; lra). apply atan_0.
Qed.

Lemma atan2_west (x : R) : x < 0 -> atan2 0 x = PI.
Proof.
  intros H. unfold atan2.
  destruct (Rlt_dec 0 x); [lra|].
  destruct (Rlt_dec x 0); [| contradiction].
  destruct (Rle_dec 0 0); [| lra].
  replace (0 / x) with 0 by (field; lra). rewrite atan_0. ring.
Qed.

(** An ant at (100, 100) heading east on a uniform home scent, the colony
    due east: the ahead heading has the highest confidence. *)
Lemma carrying_decision_witness :
  let self := Ant.mk (100, 100) 0 ANT_SPEED Ant.CARRYING_FOOD MAX_PATIENCE 0 in
  let w := mkWorld (fun _ _ => 5) zeros [] in
  let s : rng := fun _ => 1 / 2 in
  let d := Ant.decide self w (640, 100) s in
  Ant.angle (fst (fst d)) = 0 + fst (uniform (-1) 1 s) * WANDER_STRENGTH /\
  snd d = tail s.
Proof.
  intros self w s d. pose proof PI_gt_2 as HPI.
  assert (Hc : angle_to_colony self (640, 100) = 0).
  { unfold angle_to_colony, vsub, self. simpl.
    replace (100 - 100) with 0 by ring. apply atan2_east. lra. }
  assert (Hs : forall a, home_smell self w a = 5).
  { intros a. unfold home_smell, w. simpl.
    destruct (sensor_on_grid self a in_play_example) as [Hx Hy].
    apply sample_const; assumption. }
  assert (Hd : forall a, - PI <= a < PI ->
             confidence self w (640, 100) a
             = 5 + (PI - Rabs a) * NEST_GRAVITY_STRENGTH * 100).
  { intros a Ha. unfold confidence. rewrite Hs, Hc. unfold Ant.angle_diff_abs.
    change (float_mod (a - 0 + PI) (2 * PI) - PI) with (wrap (a - 0)).
    rewrite wrap_small by lra. replace (a - 0) with a by lra. reflexivity. }
  destruct (carrying_decision self w (640, 100) s eq_refl) as (T & _).
  apply T; simpl Ant.angle; unfold ANT_SENSOR_ANGLE;
    rewrite !Hd by lra; rewrite Rabs_R0; unfold NEST_GRAVITY_STRENGTH.
  - rewrite Rabs_left by lra. lra.
  - rewrite Rabs_pos_eq by lra. lra.
Defined.

(** X13: When left and right tie and ahead does not beat them, the turn toward
    the colony shrinks the wrapped bearing error by the factor
    1 - ANT_ROTATION_SPEED = 0.8: the ant never overshoots the bearing,
    and the sign of the error is kept. *)
Theorem colony_turn_shrinks_error (self : Ant.t) (w : World) (colony : vec) (s : rng) :
  Ant.state self = Ant.CARRYING_FOOD ->
  confidence self w colony (Ant.angle self)
  <= confidence self w colony (Ant.angle self - ANT_SENSOR_ANGLE) ->
  confidence self w colony (Ant.angle self - ANT_SENSOR_ANGLE)
  = confidence self w colony (Ant.angle self + ANT_SENSOR_ANGLE) ->
  let a' := Ant.angle (fst (fst (Ant.decide self w colony s))) in
  wrap (angle_to_colony self colony - a')
  = (1 - ANT_ROTATION_SPEED) * wrap (angle_to_colony self colony - Ant.angle self).
Proof.
  intros E H1 H2 a'.
  destruct (decide_carrying_turns self w colony s E) as (_ & _ & T).
  pose proof (T H1 H2) as Ea. unfold a'. rewrite Ea.
  apply wrap_turn. unfold ANT_ROTATION_SPEED. lra.
Qed.

(** An ant at the colony row heading east, the colony due west: left and
    right tie, and the ant turns back by a fifth of the half turn. *)
Lemma colony_turn_shrinks_error_witness :
  let self := Ant.mk (640, 360) 0 ANT_SPEED Ant.CARRYING_FOOD MAX_PATIENCE 0 in
  let w := mkWorld (fun _ _ => 5) zeros [] in
  let s : rng := fun _ => 1 / 2 in
  let a' := Ant.angle (fst (fst (Ant.decide self w (100, 360) s))) in
  wrap (angle_to_colony self (100, 360) - a')
  = (1 - ANT_ROTATION_SPEED) * wrap (angle_to_colony self (100, 360) - 0).
Proof.
  intros self w s a'. pose proof PI_gt_2 as HPI.
  assert (Hc : angle_to_colony self (100, 360) = PI).
  { unfold angle_to_colony, vsub, self. simpl.
    replace (360 - 360) with 0 by ring. apply atan2_west. lra. }
  assert (Hs : forall a, home_smell self w a = 5).
  { intros a. unfold home_smell, w. simpl.
    destruct (sensor_on_grid self a in_play_colony) as [Hx Hy].
    apply sample_const; assumption. }
  assert (Hd : forall a, confidence self w (100, 360) a
             = 5 + (PI - Rabs (wrap (a - PI))) * NEST_GRAVITY_STRENGTH * 100).
  { intros a. unfold confidence. rewrite Hs, Hc. reflexivity. }
  assert (W0 : wrap (0 - PI) = - PI) by (rewrite wrap_small by lra; lra).
  assert (WL : wrap (0 - PI / 4 - PI) = 3 * PI / 4).
  { replace (0 - PI / 4 - PI) with (3 * PI / 4 + 2 * PI * IZR (-1)) by (simpl; lra).
    apply wrap_shift. lra. }
  assert (WR : wrap (0 + PI / 4 - PI) = - (3 * PI / 4))
    by (rewrite wrap_small by lra; lra).
  apply (colony_turn_shrinks_error self w (100, 360) s eq_refl);
    simpl Ant.angle; unfold ANT_SENSOR_ANGLE; rewrite !Hd, ?W0, ?WL, ?WR;
    unfold NEST_GRAVITY_STRENGTH.
  - rewrite (Rabs_left (- PI)) by lra.
    rewrite (Rabs_pos_eq (3 * PI / 4)) by lra. lra.
  - rewrite (Rabs_left (- (3 * PI / 4))) by lra.
    rewrite (Rabs_pos_eq (3 * PI / 4)) by lra. lra.
Defined.

(** *** Scent against nest gravity *)

(** X14: The gravity term adds between 0 and 10 PI to the home scent of a
    heading; so a left sensor that out-smells the ahead and the right
    sensor by more than 10 PI turns a carrying ant to the left wherever the
    colony lies (and likewise to the right). *)
Theorem scent_beats_gravity (self : Ant.t) (w : World) (colony : vec) (s : rng) :
  (forall a, home_smell self w a <= confidence self w colony a
             <= home_smell self w a + 10 * PI) /\
  (Ant.state self = Ant.CARRYING_FOOD ->
   let ahead := home_smell self w (Ant.angle self) in
   let left := home_smell self w (Ant.angle self - ANT_SENSOR_ANGLE) in
   let right := home_smell self w (Ant.angle self + ANT_SENSOR_ANGLE) in
   let a' := Ant.angle (fst (fst (Ant.decide self w colony s))) in
   (left > ahead + 10 * PI -> left > right + 10 * PI ->
    a' = Ant.angle self - ANT_ROTATION_SPEED) /\
   (right > ahead + 10 * PI -> right > left + 10 * PI ->
    a' = Ant.angle self + ANT_ROTATION_SPEED)).
Proof.
  assert (B : forall a, home_smell self w a <= confidence self w colony a
                        <= home_smell self w a + 10 * PI).
  { intros a. unfold confidence, NEST_GRAVITY_STRENGTH.
    pose proof (angle_diff_abs_range a (angle_to_colony self colony)). lra. }
  split; [exact B|].
  intros E ahead left right a'.
  destruct (decide_carrying_turns self w colony s E) as (T2 & T3 & _).
  pose proof (B (Ant.angle self)) as Ba.
  pose proof (B (Ant.angle self - ANT_SENSOR_ANGLE)) as Bl.
  pose proof (B (Ant.angle self + ANT_SENSOR_ANGLE)) as Br.
  fold ahead in Ba. fold left in Bl. fold right in Br.
  split; intros H1 H2.
  - apply T2; lra.
  - apply T3; lra.
Qed.

Lemma stripe_smell (self : Ant.t) (fd : grid) (fs : list Food.t) (a : R) :
  in_play (Ant.pos self) ->
  home_smell self
    (mkWorld (fun y _ => if (y <? 100)%Z then 1000 else 0) fd fs) a
  = if Rlt_dec (snd (Ant.sensor_pos self a)) 100 then 1000 else 0.
Proof.
  intros Hp. unfold home_smell. simpl home_pheromones.
  destruct (sensor_on_grid self a Hp) as [Hx Hy].
  destruct (on_grid_cell (Ant.sensor_pos self a)
              (fun y _ => if (y <? 100)%Z then 1000 else 0) (conj Hx Hy))
    as (_ & _ & _ & E).
  rewrite E.
  destruct (Rlt_dec (snd (Ant.sensor_pos self a)) 100) as [L | L].
  - apply (Int_part_lt _ 100) in L. apply Z.ltb_lt in L. rewrite L. reflexivity.
  - assert (N : ~ (Int_part (snd (Ant.sensor_pos self a)) < 100)%Z)
      by (intros F; apply (Int_part_lt _ 100) in F; contradiction).
    apply Z.ltb_nlt in N. rewrite N. reflexivity.
Qed.

(** An ant heading east with all the home scent north of it (smaller y),
    under its left sensor: it turns left although the colony is due
    east. *)
Lemma scent_beats_gravity_witness :
  let self := Ant.mk (100, 100) 0 ANT_SPEED Ant.CARRYING_FOOD MAX_PATIENCE 0 in
  let w := mkWorld (fun y _ => if (y <? 100)%Z then 1000 else 0) zeros [] in
  let s : rng := fun _ => 1 / 2 in
  Ant.angle (fst (fst (Ant.decide self w (640, 100) s))) = 0 - ANT_ROTATION_SPEED.
Proof.
  intros self w s. pose proof PI_gt_2 as HPI. pose proof PI_4 as HPI4.
  assert (S4 : 0 < sin (PI / 4)) by (apply sin_gt_0; lra).
  assert (Ha : home_smell self w 0 = 0).
  { unfold w. rewrite stripe_smell by apply in_play_example.
    unfold Ant.sensor_pos, vadd, vscale, direction, ANT_SENSOR_DISTANCE, self.
    simpl. rewrite sin_0.
    destruct (Rlt_dec (100 + 10 * 0) 100); [lra | reflexivity]. }
  assert (Hl : home_smell self w (0 - PI / 4) = 1000).
  { unfold w. rewrite stripe_smell by apply in_play_example.
    unfold Ant.sensor_pos, vadd, vscale, direction, ANT_SENSOR_DISTANCE, self.
    simpl. replace (0 - PI / 4) with (- (PI / 4)) by ring. rewrite sin_neg.
    destruct (Rlt_dec (100 + 10 * - sin (PI / 4)) 100); [reflexivity | lra]. }
  assert (Hr : home_smell self w (0 + PI / 4) = 0).
  { unfold w. rewrite stripe_smell by apply in_play_example.
    unfold Ant.sensor_pos, vadd, vscale, direction, ANT_SENSOR_DISTANCE, self.
    simpl. replace (0 + PI / 4) with (PI / 4) by ring.
    destruct (Rlt_dec (100 + 10 * sin (PI / 4)) 100); [lra | reflexivity]. }
  destruct (proj2 (scent_beats_gravity self w (640, 100) s) eq_refl) as [T _].
  apply T; simpl Ant.angle; unfold ANT_SENSOR_ANGLE; rewrite Hl, ?Ha, ?Hr; lra.
Defined.

(** ** The sources of the simulation *)

Lemma pick_food_bounds (p : vec) (fs fs' : list Food.t) :
  Ant.pick_food p fs = Some fs' ->
  Forall (fun food => (0 <= Food.amount food <= 1000)%Z) fs ->
  Forall (fun food => (0 <= Food.amount food <= 1000)%Z) fs'.
Proof.
  revert fs'. induction fs as [| g fs IH]; intros fs' H Hok; simpl in H.
  - discriminate.
  - inversion Hok; subst.
    destruct (Rltb _ 10 && (0 <? Food.amount g)%Z) eqn:E.
    + inversion H; subst. constructor; [| assumption].
      apply andb_true_iff in E. destruct E as [_ E]. apply Z.ltb_lt in E.
      simpl. lia.
    + destruct (Ant.pick_food p fs) as [rest |]; [| discriminate].
      inversion H; subst. constructor; [assumption|]. apply IH; auto.
Qed.

Lemma update_sources_ok (self : Ant.t) (w : World) (colony : vec) (s : rng) :
  sources_ok (foods w) -> sources_ok (foods (snd (fst (Ant.update self w colony s)))).
Proof.
  intros [Hb Hp]. unfold sources_ok.
  destruct (update_registry_totals self w colony s) as (U1 & _).
  rewrite U1. split; [| exact Hp].
  destruct (Z_lt_le_dec 0 (Ant.panic_timer self)) as [Ht | Ht].
  - rewrite update_panic by assumption. exact Hb.
  - rewrite update_normal by assumption. cbn [fst snd].
    unfold Ant.interact_with_objects.
    destruct (Ant.state (fst (Ant.advance self w colony s))).
    + destruct (Ant.pick_food _ (foods w)) eqn:P; simpl; [| exact Hb].
      eapply pick_food_bounds; eassumption.
    + destruct (Rltb _ 20); exact Hb.
Qed.

Lemma add_food_sources_ok (fs : list Food.t) (x y : R) :
  sources_ok fs -> sources_ok (fs ++ [Food.mk (x, y) 1000]).
Proof.
  intros [Hb Hp]. split.
  - apply Forall_app. split; [exact Hb|]. constructor; [simpl; lia | constructor].
  - rewrite map_app, firstn_app.
    assert (L : (4 <= length (map Food.pos fs))%nat).
    { assert (E : length (firstn 4 (map Food.pos fs)) = 4%nat)
        by (rewrite Hp; reflexivity).
      rewrite length_firstn in E. lia. }
    replace (4 - length (map Food.pos fs))%nat with 0%nat by lia.
    simpl firstn at 2. rewrite app_nil_r. exact Hp.
Qed.

(** X15: In every state of the simulation every source holds between 0 and 1000
    units, and the four sources of [__init__] are still the first four of
    the registry, at their positions: sources are never removed, moved or
    reordered, and a click only appends. *)
Theorem simulation_sources (gf : grid -> R -> grid) (sim : Simulation.t) :
  reachable gf sim -> sources_ok (foods (Simulation.world sim)).
Proof.
  intros Hr. induction Hr as [s | sim clicks s Hr IH].
  - unfold Simulation.init. rewrite bind_eq. unfold ret.
    cbn [fst snd Simulation.world foods]. split; [| reflexivity].
    repeat constructor; simpl; lia.
  - unfold Simulation.frame, Simulation.update. rewrite bind_eq. unfold ret.
    cbn [fst snd Simulation.world foods evaporation].
    apply (update_ants_world (fun w => sources_ok (foods w)));
      [intros a w c s0; apply update_sources_ok|].
    clear Hr. revert sim IH.
    induction clicks as [| c l IHl]; intros sim IH; simpl; [exact IH|].
    apply IHl. simpl. apply add_food_sources_ok, IH.
Qed.

Lemma simulation_sources_witness :
  sources_ok
    (foods (Simulation.world
              (fst (Simulation.frame Blur.gaussian_filter [(5, 5)%Z]
                      (fst (Simulation.init (fun _ => 1 / 2))) (fun _ => 1 / 2))))).
Proof.
  apply (simulation_sources Blur.gaussian_filter).
  apply reach_frame, reach_init.
Defined.

(** ** The main loop *)

Lemma handle_events_clicks (events : list MainLoop.event) (sim : Simulation.t) (b : bool) :
  fold_left MainLoop.handle_event events (sim, b)
  = (fold_left Simulation.add_food (MainLoop.clicks_of events) sim,
     b && negb (existsb MainLoop.is_quit events)).
Proof.
  revert sim b. induction events as [| e l IH]; intros sim b; simpl.
  - rewrite andb_true_r. reflexivity.
  - destruct e; simpl; rewrite IH; simpl.
    + rewrite andb_false_r. reflexivity.
    + reflexivity.
    + reflexivity.
Qed.

(** One turn of the loop is one frame on the clicks of the batch, all of
    them, those after a QUIT in the batch too; the loop goes on to the
    next batch exactly when the batch holds no QUIT. *)
Lemma start_cons (gf : grid -> R -> grid) (events : list MainLoop.event)
      (rest : list (list MainLoop.event)) (sim : Simulation.t) (s : rng) :
  MainLoop.start gf (events :: rest) sim s
  = let r := Simulation.frame gf (MainLoop.clicks_of events) sim s in
    if existsb MainLoop.is_quit events then (fst r, false, snd r)
    else MainLoop.start gf rest (fst r) (snd r).
Proof.
  simpl. rewrite handle_events_clicks, bind_eq. cbn [fst snd].
  unfold Simulation.frame.
  destruct (existsb MainLoop.is_quit events); reflexivity.
Qed.

Lemma frame_frame_count (gf : grid -> R -> grid) (clicks : list (Z * Z))
      (sim : Simulation.t) (s : rng) :
  Simulation.frame_count (fst (Simulation.frame gf clicks sim s))
  = (Simulation.frame_count sim + 1)%Z.
Proof.
  unfold Simulation.frame, Simulation.update. rewrite bind_eq. unfold ret.
  cbn [fst Simulation.frame_count].
  destruct (fold_add_food_frame clicks sim) as [_ E]. rewrite E. reflexivity.
Qed.

(** X16: The loop never leaves the states of the simulation: whatever the
    events, the state it returns is a reachable one, so every invariant of
    the reachable states holds all along a run of [start]. *)
Theorem start_stays_reachable (gf : grid -> R -> grid)
        (batches : list (list MainLoop.event)) (sim : Simulation.t) (s : rng) :
  reachable gf sim -> reachable gf (fst (fst (MainLoop.start gf batches sim s))).
Proof.
  revert sim s. induction batches as [| events rest IH]; intros sim s Hr.
  - exact Hr.
  - rewrite start_cons. cbv zeta.
    destruct (existsb MainLoop.is_quit events).
    + cbn [fst]. apply reach_frame, Hr.
    + apply IH, reach_frame, Hr.
Qed.

Lemma start_stays_reachable_witness :
  reachable Blur.gaussian_filter
    (fst (fst (MainLoop.start Blur.gaussian_filter
                 [[MainLoop.MOUSEBUTTONDOWN (5, 5)%Z]; [MainLoop.QUIT]]
                 (fst (Simulation.init (fun _ => 1 / 2))) (fun _ => 1 / 2)))).
Proof.
  apply (start_stays_reachable Blur.gaussian_filter).
  apply reach_init.
Defined.

(** X17: A QUIT event ends the loop after the frame it arrives in: the state is
    still updated once in that frame, the later batches are never looked
    at, and the frame counter has advanced by the number of batches up to
    and including the one with the QUIT.  Without any QUIT the loop is
    still running after the last batch, one frame per batch. *)
Theorem start_stops_at_quit (gf : grid -> R -> grid) (sim : Simulation.t) (s : rng) :
  (forall pre events post,
      Forall no_quit pre -> existsb MainLoop.is_quit events = true ->
      MainLoop.start gf (pre ++ events :: post) sim s
      = MainLoop.start gf (pre ++ [events]) sim s /\
      snd (fst (MainLoop.start gf (pre ++ events :: post) sim s)) = false /\
      Simulation.frame_count (fst (fst (MainLoop.start gf (pre ++ events :: post) sim s)))
      = (Simulation.frame_count sim + Z.of_nat (length pre) + 1)%Z)
  /\
  (forall batches,
      Forall no_quit batches ->
      snd (fst (MainLoop.start gf batches sim s)) = true /\
      Simulation.frame_count (fst (fst (MainLoop.start gf batches sim s)))
      = (Simulation.frame_count sim + Z.of_nat (length batches))%Z).
Proof.
  split.
  - intros pre events post Hpre Hq. revert sim s.
    induction Hpre as [| b pre Hb Hpre IH]; intros sim s.
    + simpl app. rewrite !start_cons, Hq. cbv zeta. cbn [fst snd].
      split; [reflexivity|]. split; [reflexivity|].
      rewrite frame_frame_count. simpl. lia.
    + simpl app. rewrite !start_cons. unfold no_quit in Hb. rewrite Hb. cbv zeta.
      destruct (IH (fst (Simulation.frame gf (MainLoop.clicks_of b) sim s))
                   (snd (Simulation.frame gf (MainLoop.clicks_of b) sim s)))
        as (I1 & I2 & I3).
      split; [exact I1|]. split; [exact I2|].
      rewrite I3, frame_frame_count. simpl length. lia.
  - intros batches Hb. revert sim s.
    induction Hb as [| b batches Hb Hrest IH]; intros sim s.
    + simpl. split; [reflexivity | lia].
    + rewrite start_cons. unfold no_quit in Hb. rewrite Hb. cbv zeta.
      destruct (IH (fst (Simulation.frame gf (MainLoop.clicks_of b) sim s))
                   (snd (Simulation.frame gf (MainLoop.clicks_of b) sim s)))
        as (I1 & I2).
      split; [exact I1|].
      rewrite I2, frame_frame_count. simpl length. lia.
Qed.

Lemma start_stops_at_quit_witness :
  let sim := fst (Simulation.init (fun _ => 1 / 2)) in
  let s : rng := fun _ => 1 / 2 in
  let run := MainLoop.start Blur.gaussian_filter
               ([[MainLoop.OTHER]]
                  ++ [MainLoop.QUIT; MainLoop.MOUSEBUTTONDOWN (5, 5)%Z]
                  :: [[MainLoop.OTHER]]) sim s in
  run = MainLoop.start Blur.gaussian_filter
          ([[MainLoop.OTHER]]
             ++ [[MainLoop.QUIT; MainLoop.MOUSEBUTTONDOWN (5, 5)%Z]]) sim s /\
  snd (fst run) = false /\
  Simulation.frame_count (fst (fst run))
  = (Simulation.frame_count sim + Z.of_nat 1 + 1)%Z.
Proof.
  intros sim s run.
  apply (proj1 (start_stops_at_quit Blur.gaussian_filter sim s)
               [[MainLoop.OTHER]]
               [MainLoop.QUIT; MainLoop.MOUSEBUTTONDOWN (5, 5)%Z]
               [[MainLoop.OTHER]]).
  - repeat constructor.
  - reflexivity.
Defined.

(** ** Clicks and registration order *)

(** X18: The clicks of a frame append one full source each, in click order, at
    the end of the registry, and touch nothing else of the simulation. *)
Theorem clicks_append_sources (clicks : list (Z * Z)) (sim : Simulation.t) :
  let sim' := fold_left Simulation.add_food clicks sim in
  foods (Simulation.world sim')
  = foods (Simulation.world sim)
    ++ map (fun c => Food.mk (IZR (fst c), IZR (snd c)) 1000) clicks /\
  home_pheromones (Simulation.world sim') = home_pheromones (Simulation.world sim) /\
  food_pheromones (Simulation.world sim') = food_pheromones (Simulation.world sim) /\
  Simulation.ants sim' = Simulation.ants sim /\
  Simulation.colony_pos sim' = Simulation.colony_pos sim /\
  Simulation.frame_count sim' = Simulation.frame_count sim.
Proof.
  revert sim. induction clicks as [| c l IH]; intros sim; simpl.
  - rewrite app_nil_r. repeat split; reflexivity.
  - destruct (IH (Simulation.add_food sim c)) as (I1 & I2 & I3 & I4 & I5 & I6).
    rewrite I1, I2, I3, I4, I5, I6. simpl.
    rewrite <- app_assoc. repeat split; reflexivity.
Qed.

(** X19: The scan of the sources follows registration order across any split of
    the registry: a pickup among the older sources leaves the newer ones
    alone, and the newer ones are tried only when no older one matches. *)
Theorem pick_food_app (p : vec) (older newer : list Food.t) :
  Ant.pick_food p (older ++ newer)
  = match Ant.pick_food p older with
    | Some older' => Some (older' ++ newer)
    | None =>
        match Ant.pick_food p newer with
        | Some newer' => Some (older ++ newer')
        | None => None
        end
    end.
Proof.
  induction older as [| f older IH]; simpl.
  - destruct (Ant.pick_food p newer); reflexivity.
  - destruct (Rltb _ 10 && (0 <? Food.amount f)%Z); [reflexivity|].
    rewrite IH. destruct (Ant.pick_food p older); [reflexivity|].
    destruct (Ant.pick_food p newer); reflexivity.
Qed.

(** ** Drawing *)

(** X20: A source with food is drawn as a circle at its position with a radius
    above 10 and at most 30, growing with the amount up to 400 units; an
    empty source is not drawn. *)
Theorem food_circle_radius (food : Food.t) :
  ((Food.amount food <= 0)%Z -> Render.food_circle food = None) /\
  ((0 < Food.amount food)%Z ->
   exists r, Render.food_circle food = Some (Food.pos food, r) /\
             10 < r <= 30 /\
             ((Food.amount food <= 400)%Z -> r = 10 + IZR (Food.amount food) / 20) /\
             ((400 <= Food.amount food)%Z -> r = 30)).
Proof.
  unfold Render.food_circle. split; intros H.
  - apply Z.ltb_ge in H. rewrite H. reflexivity.
  - pose proof H as H'. apply Z.ltb_lt in H'. rewrite H'.
    eexists. split; [reflexivity|].
    apply IZR_lt in H.
    unfold Rmin. destruct (Rle_dec (10 + IZR (Food.amount food) / 20) 30) as [L | L].
    + split; [lra|]. split; [reflexivity|].
      intros G. apply IZR_le in G. lra.
    + split; [lra|]. split; [| reflexivity].
      intros G. apply IZR_le in G. lra.
Qed.

Lemma food_circle_radius_witness :
  exists r, Render.food_circle (Food.mk (100, 100) 200) = Some ((100, 100), r) /\
            10 < r <= 30 /\
            ((200 <= 400)%Z -> r = 10 + IZR 200 / 20) /\
            ((400 <= 200)%Z -> r = 30).
Proof.
  apply (proj2 (food_circle_radius (Food.mk (100, 100) 200))).
  simpl. lia.
Defined.

Lemma channel_clipped (v : R) : 0 <= Rmin (Rmax v 0) 255 <= 255.
Proof.
  unfold Rmax. destruct (Rle_dec v 0); unfold Rmin; destruct (Rle_dec _ 255); lra.
Qed.

(** X21: A colour channel of the pheromone layers is a byte: the scent is
    clipped to [0, 255] before it is truncated, so no value wraps around;
    scent below 1 is invisible, scent from 255 up is drawn at full
    intensity, and in between the channel is the integer part of the
    scent, so a cell that counts as a trail (scent above 10) shows with
    intensity at least 10. *)
Theorem channel_is_byte (v : R) :
  (0 <= Render.channel v <= 255)%Z /\
  (v < 1 -> Render.channel v = 0%Z) /\
  (255 <= v -> Render.channel v = 255%Z) /\
  (0 <= v <= 255 -> Render.channel v = Int_part v) /\
  (10 < v -> (10 <= Render.channel v)%Z).
Proof.
  unfold Render.channel. pose proof (channel_clipped v) as C.
  split; [apply (int_between _ 0 255); [lia | exact C]|].
  split; [| split; [| split]]; intros H.
  - assert (E : (0 <= int (Rmin (Rmax v 0) 255) < 1)%Z); [| lia].
    apply int_lt. revert C.
    unfold Rmax. destruct (Rle_dec v 0); unfold Rmin; destruct (Rle_dec _ 255); lra.
  - replace (Rmin (Rmax v 0) 255) with (IZR 255); [apply int_IZR|].
    unfold Rmax. destruct (Rle_dec v 0); unfold Rmin; destruct (Rle_dec _ 255); lra.
  - replace (Rmin (Rmax v 0) 255) with v; [apply int_nonneg; lra|].
    unfold Rmax. destruct (Rle_dec v 0); unfold Rmin; destruct (Rle_dec _ 255); lra.
  - apply (int_between _ 10 255); [lia|]. revert C.
    unfold Rmax. destruct (Rle_dec v 0); unfold Rmin; destruct (Rle_dec _ 255); lra.
Qed.

Lemma channel_is_byte_witness : (10 <= Render.channel 500)%Z.
Proof.
  apply (proj2 (proj2 (proj2 (proj2 (channel_is_byte 500))))). lra.
Defined.

(** ** A fresh simulation *)

Lemma make_ants_spec (P : Ant.t -> Prop) (colony : vec) (n : nat) (s : rng) :
  (forall s', rng_ok s' -> P (fst (Ant.init (fst colony) (snd colony) s'))) ->
  rng_ok s ->
  Forall P (fst (Simulation.make_ants n colony s)) /\
  snd (Simulation.make_ants n colony s) = (fun k => s (n + k)%nat).
Proof.
  intros HP. revert s. induction n as [| n IH]; intros s Hs; simpl.
  - split; [constructor | reflexivity].
  - rewrite !bind_eq. cbn [fst snd ret]. unfold ret. cbn [fst snd].
    assert (E : snd (Ant.init (fst colony) (snd colony) s) = tail s) by reflexivity.
    rewrite E. destruct (IH (tail s) (rng_ok_tail s Hs)) as [I1 I2].
    split; [constructor; [apply HP, Hs | exact I1]|].
    rewrite I2. reflexivity.
Qed.

(** X22: [Simulation.__init__] with a well-formed generator: empty grids, the
    four sources of 1000, the colony at the centre (640, 360), frame 0, and
    ANT_COUNT ants, each at the colony, searching, with full patience, out
    of panic, at ANT_SPEED, with a heading in [0, 2 PI); one draw is used
    per ant. *)
Theorem fresh_simulation (s : rng) :
  rng_ok s ->
  let sim := fst (Simulation.init s) in
  Simulation.world sim
  = mkWorld zeros zeros
      [ Food.mk (100, 100) 1000;
        Food.mk (IZR SCREEN_WIDTH - 100, IZR SCREEN_HEIGHT - 100) 1000;
        Food.mk (IZR SCREEN_WIDTH - 200, 150) 1000;
        Food.mk (120, IZR SCREEN_HEIGHT - 80) 1000 ] /\
  Simulation.colony_pos sim = (IZR SCREEN_WIDTH / 2, IZR SCREEN_HEIGHT / 2) /\
  Simulation.frame_count sim = 0%Z /\
  length (Simulation.ants sim) = ANT_COUNT /\
  Forall (fun a =>
            Ant.pos a = (IZR SCREEN_WIDTH / 2, IZR SCREEN_HEIGHT / 2) /\
            Ant.state a = Ant.SEARCHING /\ Ant.patience a = MAX_PATIENCE /\
            Ant.panic_timer a = 0%Z /\ Ant.speed a = ANT_SPEED /\
            0 <= Ant.angle a < 2 * PI)
         (Simulation.ants sim) /\
  snd (Simulation.init s) = (fun k => s (ANT_COUNT + k)%nat).
Proof.
  intros Hs sim. unfold sim, Simulation.init. rewrite bind_eq. unfold ret.
  cbn [fst snd Simulation.world Simulation.colony_pos Simulation.frame_count
       Simulation.ants].
  split; [reflexivity|]. split; [reflexivity|]. split; [reflexivity|].
  split; [apply make_ants_length|].
  apply make_ants_spec; [| exact Hs].
  intros s' Hs'. simpl. repeat split; try reflexivity.
  - specialize (Hs' 0%nat). pose proof PI_gt_2. nra.
  - specialize (Hs' 0%nat). pose proof PI_gt_2. nra.
Qed.

Lemma fresh_simulation_witness :
  length (Simulation.ants (fst (Simulation.init (fun _ => 1 / 2)))) = ANT_COUNT /\
  snd (Simulation.init (fun _ => 1 / 2)) = (fun k => 1 / 2).
Proof.
  destruct (fresh_simulation (fun _ => 1 / 2)) as (_ & _ & _ & L & _ & G).
  - apply rng_ok_const. lra.
  - split; [exact L | exact G].
Defined.

Lemma update_food_registry_witness :
  let self := Ant.mk (640, 360) 0 ANT_SPEED Ant.CARRYING_FOOD MAX_PATIENCE 0 in
  let w := mkWorld zeros zeros [Food.mk (100, 100) 1000] in
  let s : rng := fun _ => 1 / 2 in
  foods (snd (fst (Ant.update self w (640, 360) s))) = foods w.
Proof.
  intros self w s.
  apply (proj2 (proj2 (update_food_registry self w (640, 360) s))).
  reflexivity.
Defined.

(** ** The draws of one update *)

Lemma draws_trans (j k : nat) (s1 s2 s3 : rng) :
  draws j s1 s2 -> draws k s2 s3 -> draws (j + k) s1 s3.
Proof.
  intros H1 H2 n. rewrite H2, H1. f_equal. lia.
Qed.

Lemma handle_boundaries_draws (self : Ant.t) (s : rng) :
  draws (if Ant.inside (Ant.pos self) then 0 else 1) s
        (snd (Ant.handle_boundaries self s)).
Proof.
  rewrite handle_boundaries_eq.
  destruct (Ant.inside (Ant.pos self)); intros n; reflexivity.
Qed.

Lemma decide_draws (self : Ant.t) (w : World) (colony : vec) (s : rng) :
  draws 0 s (snd (Ant.decide self w colony s)) \/
  draws 1 s (snd (Ant.decide self w colony s)).
Proof.
  unfold Ant.decide. destruct (Ant.state self); rewrite bind_eq; simpl.
  - unfold Ant.steer_searching.
    destruct (Rgtb _ _ && Rgtb _ _); [right; intros n; reflexivity|].
    destruct (Rgtb _ _); [left; intros n; reflexivity|].
    destruct (Rgtb _ _); [left | right]; intros n; reflexivity.
  - unfold Ant.steer_carrying.
    destruct (Rgtb _ _ && Rgtb _ _); [right; intros n; reflexivity|].
    destruct (Rgtb _ _); [left; intros n; reflexivity|].
    destruct (Rgtb _ _); left; intros n; reflexivity.
Qed.

Lemma steer_searching_draws (a ahead left right : R) (s : rng) :
  ((ahead > left /\ ahead > right) \/ left = right ->
   snd (Ant.steer_searching a ahead left right s) = tail s) /\
  (~ (ahead > left /\ ahead > right) -> left <> right ->
   snd (Ant.steer_searching a ahead left right s) = s).
Proof.
  unfold Ant.steer_searching.
  destruct (Rgtb ahead left) eqn:E1; destruct (Rgtb ahead right) eqn:E2;
    destruct (Rgtb left right) eqn:E3; destruct (Rgtb right left) eqn:E4;
    simpl;
    try apply Rgtb_true in E1; try apply Rgtb_false in E1;
    try apply Rgtb_true in E2; try apply Rgtb_false in E2;
    try apply Rgtb_true in E3; try apply Rgtb_false in E3;
    try apply Rgtb_true in E4; try apply Rgtb_false in E4;
    split; intros H; try intros H'; try reflexivity;
    try (exfalso; lra); try (exfalso; tauto);
    try (exfalso; destruct H as [[? ?] | ?]; lra);
    try (exfalso; apply H'; lra).
Qed.

Lemma steer_carrying_draws (a c ca cl cr : R) (s : rng) :
  (ca > cl /\ ca > cr -> snd (Ant.steer_carrying a c ca cl cr s) = tail s) /\
  (~ (ca > cl /\ ca > cr) -> snd (Ant.steer_carrying a c ca cl cr s) = s).
Proof.
  unfold Ant.steer_carrying.
  destruct (Rgtb ca cl) eqn:E1; destruct (Rgtb ca cr) eqn:E2; simpl;
    try apply Rgtb_true in E1; try apply Rgtb_false in E1;
    try apply Rgtb_true in E2; try apply Rgtb_false in E2;
    split; intros H; try reflexivity; try (exfalso; lra); try (exfalso; tauto);
    destruct (Rgtb cl cr); try reflexivity; destruct (Rgtb cr cl); reflexivity.
Qed.

Lemma draws_tail (s : rng) : draws 1 s (tail s).
Proof. intros n. reflexivity. Qed.

Lemma draws_refl (s : rng) : draws 0 s s.
Proof. intros n. reflexivity. Qed.

(** X23: The draws of one update, in order.  In panic: one for the wander, and
    one more exactly when the boundary handler fires on the position after
    the move.  In the normal branch: the decision draws once when it
    wanders (searching: ahead strictly the largest sample, or left equal to
    right; carrying: ahead confidence strictly the highest) and not at all
    when it turns by the rotation step or toward the colony; then one more
    draw exactly when the boundary handler fires; the interaction draws
    nothing.  So an update takes at most two draws. *)
Theorem update_draws (self : Ant.t) (w : World) (colony : vec) (s : rng) :
  let bounce := fun m : Ant.t => if Ant.inside (Ant.pos m) then 0%nat else 1%nat in
  ((0 < Ant.panic_timer self)%Z ->
   let m := Ant.move
              (Ant.set_angle self
                 (Ant.angle self + fst (uniform (-1) 1 s) * WANDER_STRENGTH * 2)) in
   draws (1 + bounce m) s (snd (Ant.update self w colony s)))
  /\
  ((Ant.panic_timer self <= 0)%Z ->
   let d := Ant.decide self w colony s in
   let m := Ant.move (Ant.bookkeeping (fst (fst d)) (snd (fst d))) in
   (Ant.state self = Ant.SEARCHING ->
    let ahead := smell_ahead self w in
    let left := smell_left self w in
    let right := smell_right self w in
    ((ahead > left /\ ahead > right) \/ left = right -> draws 1 s (snd d)) /\
    (~ (ahead > left /\ ahead > right) -> left <> right -> draws 0 s (snd d))) /\
   (Ant.state self = Ant.CARRYING_FOOD ->
    let ca := confidence self w colony (Ant.angle self) in
    let cl := confidence self w colony (Ant.angle self - ANT_SENSOR_ANGLE) in
    let cr := confidence self w colony (Ant.angle self + ANT_SENSOR_ANGLE) in
    (ca > cl /\ ca > cr -> draws 1 s (snd d)) /\
    (~ (ca > cl /\ ca > cr) -> draws 0 s (snd d))) /\
   draws (bounce m) (snd d) (snd (Ant.update self w colony s)) /\
   snd (Ant.update self w colony s) = snd (Ant.handle_boundaries m (snd d)))
  /\
  (exists k : nat, (k <= 2)%nat /\ draws k s (snd (Ant.update self w colony s))).
Proof.
  intros bounce.
  assert (Hb : forall m, (bounce m <= 1)%nat)
    by (intros m; unfold bounce; destruct (Ant.inside _); lia).
  assert (P : (0 < Ant.panic_timer self)%Z ->
              draws (1 + bounce (Ant.move (Ant.set_angle self
                       (Ant.angle self
                        + fst (uniform (-1) 1 s) * WANDER_STRENGTH * 2))))
                    s (snd (Ant.update self w colony s))).
  { intros Hp. rewrite update_panic by assumption. cbn [snd].
    rewrite panic_update_eq.
    apply (draws_trans 1 _ s (tail s)); [apply draws_tail|].
    match goal with |- context [Ant.handle_boundaries ?x ?y] =>
      exact (handle_boundaries_draws x y) end. }
  assert (Nd : (Ant.panic_timer self <= 0)%Z ->
               snd (Ant.update self w colony s)
               = snd (Ant.handle_boundaries
                        (Ant.move (Ant.bookkeeping
                                     (fst (fst (Ant.decide self w colony s)))
                                     (snd (fst (Ant.decide self w colony s)))))
                        (snd (Ant.decide self w colony s)))).
  { intros Hp. rewrite update_normal by assumption. cbn [snd].
    rewrite advance_eq. reflexivity. }
  split; [exact P|]. split.
  - intros Hp d m. split; [| split; [| split]].
    + intros E ahead left right.
      destruct (decide_searching_angle self w colony s E) as [_ Es].
      fold d ahead left right in Es.
      destruct (steer_searching_draws (Ant.angle self) ahead left right s) as [S1 S2].
      split; [intros H | intros H H']; rewrite Es.
      * rewrite S1 by assumption. apply draws_tail.
      * rewrite S2 by assumption. apply draws_refl.
    + intros E ca cl cr.
      destruct (decide_carrying_angle self w colony s E) as [_ Es].
      fold d ca cl cr in Es.
      destruct (steer_carrying_draws (Ant.angle self) (angle_to_colony self colony)
                  ca cl cr s) as [S1 S2].
      split; intros H; rewrite Es.
      * rewrite S1 by assumption. apply draws_tail.
      * rewrite S2 by assumption. apply draws_refl.
    + rewrite (Nd Hp). apply handle_boundaries_draws.
    + apply (Nd Hp).
  - destruct (Z_lt_le_dec 0 (Ant.panic_timer self)) as [Hp | Hp].
    + eexists. split; [| exact (P Hp)].
      match goal with |- (1 + bounce ?m <= 2)%nat => specialize (Hb m) end. lia.
    + rewrite (Nd Hp).
      match goal with |- context [Ant.handle_boundaries ?x ?y] =>
        pose proof (handle_boundaries_draws x y) as H; specialize (Hb x) end.
      fold (bounce (Ant.move (Ant.bookkeeping
                                (fst (fst (Ant.decide self w colony s)))
                                (snd (fst (Ant.decide self w colony s)))))) in H.
      destruct (decide_draws self w colony s) as [D | D].
      * eexists. split; [| eapply draws_trans; eassumption]. lia.
      * eexists. split; [| eapply draws_trans; eassumption]. lia.
Qed.

(** An ant in panic well inside the rectangle: the wander and no bounce,
    one draw. *)
Lemma update_draws_witness :
  let self := Ant.mk (100, 100) 0 ANT_SPEED Ant.SEARCHING MAX_PATIENCE 5 in
  let s : rng := fun _ => 1 / 2 in
  let m := Ant.move
             (Ant.set_angle self
                (Ant.angle self + fst (uniform (-1) 1 s) * WANDER_STRENGTH * 2)) in
  draws (1 + (if Ant.inside (Ant.pos m) then 0 else 1)) s
        (snd (Ant.update self (mkWorld zeros zeros []) (640, 360) s)).
Proof.
  intros self s m.
  apply (proj1 (update_draws self (mkWorld zeros zeros []) (640, 360) s)).
  simpl. lia.
Defined.

(** ** What the interaction does to the ant *)

(** X24: The interaction either leaves the ant exactly as it is, or switches its
    task state; a switch always comes with a full patience and the exact
    reversal of the direction of motion, and it leaves position, speed and
    panic timer alone. *)
Theorem interaction_turns_back (m : Ant.t) (w : World) (colony : vec) :
  let m' := fst (Ant.interact_with_objects m w colony) in
  (Ant.state m' = Ant.state m -> m' = m) /\
  (Ant.state m' <> Ant.state m ->
   direction (Ant.angle m') = vscale (-1) (direction (Ant.angle m)) /\
   Ant.patience m' = MAX_PATIENCE /\
   Ant.pos m' = Ant.pos m /\ Ant.speed m' = Ant.speed m /\
   Ant.panic_timer m' = Ant.panic_timer m).
Proof.
  intros m'. split; [apply interact_quiet|].
  unfold m', Ant.interact_with_objects.
  assert (D : direction (Ant.angle m + PI) = vscale (-1) (direction (Ant.angle m))).
  { unfold direction, vscale. simpl. rewrite neg_cos, neg_sin. f_equal; ring. }
  destruct (Ant.state m) eqn:E.
  - destruct (Ant.pick_food (Ant.pos m) (foods w)); simpl.
    + intros _. repeat split; try reflexivity. exact D.
    + rewrite E. intros F. contradiction.
  - destruct (Rltb _ 20); simpl.
    + intros _. repeat split; try reflexivity. exact D.
    + rewrite E. intros F. contradiction.
Qed.

Lemma interaction_turns_back_witness :
  let m := Ant.mk (100, 100) 0 ANT_SPEED Ant.SEARCHING MAX_PATIENCE 0 in
  fst (Ant.interact_with_objects m (mkWorld zeros zeros []) (640, 360)) = m.
Proof.
  intros m.
  apply (proj1 (interaction_turns_back m (mkWorld zeros zeros []) (640, 360))).
  reflexivity.
Defined.
